(** * Bot lifecycle manager and in-memory storage: a shallow embedding

    The development follows [shared/schema.ts] (record shapes),
    [server/storage.ts] (class [MemStorage]) and [server/bot-manager.ts]
    (class [BotManager]).

    Data.  JavaScript numbers that the code uses as identifiers, counters
    and timestamps are integers ([Z]); a nullable column is an [option]; the
    [Map] of bot records, which the code iterates, is an insertion-ordered
    association list; the handle map [botProcesses], which is only looked
    up, is a [gmap]; the [Set] of subscribers is a list in insertion order.

    Effects.  The methods of the manager are computations over the process
    state that either return or throw.  The discord.js client, the
    websockets and the system clock are outside the repository: their
    answers come from an environment [Env], and every call made on them is
    recorded in a trace.  Each method runs to completion: the callbacks
    that discord.js fires later ([ready], [error], [disconnect]) and the
    interleaving of other timers at an [await] are not part of a run. *)

From Stdlib Require Import ZArith String.
From stdpp Require Import base tactics option list gmap strings.
From stdpp Require Import pretty sorting.

Local Open Scope string_scope.
Local Open Scope Z_scope.
Local Open Scope list_scope.

(** ** JavaScript coercions used by the source *)

(** [s || d] on a string that may be absent: the empty string is falsy. *)
Definition str_truthy (s : string) : bool := negb (String.eqb s "").

Definition str_or (o : option string) (d : string) : string :=
  match o with
  | Some s => if str_truthy s then s else d
  | None => d
  end.

(** [x || null] on a number that may be absent: zero is falsy. *)
Definition num_or_null (o : option Z) : option Z :=
  match o with
  | Some x => if Z.eqb x 0 then None else Some x
  | None => None
  end.

(** [arr.slice(-n)] for a positive [n]: the last [n] elements, the whole
    array when it is shorter. *)
Definition slice_last {A} (n : nat) (l : list A) : list A :=
  drop (length l - n)%nat l.

(** ** shared/schema.ts *)

Inductive BotStatus := ONLINE | OFFLINE | WARNING.

#[global] Instance BotStatus_eq_dec : EqDecision BotStatus.
Proof. solve_decision. Defined.

(** The enum's members are the strings of the same spelling. *)
Definition BotStatus_str (s : BotStatus) : string :=
  match s with
  | ONLINE => "ONLINE"
  | OFFLINE => "OFFLINE"
  | WARNING => "WARNING"
  end.

(** [typeof bots.$inferSelect] *)
Record Bot := {
  bot_id : Z;
  bot_name : string;
  bot_token : string;
  bot_prefix : string;
  bot_userId : Z;
  bot_isRunning : bool;
  bot_memory : option Z;
  bot_uptime : option Z;
  bot_serverCount : option Z;
  bot_commandCount : option Z;
  bot_lastStarted : option Z;
  bot_botType : option string;
  bot_iconType : option string;
  bot_status : option string;
  bot_permissions : option string;
  bot_inviteConfig : option string
}.

(** [Partial<Bot>]: a key that is absent is [None]. *)
Record PartialBot := {
  p_id : option Z;
  p_name : option string;
  p_token : option string;
  p_prefix : option string;
  p_userId : option Z;
  p_isRunning : option bool;
  p_memory : option (option Z);
  p_uptime : option (option Z);
  p_serverCount : option (option Z);
  p_commandCount : option (option Z);
  p_lastStarted : option (option Z);
  p_botType : option (option string);
  p_iconType : option (option string);
  p_status : option (option string);
  p_permissions : option (option string);
  p_inviteConfig : option (option string)
}.

Definition partial_empty : PartialBot :=
  {| p_id := None; p_name := None; p_token := None; p_prefix := None;
     p_userId := None; p_isRunning := None; p_memory := None;
     p_uptime := None; p_serverCount := None; p_commandCount := None;
     p_lastStarted := None; p_botType := None; p_iconType := None;
     p_status := None; p_permissions := None; p_inviteConfig := None |}.

(** The object literal [{ status }]. *)
Definition partial_status (s : BotStatus) : PartialBot :=
  {| p_id := None; p_name := None; p_token := None; p_prefix := None;
     p_userId := None; p_isRunning := None; p_memory := None;
     p_uptime := None; p_serverCount := None; p_commandCount := None;
     p_lastStarted := None; p_botType := None; p_iconType := None;
     p_status := Some (Some (BotStatus_str s)); p_permissions := None;
     p_inviteConfig := None |}.

(** The object literal [{ isRunning: true }]. *)
Definition partial_isRunning (b : bool) : PartialBot :=
  {| p_id := None; p_name := None; p_token := None; p_prefix := None;
     p_userId := None; p_isRunning := Some b; p_memory := None;
     p_uptime := None; p_serverCount := None; p_commandCount := None;
     p_lastStarted := None; p_botType := None; p_iconType := None;
     p_status := None; p_permissions := None; p_inviteConfig := None |}.

(** The object spread [{ ...bot, ...data }]. *)
Definition spread_bot (bot : Bot) (data : PartialBot) : Bot :=
  {| bot_id := default (bot_id bot) (p_id data);
     bot_name := default (bot_name bot) (p_name data);
     bot_token := default (bot_token bot) (p_token data);
     bot_prefix := default (bot_prefix bot) (p_prefix data);
     bot_userId := default (bot_userId bot) (p_userId data);
     bot_isRunning := default (bot_isRunning bot) (p_isRunning data);
     bot_memory := default (bot_memory bot) (p_memory data);
     bot_uptime := default (bot_uptime bot) (p_uptime data);
     bot_serverCount := default (bot_serverCount bot) (p_serverCount data);
     bot_commandCount := default (bot_commandCount bot) (p_commandCount data);
     bot_lastStarted := default (bot_lastStarted bot) (p_lastStarted data);
     bot_botType := default (bot_botType bot) (p_botType data);
     bot_iconType := default (bot_iconType bot) (p_iconType data);
     bot_status := default (bot_status bot) (p_status data);
     bot_permissions := default (bot_permissions bot) (p_permissions data);
     bot_inviteConfig := default (bot_inviteConfig bot) (p_inviteConfig data) |}.

(** [typeof logs.$inferSelect] and its insert shape. *)
Record Log := {
  log_id : Z;
  log_botId : option Z;
  log_timestamp : Z;
  log_level : string;
  log_message : string
}.

Record InsertLog := {
  il_botId : option Z;
  il_level : option string;
  il_message : string
}.

(** [typeof metrics.$inferSelect] and its insert shape. *)
Record Metric := {
  m_id : Z;
  m_timestamp : Z;
  m_cpuUsage : option Z;
  m_memoryUsage : option Z;
  m_memoryTotal : option Z;
  m_diskUsage : option Z;
  m_diskTotal : option Z;
  m_networkUsage : option Z
}.

Record InsertMetric := {
  im_cpuUsage : option Z;
  im_memoryUsage : option Z;
  im_memoryTotal : option Z;
  im_diskUsage : option Z;
  im_diskTotal : option Z;
  im_networkUsage : option Z
}.

(** ** An insertion-ordered [Map<number, V>] *)

Module JsMap.
Section JsMap.
Context {V : Type}.

Fixpoint get (k : Z) (m : list (Z * V)) : option V :=
  match m with
  | [] => None
  | (k', v) :: m' => if Z.eqb k' k then Some v else get k m'
  end.

(** [set] keeps the position of an existing key and appends a new one. *)
Fixpoint set (k : Z) (v : V) (m : list (Z * V)) : list (Z * V) :=
  match m with
  | [] => [(k, v)]
  | (k', v') :: m' =>
      if Z.eqb k' k then (k, v) :: m' else (k', v') :: set k v m'
  end.

Definition values (m : list (Z * V)) : list V := map snd m.

Definition keys (m : list (Z * V)) : list Z := map fst m.
End JsMap.
End JsMap.

(** ** server/storage.ts: class MemStorage *)

(** The fields the lifecycle manager reads and writes; the user table
  plays no part in it. *)
Record MemStorage := {
bots : list (Z * Bot);
logs : list Log;
metricsHistory : list Metric;
botCurrentId : Z;
logCurrentId : Z;
metricsCurrentId : Z
}.

Module Storage.

Definition getAllBots (s : MemStorage) : list Bot := JsMap.values (bots s).

Definition getBot (id : Z) (s : MemStorage) : option Bot :=
  JsMap.get id (bots s).

Definition updateBot (id : Z) (data : PartialBot) (s : MemStorage)
  : option Bot * MemStorage :=
  match JsMap.get id (bots s) with
  | None => (None, s)
  | Some bot =>
      let updatedBot := spread_bot bot data in
      (Some updatedBot,
       {| bots := JsMap.set id updatedBot (bots s);
          logs := logs s;
          metricsHistory := metricsHistory s;
          botCurrentId := botCurrentId s;
          logCurrentId := logCurrentId s;
          metricsCurrentId := metricsCurrentId s |})
  end.

(** [now] is the value of [new Date()] at the call. *)
Definition createLog (now : Z) (insertLog : InsertLog) (s : MemStorage)
  : Log * MemStorage :=
  let id := logCurrentId s in
  let log := {| log_id := id;
                log_botId := num_or_null (il_botId insertLog);
                log_timestamp := now;
                log_level := str_or (il_level insertLog) "info";
                log_message := il_message insertLog |} in
  let pushed := logs s ++ [log] in
  (log,
   {| bots := bots s;
      logs := if Nat.ltb 1000 (length pushed)
              then slice_last 1000 pushed else pushed;
      metricsHistory := metricsHistory s;
      botCurrentId := botCurrentId s;
      logCurrentId := id + 1;
      metricsCurrentId := metricsCurrentId s |}).

Definition getLatestMetrics (s : MemStorage) : option Metric :=
  if Nat.eqb (length (metricsHistory s)) 0 then None
  else metricsHistory s !! (length (metricsHistory s) - 1)%nat.

Definition createMetrics (now : Z) (insertMetrics : InsertMetric)
    (s : MemStorage) : Metric * MemStorage :=
  let id := metricsCurrentId s in
  let metric := {| m_id := id;
                   m_timestamp := now;
                   m_cpuUsage := num_or_null (im_cpuUsage insertMetrics);
                   m_memoryUsage := num_or_null (im_memoryUsage insertMetrics);
                   m_memoryTotal := num_or_null (im_memoryTotal insertMetrics);
                   m_diskUsage := num_or_null (im_diskUsage insertMetrics);
                   m_diskTotal := num_or_null (im_diskTotal insertMetrics);
                   m_networkUsage := num_or_null (im_networkUsage insertMetrics) |} in
  let pushed := metricsHistory s ++ [metric] in
  (metric,
   {| bots := bots s;
      logs := logs s;
      metricsHistory := if Nat.ltb 100 (length pushed)
                        then slice_last 100 pushed else pushed;
      botCurrentId := botCurrentId s;
      logCurrentId := logCurrentId s;
      metricsCurrentId := id + 1 |}).

(** The field initialisers of the constructor. *)
Definition empty : MemStorage :=
  {| bots := []; logs := []; metricsHistory := [];
     botCurrentId := 1; logCurrentId := 1; metricsCurrentId := 1 |}.

(** The two sample bots of [initializeDefaultData]; 2 is the identifier
    the constructor gave the admin user, [cfg] the [JSON.stringify] of the
    bot's invite configuration. *)
Definition moderationBot (cfg : string) : Bot :=
  {| bot_id := 1; bot_name := "Moderation Bot";
     bot_token := "placeholder-token"; bot_prefix := "!";
     bot_userId := 2; bot_isRunning := false; bot_memory := Some 78;
     bot_uptime := Some 0; bot_serverCount := Some 12;
     bot_commandCount := Some 24; bot_lastStarted := None;
     bot_botType := Some "MODERATION"; bot_iconType := Some "shield";
     bot_status := Some "OFFLINE";
     bot_permissions := Some "1099511627775";
     bot_inviteConfig := Some cfg |}.

Definition musicBot (cfg : string) : Bot :=
  {| bot_id := 2; bot_name := "DJ Bot";
     bot_token := "placeholder-token"; bot_prefix := "!";
     bot_userId := 2; bot_isRunning := false; bot_memory := Some 94;
     bot_uptime := Some 0; bot_serverCount := Some 18;
     bot_commandCount := Some 15; bot_lastStarted := None;
     bot_botType := Some "MUSIC"; bot_iconType := Some "music";
     bot_status := Some "OFFLINE";
     bot_permissions := Some "36700160";
     bot_inviteConfig := Some cfg |}.

(** [initializeDefaultData] run on the empty store; [t1], [t2] and [t3]
    are the three readings of the clock it makes. *)
Definition initializeDefaultData (cfg1 cfg2 : string) (t1 t2 t3 : Z)
  : MemStorage :=
  let s0 := {| bots := JsMap.set 2 (musicBot cfg2)
                         (JsMap.set 1 (moderationBot cfg1) (bots empty));
               logs := logs empty; metricsHistory := metricsHistory empty;
               botCurrentId := 3; logCurrentId := logCurrentId empty;
               metricsCurrentId := metricsCurrentId empty |} in
  let s1 := snd (createLog t1 {| il_botId := Some 1; il_level := Some "info";
               il_message := "Moderation Bot registered successfully" |} s0) in
  let s2 := snd (createLog t2 {| il_botId := Some 2; il_level := Some "info";
               il_message := "DJ Bot registered successfully" |} s1) in
  {| bots := bots s2; logs := logs s2;
     metricsHistory := metricsHistory s2 ++
       [ {| m_id := metricsCurrentId s2; m_timestamp := t3;
            m_cpuUsage := Some 42; m_memoryUsage := Some 1200;
            m_memoryTotal := Some 2000; m_diskUsage := Some 18000;
            m_diskTotal := Some 50000; m_networkUsage := Some 2700 |} ];
     botCurrentId := botCurrentId s2; logCurrentId := logCurrentId s2;
     metricsCurrentId := metricsCurrentId s2 + 1 |}.

(** A call of one of the two appending operations, with the clock
    reading it makes. *)
Inductive Call :=
| CallCreateLog (now : Z) (l : InsertLog)
| CallCreateMetrics (now : Z) (m : InsertMetric).

Definition call (c : Call) (s : MemStorage) : MemStorage :=
  match c with
  | CallCreateLog now l => snd (createLog now l s)
  | CallCreateMetrics now m => snd (createMetrics now m s)
  end.

Definition calls (cs : list Call) (s : MemStorage) : MemStorage :=
  foldl (fun s c => call c s) s cs.

(** What a call appends to each history. *)
Definition call_log (c : Call) (s : MemStorage) : list Log :=
  match c with
  | CallCreateLog now l => [fst (createLog now l s)]
  | CallCreateMetrics _ _ => []
  end.

Definition call_metric (c : Call) (s : MemStorage) : list Metric :=
  match c with
  | CallCreateLog _ _ => []
  | CallCreateMetrics now m => [fst (createMetrics now m s)]
  end.

(** Every log entry and every sample a sequence of calls created, oldest
    first. *)
Fixpoint created_logs (cs : list Call) (s : MemStorage) : list Log :=
  match cs with
  | [] => []
  | c :: cs' => call_log c s ++ created_logs cs' (call c s)
  end.

Fixpoint created_metrics (cs : list Call) (s : MemStorage) : list Metric :=
  match cs with
  | [] => []
  | c :: cs' => call_metric c s ++ created_metrics cs' (call c s)
  end.

End Storage.

(** ** server/bot-manager.ts: class BotManager *)

Inductive GatewayIntentBits :=
  Guilds | GuildMessages | GuildVoiceStates | GuildBans.

(** A discord.js [Client] object: the order number of its construction and
    the intents it was constructed with. *)
Record Client := {
  client_no : nat;
  client_intents : list GatewayIntentBits
}.

(** [interface BotProcess], the in-memory handle. *)
Record BotProcess := {
  bp_botId : Z;
  bp_discordClient : option Client;
  bp_status : BotStatus;
  bp_startTime : option Z;
  bp_pid : option Z;
  bp_memory : option Z
}.

(** What is written to a subscriber: the argument of [JSON.stringify]. *)
Inductive Payload :=
| StatusUpdate (bots : list Bot) (metrics : option Metric)
| ErrorMessage (message : string).

(** What a discord.js client emits to the listeners [startBot] registers
    on it; an ['error'] comes with the message of its error. *)
Inductive ClientEvent :=
| EmReady
| EmError (message : string)
| EmDisconnect
| EmReconnecting.

(** The calls the manager makes on its collaborators, recorded as they
    happen; [ok] tells whether the call returned or threw. *)
Inductive Event :=
| EvLog (l : Log)
| EvNewClient (botId : Z) (c : Client)
| EvLogin (botId : Z) (c : Client) (token : string) (ok : bool)
| EvDestroy (botId : Z) (c : Client) (ok : bool)
| EvSend (ws : Z) (p : Payload) (ok : bool)
| EvDelay (ms : Z)
| EvSetInterval (botId : Z) (c : Client) (ms : Z).

(** The collaborators' behaviour.  The first argument of each field is the
    number of interactions with the outside that came before, so that the
    same call may succeed at one time and fail at another.  [None] is a
    call that returns, [Some m] one that throws an error with message [m]
    (the empty string when the error has none).  [env_emits] is what a
    client emits between the call of its [login] and the moment the
    promise settles, in the order of the emissions. *)
Record Env := {
  env_now : nat -> Z;
  env_login : nat -> Z -> Client -> string -> option string;
  env_emits : nat -> Z -> Client -> list ClientEvent;
  env_destroy : nat -> Z -> Client -> option string;
  env_ping : nat -> Z -> Client -> Z;
  env_readyState : nat -> Z -> Z;
  env_send : nat -> Z -> Payload -> option string;
  env_pid : Z
}.

(** The process state: the storage singleton, the manager's two private
    collections, and the bookkeeping of the outside world. *)
Record World := {
  storage : MemStorage;
  botProcesses : gmap Z BotProcess;
  clients : list Z;
  clock : nat;
  nextClient : nat;
  trace : list Event
}.

(** A computation either returns or throws, and changes the state in both
    cases. *)
Inductive Outcome (A : Type) :=
| Ret (a : A)
| Throw (message : string).
Arguments Ret {A} a.
Arguments Throw {A} message.

Definition M (A : Type) : Type := World -> Outcome A * World.

#[global] Instance M_ret : MRet M := fun A a w => (Ret a, w).

#[global] Instance M_bind : MBind M := fun A B f m w =>
  match m w with
  | (Ret a, w') => f a w'
  | (Throw e, w') => (Throw e, w')
  end.

(** [try { body } catch (error) { handler }] *)
Definition try_catch {A} (body : M A) (handler : string -> M A) : M A :=
  fun w =>
    match body w with
    | (Ret a, w') => (Ret a, w')
    | (Throw e, w') => handler e w'
    end.

(** [for (const x of xs) { body }] *)
Fixpoint for_of {A} (xs : list A) (body : A -> M unit) : M unit :=
  match xs with
  | [] => mret tt
  | x :: xs' => body x ;; for_of xs' body
  end.

(** [WebSocket.OPEN] *)
Definition WebSocket_OPEN : Z := 1.

(** [error?.message || 'Unknown error'] *)
Definition error_message (e : string) : string :=
  if str_truthy e then e else "Unknown error".

(** The emissions that find a listener when the one for ['ready'] was
    registered with [once]: the first ['ready'] removes it, so a later one
    finds none.  [ready] tells whether it was removed already. *)
Fixpoint once_ready (ready : bool) (emitted : list ClientEvent)
  : list ClientEvent :=
  match emitted with
  | [] => []
  | EmReady :: rest =>
      if ready then once_ready true rest else EmReady :: once_ready true rest
  | ev :: rest => ev :: once_ready ready rest
  end.

Definition publicIntents : list GatewayIntentBits := [Guilds; GuildMessages].

(** The map [loadBotTemplates] fills: a template is the list of intents
    its [createClient] passes to [new Client]. *)
Definition botTemplates : gmap string (list GatewayIntentBits) :=
  <["advanced" := publicIntents ++ [GuildVoiceStates]]>
  (<["MODERATION" := publicIntents ++ [GuildBans]]>
  (<["MUSIC" := publicIntents ++ [GuildVoiceStates]]>
  (<["GAMING" := publicIntents]>
  (<["CUSTOM" := publicIntents]>
  (<["simple" := publicIntents]> ∅))))).

Section BotManager.

Variable E : Env.

(** *** The collaborators as state transformers *)

(** An interaction with the outside world that the trace records. *)
Definition advance (ev : Event) (w : World) : World :=
  {| storage := storage w; botProcesses := botProcesses w;
     clients := clients w; clock := S (clock w);
     nextClient := nextClient w; trace := ev :: trace w |}.

(** An interaction that only reads. *)
Definition observe (w : World) : World :=
  {| storage := storage w; botProcesses := botProcesses w;
     clients := clients w; clock := S (clock w);
     nextClient := nextClient w; trace := trace w |}.

Definition set_storage (s : MemStorage) (w : World) : World :=
  {| storage := s; botProcesses := botProcesses w;
     clients := clients w; clock := clock w;
     nextClient := nextClient w; trace := trace w |}.

Definition set_botProcesses (m : gmap Z BotProcess) (w : World) : World :=
  {| storage := storage w; botProcesses := m;
     clients := clients w; clock := clock w;
     nextClient := nextClient w; trace := trace w |}.

Definition set_clients (l : list Z) (w : World) : World :=
  {| storage := storage w; botProcesses := botProcesses w;
     clients := l; clock := clock w;
     nextClient := nextClient w; trace := trace w |}.

(** [new Date()] *)
Definition new_Date : M Z :=
  fun w => (Ret (env_now E (clock w)), observe w).

Definition storage_getAllBots : M (list Bot) :=
  fun w => (Ret (Storage.getAllBots (storage w)), w).

Definition storage_getBot (id : Z) : M (option Bot) :=
  fun w => (Ret (Storage.getBot id (storage w)), w).

Definition storage_getLatestMetrics : M (option Metric) :=
  fun w => (Ret (Storage.getLatestMetrics (storage w)), w).

Definition storage_updateBot (id : Z) (data : PartialBot) : M (option Bot) :=
  fun w =>
    let r := Storage.updateBot id data (storage w) in
    (Ret (fst r), set_storage (snd r) w).

Definition storage_createLog (logData : InsertLog) : M Log :=
  fun w =>
    let r := Storage.createLog (env_now E (clock w)) logData (storage w) in
    (Ret (fst r), advance (EvLog (fst r)) (set_storage (snd r) w)).

(** [new Client({ intents })] *)
Definition new_Client (botId : Z) (intents : list GatewayIntentBits)
  : M Client :=
  fun w =>
    let c := {| client_no := nextClient w; client_intents := intents |} in
    (Ret c,
     {| storage := storage w; botProcesses := botProcesses w;
        clients := clients w; clock := clock w;
        nextClient := S (nextClient w);
        trace := EvNewClient botId c :: trace w |}).

(** [await client.login(token)] *)
Definition client_login (botId : Z) (c : Client) (token : string) : M unit :=
  fun w =>
    match env_login E (clock w) botId c token with
    | None => (Ret tt, advance (EvLogin botId c token true) w)
    | Some e => (Throw e, advance (EvLogin botId c token false) w)
    end.

(** What [client] emits while its [login] is awaited. *)
Definition client_emits (botId : Z) (c : Client) : M (list ClientEvent) :=
  fun w => (Ret (env_emits E (clock w) botId c), w).

(** [await client.destroy()] *)
Definition client_destroy (botId : Z) (c : Client) : M unit :=
  fun w =>
    match env_destroy E (clock w) botId c with
    | None => (Ret tt, advance (EvDestroy botId c true) w)
    | Some e => (Throw e, advance (EvDestroy botId c false) w)
    end.

(** [client.ws.ping] *)
Definition client_ws_ping (botId : Z) (c : Client) : M Z :=
  fun w => (Ret (env_ping E (clock w) botId c), observe w).

(** [ws.readyState] *)
Definition ws_readyState (ws : Z) : M Z :=
  fun w => (Ret (env_readyState E (clock w) ws), observe w).

(** [ws.send(JSON.stringify(p))] *)
Definition ws_send (ws : Z) (p : Payload) : M unit :=
  fun w =>
    match env_send E (clock w) ws p with
    | None => (Ret tt, advance (EvSend ws p true) w)
    | Some e => (Throw e, advance (EvSend ws p false) w)
    end.

(** [await new Promise(resolve => setTimeout(resolve, ms))] *)
Definition delay (ms : Z) : M unit :=
  fun w => (Ret tt, advance (EvDelay ms) w).

Definition botProcesses_get (botId : Z) : M (option BotProcess) :=
  fun w => (Ret (botProcesses w !! botId), w).

Definition botProcesses_has (botId : Z) : M bool :=
  fun w => (Ret (bool_decide (is_Some (botProcesses w !! botId))), w).

Definition botProcesses_set (botId : Z) (bp : BotProcess) : M unit :=
  fun w => (Ret tt, set_botProcesses (<[botId := bp]> (botProcesses w)) w).

Definition botProcesses_delete (botId : Z) : M unit :=
  fun w => (Ret tt, set_botProcesses (delete botId (botProcesses w)) w).

Definition clients_get : M (list Z) :=
  fun w => (Ret (clients w), w).

(** *** The methods of the class *)

Definition createLog (logData : InsertLog) : M unit :=
  storage_createLog logData ;; mret tt.

(** The body runs at the call: the promise scheduling between the call and
    the deferred [send] is not represented. *)
Definition sendStatusUpdateToClient (ws : Z) : M unit :=
  try_catch
    (bots ← storage_getAllBots;
     metrics ← storage_getLatestMetrics;
     ws_send ws (StatusUpdate bots metrics))
    (fun error => mret tt).

Definition broadcastUpdate : M unit :=
  cs ← clients_get;
  for_of cs (fun client => sendStatusUpdateToClient client).

Definition broadcastError (message : string) : M unit :=
  cs ← clients_get;
  for_of cs (fun client =>
    state ← ws_readyState client;
    if Z.eqb state WebSocket_OPEN
    then ws_send client (ErrorMessage message)
    else mret tt).

Definition addClient (ws : Z) : M unit :=
  (fun w => (Ret tt,
     set_clients (if bool_decide (ws ∈ clients w) then clients w
                  else clients w ++ [ws]) w)) ;;
  sendStatusUpdateToClient ws.

Definition removeClient (ws : Z) : M unit :=
  fun w => (Ret tt, set_clients (filter (fun c => c ≠ ws) (clients w)) w).

Definition updateBotStatus (botId : Z) (status : BotStatus) : M unit :=
  storage_updateBot botId (partial_status status) ;;
  broadcastUpdate.

Definition updateBotMetrics (botId : Z) (metrics : PartialBot) : M unit :=
  try_catch
    (storage_updateBot botId metrics ;; mret tt)
    (fun error => mret tt).

(** [setInterval] registers the sampler of the bot; its first tick is a
    minute away, a timer callback of its own that runs in no method of the
    manager. *)
Definition setupBotMetricsCollection (botId : Z) (client : Client) : M unit :=
  fun w => (Ret tt, advance (EvSetInterval botId client 60000) w).

(** The four listeners [startBot] registers on the client. *)
Definition onReady (botId : Z) (botData : Bot) (client : Client) : M unit :=
  updateBotStatus botId ONLINE ;;
  createLog {| il_botId := Some botId; il_level := Some "info";
               il_message := "Bot " +:+ bot_name botData +:+ " is now online" |} ;;
  setupBotMetricsCollection botId client.

Definition onError (botId : Z) (botData : Bot) (message : string) : M unit :=
  createLog {| il_botId := Some botId; il_level := Some "error";
               il_message := "Discord error: " +:+ message |} ;;
  updateBotStatus botId WARNING.

Definition onDisconnect (botId : Z) (botData : Bot) : M unit :=
  createLog {| il_botId := Some botId; il_level := Some "warning";
               il_message := "Bot " +:+ bot_name botData +:+ " disconnected" |} ;;
  updateBotStatus botId WARNING.

Definition onReconnecting (botId : Z) (botData : Bot) : M unit :=
  createLog {| il_botId := Some botId; il_level := Some "info";
               il_message := "Bot " +:+ bot_name botData +:+ " is reconnecting" |}.

(** The emitter calls the listener of the event.  The listeners are async
    functions whose promise the emitter drops: a rejection would not reach
    the code that awaits [login].  An emission after [login] has settled
    runs the same listener, in a turn of its own. *)
Definition emit (botId : Z) (botData : Bot) (client : Client)
    (ev : ClientEvent) : M unit :=
  try_catch
    (match ev with
     | EmReady => onReady botId botData client
     | EmError message => onError botId botData message
     | EmDisconnect => onDisconnect botId botData
     | EmReconnecting => onReconnecting botId botData
     end)
    (fun rejection => mret tt).

(** The branch of [startBot] taken when [!botData?.token] holds. *)
Definition token_not_found (botId : Z) : M bool :=
  createLog {| il_botId := Some botId; il_level := Some "error";
               il_message := "Bot token not found" |} ;;
  mret false.

(** Between [new Client] and [login] the method registers the listeners
    ([once] for ['ready'], [on] for the three others); the only await after
    that is the one of [login], so it is there that they run, once for each
    emission of the client, before the promise settles. *)
Definition startBot (botId : Z) : M bool :=
  try_catch
    (botData ← storage_getBot botId;
     match botData with
     | None => token_not_found botId
     | Some bd =>
         if negb (str_truthy (bot_token bd)) then token_not_found botId
         else
           has ← botProcesses_has botId;
           if has : bool then
             createLog {| il_botId := Some botId; il_level := Some "warning";
                          il_message := "Bot is already running" |} ;;
             mret true
           else
             let templateType := str_or (bot_botType bd) "simple" in
             client ← match botTemplates !! templateType with
                      | Some intents => new_Client botId intents
                      | None => new_Client botId [Guilds; GuildMessages]
                      end;
             emitted ← client_emits botId client;
             for_of (once_ready false emitted) (emit botId bd client) ;;
             client_login botId client (bot_token bd) ;;
             now ← new_Date;
             botProcesses_set botId
               {| bp_botId := botId; bp_discordClient := Some client;
                  bp_status := ONLINE; bp_startTime := Some now;
                  bp_pid := Some (env_pid E); bp_memory := Some 100 |} ;;
             mret true
     end)
    (fun error =>
       createLog {| il_botId := Some botId; il_level := Some "error";
                    il_message := "Failed to start: " +:+ error_message error |} ;;
       mret false).

Definition stopBot (botId : Z) : M bool :=
  botProcess ← botProcesses_get botId;
  match botProcess with
  | None => mret false
  | Some bp =>
      try_catch
        (match bp_discordClient bp with
         | Some c => client_destroy botId c
         | None => mret tt
         end ;;
         botProcesses_delete botId ;;
         updateBotStatus botId OFFLINE ;;
         mret true)
        (fun error =>
           createLog {| il_botId := Some botId; il_level := Some "error";
                        il_message := "Failed to stop: " +:+ error_message error |} ;;
           mret false)
  end.

Definition restartBot (botId : Z) : M bool :=
  stopBot botId ;;
  startBot botId.

(** The test of the first rule of the ping mechanism on the handle. *)
Definition disconnected (botProcess : option BotProcess) : bool :=
  match botProcess with
  | None => true
  | Some bp =>
      bool_decide (bp_status bp = WARNING) || bool_decide (bp_status bp = OFFLINE)
  end.

(** The loop over the bots in [initializePingMechanism] has a body of three
    [if] statements, all three on the handle read at the top of the body.

    First: the bot should be running but has no handle, or a handle that is
    not ONLINE. *)
Definition reconnectIfDisconnected (bot : Bot)
    (botProcess : option BotProcess) : M unit :=
  if bot_isRunning bot && disconnected botProcess then
    createLog {| il_botId := Some (bot_id bot); il_level := Some "warning";
                 il_message := "Ping mechanism detected bot offline. Attempting automatic reconnection." |} ;;
    try_catch
      (restartBot (bot_id bot) ;;
       createLog {| il_botId := Some (bot_id bot); il_level := Some "success";
                    il_message := "Bot successfully reconnected by auto-recovery system." |})
      (fun restartError =>
         try_catch
           (stopBot (bot_id bot) ;;
            delay 2000 ;;
            startBot (bot_id bot) ;;
            createLog {| il_botId := Some (bot_id bot); il_level := Some "success";
                         il_message := "Bot recovered after full stop/start cycle." |})
           (fun recoveryError =>
              createLog {| il_botId := Some (bot_id bot); il_level := Some "error";
                           il_message := "Failed to recover bot after multiple attempts. Manual intervention may be required." |}))
  else mret tt.

(** Second: the handle is ONLINE but the record says not running. *)
Definition correctStoredStatus (bot : Bot)
    (botProcess : option BotProcess) : M unit :=
  match botProcess with
  | Some bp =>
      if bool_decide (bp_status bp = ONLINE) && negb (bot_isRunning bot) then
        updateBotStatus (bot_id bot) ONLINE ;;
        updateBotMetrics (bot_id bot) (partial_isRunning true) ;;
        createLog {| il_botId := Some (bot_id bot); il_level := Some "info";
                     il_message := "Ping mechanism corrected bot status to online." |}
      else mret tt
  | None => mret tt
  end.

(** Third: the health of the connection of an ONLINE handle. *)
Definition checkProcessHealth (bot : Bot)
    (botProcess : option BotProcess) : M unit :=
  match botProcess with
  | Some bp =>
      match bp_discordClient bp with
      | Some c =>
          if bool_decide (bp_status bp = ONLINE) then
            ping ← client_ws_ping (bot_id bot) c;
            let isHealthy := negb (Z.eqb ping (-1)) in
            if negb isHealthy then restartBot (bot_id bot) ;; mret tt
            else mret tt
          else mret tt
      | None => mret tt
      end
  | None => mret tt
  end.

Definition pingMechanismBot (bot : Bot) : M unit :=
  botProcess ← botProcesses_get (bot_id bot);
  reconnectIfDisconnected bot botProcess ;;
  correctStoredStatus bot botProcess ;;
  checkProcessHealth bot botProcess.

(** The callback [initializePingMechanism] hands to [setInterval]: one
    reconciliation tick. *)
Definition pingMechanismTick : M unit :=
  try_catch
    (bots ← storage_getAllBots;
     for_of bots pingMechanismBot ;;
     broadcastUpdate)
    (fun error => mret tt).

End BotManager.

(** ** Vocabulary of the statements *)

(** The snapshot a status update carries. *)
Definition snapshot (w : World) : Payload :=
  StatusUpdate (Storage.getAllBots (storage w))
               (Storage.getLatestMetrics (storage w)).

(** The world after [n] more interactions that left the events [evs]
    (newest first) and changed nothing else. *)
Definition bump (n : nat) (evs : list Event) (w : World) : World :=
  {| storage := storage w; botProcesses := botProcesses w;
     clients := clients w; clock := n + clock w;
     nextClient := nextClient w; trace := evs ++ trace w |}.

(** [ev] is an attempt to send [p] to [ws], successful or not. *)
Definition send_attempt (p : Payload) (ws : Z) (ev : Event) : Prop :=
  ∃ ok, ev = EvSend ws p ok.

(** A computation that never throws. *)
Definition total {A} (m : M A) : Prop :=
  ∀ w, ∃ a, fst (m w) = Ret a.

(** A computation whose every run, returning or throwing, relates the state
    before to the state after. *)
Definition preserves (R : World → World → Prop) {A} (m : M A) : Prop :=
  ∀ w, R w (snd (m w)).

(** [ev] is a call on a connection of bot [k]. *)
Definition touches (k : Z) (ev : Event) : Prop :=
  match ev with
  | EvNewClient b _ | EvLogin b _ _ _ | EvDestroy b _ _ => b = k
  | _ => False
  end.

(** The state changed only in what belongs to bot [id]: the subscribers and
    every other bot's handle and record are the same, and the events added
    concern no other bot's connection. *)
Record confined (id : Z) (w w' : World) : Prop := {
  conf_clients : clients w' = clients w;
  conf_procs : ∀ k, k ≠ id → botProcesses w' !! k = botProcesses w !! k;
  conf_bots : ∀ k, k ≠ id →
    Storage.getBot k (storage w') = Storage.getBot k (storage w);
  conf_trace : ∃ evs, trace w' = evs ++ trace w ∧
    Forall (fun ev => ∀ k, touches k ev → k = id) evs
}.

(** The events [evs] contain the creation of a log entry of level error. *)
Definition error_logged (evs : list Event) : Prop :=
  ∃ l, EvLog l ∈ evs ∧ log_level l = "error".

(** Bot [id] has a handle whose status is ONLINE. *)
Definition online_handle (id : Z) (w : World) : Prop :=
  ∃ bp, botProcesses w !! id = Some bp ∧ bp_status bp = ONLINE.

(** The handle of [id], when there is one, is ONLINE. *)
Definition handle_online_if_any (id : Z) (w : World) : Prop :=
  ∀ bp, botProcesses w !! id = Some bp → bp_status bp = ONLINE.

(** The trace only grew. *)
Definition extends (w w' : World) : Prop :=
  ∃ evs, trace w' = evs ++ trace w.

(** Since [w], bot [id] kept the handle it had, or has an ONLINE handle,
    or has none and an error was logged. *)
Definition settled (id : Z) (w w' : World) : Prop :=
  ∃ evs, trace w' = evs ++ trace w ∧
    ((∃ bp, botProcesses w !! id = Some bp ∧ botProcesses w' !! id = Some bp)
     ∨ online_handle id w'
     ∨ (botProcesses w' !! id = None ∧ error_logged evs)).

(** The same, a state without handle being allowed to stay so. *)
Definition steady (id : Z) (w w' : World) : Prop :=
  ∃ evs, trace w' = evs ++ trace w ∧
    (botProcesses w' !! id = botProcesses w !! id
     ∨ online_handle id w'
     ∨ (botProcesses w' !! id = None ∧ error_logged evs)).

(** The handle map is the same and the trace only grew. *)
Definition same_handles (w w' : World) : Prop :=
  botProcesses w' = botProcesses w ∧ extends w w'.

(** Nothing of bot [id] changed: its handle and its record are the same and
    no event added is a call on a connection of [id]. *)
Definition untouched (id : Z) (w w' : World) : Prop :=
  botProcesses w' !! id = botProcesses w !! id ∧
  Storage.getBot id (storage w') = Storage.getBot id (storage w) ∧
  ∃ evs, trace w' = evs ++ trace w ∧ Forall (fun ev => ¬ touches id ev) evs.

(** [ev] is no call on a connection: no client is built, logged in or
    destroyed. *)
Definition quiet (ev : Event) : Prop :=
  match ev with
  | EvNewClient _ _ | EvLogin _ _ _ _ | EvDestroy _ _ _ => False
  | _ => True
  end.

(** The record [b'] is [b], or [b] with the status a listener writes. *)
Definition status_written (b b' : Bot) : Prop :=
  b' = b ∨ b' = spread_bot b (partial_status ONLINE)
  ∨ b' = spread_bot b (partial_status WARNING).

(** What the listeners of a client of bot [id] may have done since [w]:
    they wrote log entries, sent snapshots, registered the sampler and
    wrote the status of the record of [id]; the handle map, the
    subscribers, the other records, the keys and the counter of the bot
    map are the same, and no call was made on a connection. *)
Record listened (id : Z) (w w' : World) : Prop := {
  lis_procs : botProcesses w' = botProcesses w;
  lis_clients : clients w' = clients w;
  lis_next : nextClient w' = nextClient w;
  lis_counter : botCurrentId (storage w') = botCurrentId (storage w);
  lis_keys : JsMap.keys (bots (storage w')) = JsMap.keys (bots (storage w));
  lis_others : ∀ k, k ≠ id →
    Storage.getBot k (storage w') = Storage.getBot k (storage w);
  lis_own :
    match Storage.getBot id (storage w) with
    | Some b => ∃ b', Storage.getBot id (storage w') = Some b' ∧
                      status_written b b'
    | None => Storage.getBot id (storage w') = None
    end;
  lis_trace : ∃ evs, trace w' = evs ++ trace w ∧ Forall quiet evs
}.

(** The store a [Map] keyed by the records' identifiers is: no key twice,
    each record under its own identifier. *)
Definition store_wf (s : MemStorage) : Prop :=
  NoDup (JsMap.keys (bots s)) ∧
  Forall (fun kb => bot_id kb.2 = kb.1) (bots s).

(** The error [stopBot] meets when it destroys the connection of [bp] in
    state [w], if any. *)
Definition destroy_error (E : Env) (id : Z) (bp : BotProcess) (w : World)
  : option string :=
  match bp_discordClient bp with
  | Some c => env_destroy E (clock w) id c
  | None => None
  end.

(** What the second rule of the ping mechanism leaves of bot [id], whose
    handle was [bp]: the record says running and ONLINE, the correction was
    logged, the handle is [bp] still and no call was made on a connection
    of [id]. *)
Definition corrected (id : Z) (bp : BotProcess) (w w' : World) : Prop :=
  ∃ evs bd l,
    trace w' = evs ++ trace w ∧
    Storage.getBot id (storage w') = Some bd ∧
    bot_isRunning bd = true ∧
    bot_status bd = Some "ONLINE" ∧
    EvLog l ∈ evs ∧
    log_level l = "info" ∧
    log_message l = "Ping mechanism corrected bot status to online." ∧
    botProcesses w' !! id = Some bp ∧
    Forall (fun ev => ¬ touches id ev) evs.

(** Since [w], bot [id] came to an ONLINE handle or an error was logged. *)
Definition recovered (id : Z) (w w' : World) : Prop :=
  ∃ evs, trace w' = evs ++ trace w ∧
    (online_handle id w' ∨ error_logged evs).

(** ** Sample data *)

(** The probe's sample when the host is idle and the disk and network
    probes fell back to zero. *)
Definition idle_sample : InsertMetric :=
  {| im_cpuUsage := Some 0; im_memoryUsage := Some 512;
     im_memoryTotal := Some 2048; im_diskUsage := Some 0;
     im_diskTotal := Some 0; im_networkUsage := Some 0 |}.


Definition sample_bot (id : Z) (token : string) (running : bool)
    (status : string) : Bot :=
  {| bot_id := id; bot_name := "DJ Bot"; bot_token := token;
     bot_prefix := "!"; bot_userId := 2; bot_isRunning := running;
     bot_memory := Some 94; bot_uptime := Some 0;
     bot_serverCount := Some 18; bot_commandCount := Some 15;
     bot_lastStarted := None; bot_botType := Some "MUSIC";
     bot_iconType := Some "music"; bot_status := Some status;
     bot_permissions := Some "36700160"; bot_inviteConfig := Some "{}" |}.

Definition sample_store (b : Bot) : MemStorage :=
  {| bots := [(bot_id b, b)]; logs := []; metricsHistory := [];
     botCurrentId := bot_id b + 1; logCurrentId := 1;
     metricsCurrentId := 1 |}.

Definition sample_client : Client :=
  {| client_no := 0; client_intents := publicIntents ++ [GuildVoiceStates] |}.

Definition sample_handle (id : Z) : BotProcess :=
  {| bp_botId := id; bp_discordClient := Some sample_client;
     bp_status := ONLINE; bp_startTime := Some 0; bp_pid := Some 4242;
     bp_memory := Some 100 |}.

(** One bot, with or without a handle, and the given subscribers. *)
Definition sample_world (b : Bot) (handle : bool) (subscribers : list Z)
  : World :=
  {| storage := sample_store b;
     botProcesses := if handle then {[ bot_id b := sample_handle (bot_id b) ]}
                     else ∅;
     clients := subscribers; clock := 0; nextClient := 1; trace := [] |}.

(** Every call on the outside succeeds, every connection answers, every
    socket is open. *)
Definition env_calm : Env :=
  {| env_now := fun n => Z.of_nat n;
     env_login := fun _ _ _ _ => None;
     env_emits := fun _ _ _ => [];
     env_destroy := fun _ _ _ => None;
     env_ping := fun _ _ _ => 42;
     env_readyState := fun _ _ => 1;
     env_send := fun _ _ _ => None;
     env_pid := 4242 |}.

(** [client.destroy()] rejects. *)
Definition env_destroy_throws : Env :=
  {| env_now := fun n => Z.of_nat n;
     env_login := fun _ _ _ _ => None;
     env_emits := fun _ _ _ => [];
     env_destroy := fun _ _ _ => Some "socket hang up";
     env_ping := fun _ _ _ => 42;
     env_readyState := fun _ _ => 1;
     env_send := fun _ _ _ => None;
     env_pid := 4242 |}.

(** No heartbeat was acknowledged yet: [client.ws.ping] is -1. *)
Definition env_no_heartbeat : Env :=
  {| env_now := fun n => Z.of_nat n;
     env_login := fun _ _ _ _ => None;
     env_emits := fun _ _ _ => [];
     env_destroy := fun _ _ _ => None;
     env_ping := fun _ _ _ => -1;
     env_readyState := fun _ _ => 1;
     env_send := fun _ _ _ => None;
     env_pid := 4242 |}.

(** The socket of subscriber 2 is CLOSED (readyState 3), the others are
    OPEN. *)
Definition env_second_closed : Env :=
  {| env_now := fun n => Z.of_nat n;
     env_login := fun _ _ _ _ => None;
     env_emits := fun _ _ _ => [];
     env_destroy := fun _ _ _ => None;
     env_ping := fun _ _ _ => 42;
     env_readyState := fun _ ws => if Z.eqb ws 2 then 3 else 1;
     env_send := fun _ _ _ => None;
     env_pid := 4242 |}.

(** * The rest of the storage, of the manager, and their callers *)


(** [arr.slice(start)]: a negative [start] counts from the end, and both
    ends are clamped to the array. *)
Definition js_slice {A} (start : Z) (l : list A) : list A :=
  if Z.ltb start 0
  then drop (Z.to_nat (Z.max (Z.of_nat (length l) + start) 0)) l
  else drop (Z.to_nat (Z.min start (Z.of_nat (length l)))) l.

(** [s || null] on a string that may be absent. *)
Definition str_or_null (o : option string) : option string :=
  match o with
  | Some s => if str_truthy s then Some s else None
  | None => None
  end.

(** [z.infer<typeof insertBotSchema>] *)
Record AdditionalFile := {
  file_name : string;
  file_content : string
}.

Record InsertBot := {
  ib_name : string;
  ib_token : string;
  ib_prefix : option string;
  ib_userId : Z;
  ib_botType : option string;
  ib_iconType : option string;
  ib_scriptContent : option string;
  ib_scriptFileName : option string;
  ib_description : option string;
  ib_permissions : option string;
  ib_inviteConfig : option string;
  ib_additionalFiles : option (list AdditionalFile)
}.

(** [interface InviteConfig] *)
Record InviteConfig := {
  ic_scopes : list string;
  ic_permissions : list string;
  ic_redirectUri : option string;
  ic_description : option string
}.

(** [typeof users.$inferSelect] and its insert shape. *)
Record User := {
  user_id : Z;
  user_username : string;
  user_password : string;
  user_role : string
}.

Record InsertUser := {
  iu_username : string;
  iu_password : string;
  iu_role : option string
}.

(** The two fields of [MemStorage] that hold the users; they are disjoint
    from the fields the bot operations use. *)
Record UserTable := {
  users : list (Z * User);
  userCurrentId : Z
}.

Module JsMapMore.
Section JsMapMore.
Context {V : Type}.

(** [map.delete(k)]: whether the key was there, and the map without it. *)
Definition delete (k : Z) (m : list (Z * V)) : bool * list (Z * V) :=
  (bool_decide (is_Some (JsMap.get k m)),
   filter (fun kv => kv.1 ≠ k) m).

End JsMapMore.
End JsMapMore.

Module StorageMore.

Definition getUser (id : Z) (t : UserTable) : option User :=
  JsMap.get id (users t).

(** [Array.from(this.users.values()).find(...)]: the first match in
    insertion order. *)
Definition getUserByUsername (username : string) (t : UserTable)
  : option User :=
  List.find (fun user => String.eqb (user_username user) username)
            (JsMap.values (users t)).

Definition createUser (insertUser : InsertUser) (t : UserTable)
  : User * UserTable :=
  let id := userCurrentId t in
  let user := {| user_id := id;
                 user_username := iu_username insertUser;
                 user_password := iu_password insertUser;
                 user_role := str_or (iu_role insertUser) "user" |} in
  (user, {| users := JsMap.set id user (users t);
            userCurrentId := id + 1 |}).

(** The users [initializeDefaultData] creates on the empty table. *)
Definition initialUsers : UserTable :=
  let ownerUser := {| user_id := 1; user_username := "owner";
                      user_password := "botmaster2025";
                      user_role := "owner" |} in
  let adminUser := {| user_id := 2; user_username := "admin";
                      user_password := "admin2025";
                      user_role := "admin" |} in
  {| users := JsMap.set 2 adminUser (JsMap.set 1 ownerUser []);
     userCurrentId := 3 |}.

Definition getBotsByUserId (userId : Z) (s : MemStorage) : list Bot :=
  filter (fun bot => bot_userId bot = userId) (JsMap.values (bots s)).

(** The default permissions and invite configuration [createBot] picks
    for a bot type. *)
Definition defaultsFor (botType : option string) : string * InviteConfig :=
  if decide (botType = Some "MUSIC") then
    ("36700160",
     {| ic_scopes := ["bot"; "applications.commands"];
        ic_permissions := ["CONNECT"; "SPEAK"; "SEND_MESSAGES"; "EMBED_LINKS"];
        ic_redirectUri := None;
        ic_description := Some "A music bot for your Discord server" |})
  else if decide (botType = Some "MODERATION") then
    ("1099511627775",
     {| ic_scopes := ["bot"; "applications.commands"];
        ic_permissions := ["ADMINISTRATOR"; "MANAGE_GUILD"; "KICK_MEMBERS";
                           "BAN_MEMBERS"];
        ic_redirectUri := None;
        ic_description := Some "A powerful moderation bot" |})
  else if decide (botType = Some "GAMING") then
    ("297273408",
     {| ic_scopes := ["bot"; "applications.commands"];
        ic_permissions := ["SEND_MESSAGES"; "READ_MESSAGE_HISTORY";
                           "ADD_REACTIONS"; "EMBED_LINKS"];
        ic_redirectUri := None;
        ic_description := Some "A gaming bot for your Discord server" |})
  else
    ("268435456",
     {| ic_scopes := ["bot"; "applications.commands"];
        ic_permissions := ["SEND_MESSAGES"; "READ_MESSAGE_HISTORY"];
        ic_redirectUri := None;
        ic_description := Some "A Discord bot" |}).

(** [stringify] is [JSON.stringify] on invite configurations.  The keys of
    the insert shape that are no columns of [Bot] (script, description,
    files), which the spread copies into the stored object, are read by no
    code of the server and are not kept. *)
Definition createBot (stringify : InviteConfig -> string)
    (insertBot : InsertBot) (s : MemStorage) : Bot * MemStorage :=
  let id := botCurrentId s in
  let defaultPermissions := fst (defaultsFor (ib_botType insertBot)) in
  let defaultInviteConfig := snd (defaultsFor (ib_botType insertBot)) in
  let bot := {| bot_id := id;
                bot_name := ib_name insertBot;
                bot_token := ib_token insertBot;
                bot_prefix := str_or (ib_prefix insertBot) "!";
                bot_userId := ib_userId insertBot;
                bot_isRunning := false;
                bot_memory := Some 0;
                bot_uptime := Some 0;
                bot_serverCount := Some 0;
                bot_commandCount := Some 0;
                bot_lastStarted := None;
                bot_botType := str_or_null (ib_botType insertBot);
                bot_iconType := str_or_null (ib_iconType insertBot);
                bot_status := Some "OFFLINE";
                bot_permissions :=
                  Some (str_or (ib_permissions insertBot) defaultPermissions);
                bot_inviteConfig :=
                  Some (str_or (ib_inviteConfig insertBot)
                               (stringify defaultInviteConfig)) |} in
  (bot,
   {| bots := JsMap.set id bot (bots s);
      logs := logs s;
      metricsHistory := metricsHistory s;
      botCurrentId := id + 1;
      logCurrentId := logCurrentId s;
      metricsCurrentId := metricsCurrentId s |}).

Definition deleteBot (id : Z) (s : MemStorage) : bool * MemStorage :=
  let r := JsMapMore.delete id (bots s) in
  (fst r,
   {| bots := snd r;
      logs := logs s;
      metricsHistory := metricsHistory s;
      botCurrentId := botCurrentId s;
      logCurrentId := logCurrentId s;
      metricsCurrentId := metricsCurrentId s |}).

Definition getLogs (limit : Z) (s : MemStorage) : list Log :=
  reverse (js_slice (- limit) (logs s)).

Definition getLogsByBotId (botId : Z) (limit : Z) (s : MemStorage)
  : list Log :=
  reverse (js_slice (- limit)
             (filter (fun log => log_botId log = Some botId) (logs s))).

(** Any operation of the storage on the bot, log and metric fields, with
    the clock reading it makes if any. *)
Inductive Op :=
| OpCreateBot (b : InsertBot)
| OpUpdateBot (id : Z) (data : PartialBot)
| OpDeleteBot (id : Z)
| OpCreateLog (now : Z) (l : InsertLog)
| OpCreateMetrics (now : Z) (m : InsertMetric).

Definition op (stringify : InviteConfig -> string) (o : Op)
    (s : MemStorage) : MemStorage :=
  match o with
  | OpCreateBot b => snd (createBot stringify b s)
  | OpUpdateBot id data => snd (Storage.updateBot id data s)
  | OpDeleteBot id => snd (deleteBot id s)
  | OpCreateLog now l => snd (Storage.createLog now l s)
  | OpCreateMetrics now m => snd (Storage.createMetrics now m s)
  end.

Definition ops (stringify : InviteConfig -> string) (os : list Op)
    (s : MemStorage) : MemStorage :=
  foldl (fun s o => op stringify o s) s os.

End StorageMore.

(** ** The verification service *)

Module VerificationService.

Record VerificationRecord := {
  vr_code : string;
  vr_email : string;
  vr_expiresAt : Z;
  vr_verified : bool
}.

(** [generateVerificationCode] and [sendVerificationCode] belong to the
    mail service: [code] is the code generated, [expiresAt] the date the
    method computes from the clock, [sent] what the sending returned. *)
Definition createVerification (email code : string) (expiresAt : Z)
    (sent : bool) (records : gmap string VerificationRecord)
  : bool * gmap string VerificationRecord :=
  (sent,
   <[email := {| vr_code := code; vr_email := email;
                 vr_expiresAt := expiresAt; vr_verified := false |}]> records).

(** [now] is the value of [new Date()] at the expiry test. *)
Definition verifyCode (email code : string) (now : Z)
    (records : gmap string VerificationRecord)
  : bool * gmap string VerificationRecord :=
  match records !! email with
  | None => (false, records)
  | Some record =>
      if vr_verified record then (false, records)
      else if Z.ltb (vr_expiresAt record) now
      then (false, delete email records)
      else if negb (String.eqb (vr_code record) code) then (false, records)
      else (true,
            <[email := {| vr_code := vr_code record;
                          vr_email := vr_email record;
                          vr_expiresAt := vr_expiresAt record;
                          vr_verified := true |}]> records)
  end.

Definition isVerified (email : string)
    (records : gmap string VerificationRecord) : bool :=
  match records !! email with
  | Some record => vr_verified record
  | None => false
  end.

Definition clearVerification (email : string)
    (records : gmap string VerificationRecord)
  : gmap string VerificationRecord :=
  delete email records.

(** A call of the service, with what it reads from outside. *)
Inductive Call :=
| CallCreate (email code : string) (expiresAt : Z) (sent : bool)
| CallVerify (email code : string) (now : Z)
| CallClear (email : string).

Definition call (c : Call) (records : gmap string VerificationRecord)
  : gmap string VerificationRecord :=
  match c with
  | CallCreate email code expiresAt sent =>
      snd (createVerification email code expiresAt sent records)
  | CallVerify email code now => snd (verifyCode email code now records)
  | CallClear email => clearVerification email records
  end.

End VerificationService.

(** ** The remaining methods of BotManager *)

Section BotManagerMore.

Variable E : Env.

(** [JSON.stringify] on invite configurations. *)
Variable stringify : InviteConfig -> string.

Definition storage_createBot (data : InsertBot) : M Bot :=
  fun w =>
    let r := StorageMore.createBot stringify data (storage w) in
    (Ret (fst r), set_storage (snd r) w).

Definition storage_deleteBot (id : Z) : M bool :=
  fun w =>
    let r := StorageMore.deleteBot id (storage w) in
    (Ret (fst r), set_storage (snd r) w).

(** [data.additionalFiles && data.additionalFiles.length > 0] *)
Definition additionalFiles (data : InsertBot) : list AdditionalFile :=
  default [] (ib_additionalFiles data).

Definition createBot (data : InsertBot) : M (option Bot) :=
  try_catch
    ((if bool_decide (additionalFiles data ≠ []) then
        let fileNames :=
          String.concat ", " (map file_name (additionalFiles data)) in
        createLog E {| il_botId := Some (-1); il_level := Some "info";
                       il_message := "Received additional files: " +:+ fileNames |}
      else mret tt) ;;
     bot ← storage_createBot data;
     (if bool_decide (additionalFiles data ≠ []) then
        createLog E {| il_botId := Some (bot_id bot); il_level := Some "info";
                       il_message := "Bot created with " +:+
                         pretty (length (additionalFiles data)) +:+
                         " additional files" |}
      else mret tt) ;;
     (if str_truthy (ib_token data) then startBot E (bot_id bot) ;; mret tt
      else mret tt) ;;
     mret (Some bot))
    (fun error => mret None).

(** The filter of [recoverRunningBots]. *)
Definition shouldRecover (bot : Bot) : bool :=
  bot_isRunning bot || bool_decide (bot_status bot = Some "ONLINE").

(** The body of the loop of [recoverRunningBots]. *)
Definition recoverBot (bot : Bot) : M unit :=
  try_catch
    (startBot E (bot_id bot) ;;
     createLog E {| il_botId := Some (bot_id bot); il_level := Some "info";
                    il_message := "Bot automatically recovered after system restart." |})
    (fun error =>
       createLog E {| il_botId := Some (bot_id bot); il_level := Some "error";
                      il_message := "Failed to automatically recover bot after restart." |}).

Definition recoverRunningBots : M unit :=
  try_catch
    (bots ← storage_getAllBots;
     let runningBots := List.filter shouldRecover bots in
     if Nat.eqb (length runningBots) 0 then mret tt
     else for_of runningBots recoverBot)
    (fun error => mret tt).

(** ** server/routes.ts: the handlers that call the manager *)

(** What a handler answers: the status and the JSON body. *)
Inductive Body :=
| JsonMessage (message : string)
| JsonBot (bot : Bot)
| JsonUser (id : Z) (username role : string)
| NoBody.

Record Response := {
  res_status : Z;
  res_body : Body
}.

(** The body of PUT /api/bots/:id after [updateSchema.safeParse]. *)
Record UpdateData := {
  ud_name : option string;
  ud_token : option string;
  ud_prefix : option string;
  ud_botType : option string;
  ud_iconType : option string
}.

Definition partial_of_update (d : UpdateData) : PartialBot :=
  {| p_id := None; p_name := ud_name d; p_token := ud_token d;
     p_prefix := ud_prefix d; p_userId := None; p_isRunning := None;
     p_memory := None; p_uptime := None; p_serverCount := None;
     p_commandCount := None; p_lastStarted := None;
     p_botType := Some <$> ud_botType d;
     p_iconType := Some <$> ud_iconType d;
     p_status := None; p_permissions := None; p_inviteConfig := None |}.

(** In the handlers, [botId] is [parseInt(req.params.id)], [None] when it
    is NaN, and a body is [None] when [safeParse] rejects it. *)

(** POST /api/bots *)
Definition route_createBot (botData : option InsertBot) : M Response :=
  try_catch
    (match botData with
     | None => mret {| res_status := 400;
                       res_body := JsonMessage "Invalid bot data" |}
     | Some data =>
         bot ← createBot data;
         match bot with
         | None => mret {| res_status := 500;
                           res_body := JsonMessage "Failed to create bot" |}
         | Some b => mret {| res_status := 201; res_body := JsonBot b |}
         end
     end)
    (fun error => mret {| res_status := 500;
                          res_body := JsonMessage "Server error creating bot" |}).

(** PUT /api/bots/:id *)
Definition route_updateBot (botId : option Z) (updateData : option UpdateData)
  : M Response :=
  try_catch
    (match botId with
     | None => mret {| res_status := 400;
                       res_body := JsonMessage "Invalid bot ID" |}
     | Some id =>
         bot ← storage_getBot id;
         match bot with
         | None => mret {| res_status := 404;
                           res_body := JsonMessage "Bot not found" |}
         | Some _ =>
             match updateData with
             | None => mret {| res_status := 400;
                               res_body := JsonMessage "Invalid update data" |}
             | Some data =>
                 updatedBot ← storage_updateBot id (partial_of_update data);
                 match updatedBot with
                 | None => mret {| res_status := 500;
                                   res_body := JsonMessage "Failed to update bot" |}
                 | Some b => mret {| res_status := 200; res_body := JsonBot b |}
                 end
             end
         end
     end)
    (fun error => mret {| res_status := 500;
                          res_body := JsonMessage "Server error updating bot" |}).

(** DELETE /api/bots/:id *)
Definition route_deleteBot (botId : option Z) : M Response :=
  try_catch
    (match botId with
     | None => mret {| res_status := 400;
                       res_body := JsonMessage "Invalid bot ID" |}
     | Some id =>
         stopBot E id ;;
         success ← storage_deleteBot id;
         if success : bool then
           broadcastUpdate E ;;
           mret {| res_status := 204; res_body := NoBody |}
         else mret {| res_status := 404;
                      res_body := JsonMessage "Bot not found or could not be deleted" |}
     end)
    (fun error => mret {| res_status := 500;
                          res_body := JsonMessage "Server error deleting bot" |}).

(** The three handlers POST /api/bots/:id/start, /stop and /restart differ
    in the method they call and in their messages. *)
Definition route_lifecycle (method : Z -> M bool) (failed done error : string)
    (botId : option Z) : M Response :=
  try_catch
    (match botId with
     | None => mret {| res_status := 400;
                       res_body := JsonMessage "Invalid bot ID" |}
     | Some id =>
         success ← method id;
         if success : bool then
           mret {| res_status := 200; res_body := JsonMessage done |}
         else mret {| res_status := 500; res_body := JsonMessage failed |}
     end)
    (fun _ => mret {| res_status := 500; res_body := JsonMessage error |}).

Definition route_startBot : option Z -> M Response :=
  route_lifecycle (startBot E) "Failed to start bot"
    "Bot started successfully" "Server error starting bot".

Definition route_stopBot : option Z -> M Response :=
  route_lifecycle (stopBot E) "Failed to stop bot"
    "Bot stopped successfully" "Server error stopping bot".

Definition route_restartBot : option Z -> M Response :=
  route_lifecycle (restartBot E) "Failed to restart bot"
    "Bot restarted successfully" "Server error restarting bot".

End BotManagerMore.

(** POST /api/auth/register, on the user table; [userData] is [None] when
    [insertUserSchema.safeParse] rejects the body. *)
Definition route_register (userData : option InsertUser) (t : UserTable)
  : Response * UserTable :=
  match userData with
  | None => ({| res_status := 400;
                res_body := JsonMessage "Invalid user data" |}, t)
  | Some data =>
      match StorageMore.getUserByUsername (iu_username data) t with
      | Some _ => ({| res_status := 409;
                      res_body := JsonMessage "Username already exists" |}, t)
      | None =>
          let r := StorageMore.createUser data t in
          ({| res_status := 201;
              res_body := JsonUser (user_id (fst r)) (user_username (fst r))
                                   (user_role (fst r)) |}, snd r)
      end
  end.

(** ** More vocabulary *)

(** Every key of the bot map is below the counter the next bot gets. *)
Definition ids_below_counter (s : MemStorage) : Prop :=
  Forall (fun k => k < botCurrentId s) (JsMap.keys (bots s)).

(** The log identifiers grow along the history and stay below the counter,
    and so do the metric identifiers. *)
Definition ids_increasing (s : MemStorage) : Prop :=
  StronglySorted Z.lt (log_id <$> logs s) ∧
  Forall (fun l => log_id l < logCurrentId s) (logs s) ∧
  StronglySorted Z.lt (m_id <$> metricsHistory s) ∧
  Forall (fun m => m_id m < metricsCurrentId s) (metricsHistory s).

(** No record that said running says otherwise now. *)
Definition running_kept (w w' : World) : Prop :=
  ∀ k b, Storage.getBot k (storage w) = Some b → bot_isRunning b = true →
    ∃ b', Storage.getBot k (storage w') = Some b' ∧ bot_isRunning b' = true.

(** The store stayed a map keyed by the records' identifiers with keys
    below the counter, if it was one. *)
Definition store_kept (w w' : World) : Prop :=
  store_wf (storage w) → ids_below_counter (storage w) →
  store_wf (storage w') ∧ ids_below_counter (storage w').

(** [ev] is the construction of a client for any bot. *)
Definition builds_client (ev : Event) : Prop :=
  match ev with
  | EvNewClient _ _ => True
  | _ => False
  end.

(** The user names of a table are pairwise different. *)
Definition usernames_unique (t : UserTable) : Prop :=
  NoDup (user_username <$> JsMap.values (users t)).

(** An operation that does not write the identifier of a record. *)
Definition keeps_id (o : StorageMore.Op) : Prop :=
  match o with
  | StorageMore.OpUpdateBot _ data => p_id data = None
  | _ => True
  end.

(** Every key of the user map is below the counter the next user gets. *)
Definition user_ids_below_counter (t : UserTable) : Prop :=
  Forall (fun k => k < userCurrentId t) (JsMap.keys (users t)).

(** A sequence of registration requests. *)
Definition registers (reqs : list (option InsertUser)) (t : UserTable)
  : UserTable :=
  foldl (fun t req => snd (route_register req t)) t reqs.

(** The bot records and the bot counter are the same. *)
Definition same_bots (w w' : World) : Prop :=
  bots (storage w') = bots (storage w) ∧
  botCurrentId (storage w') = botCurrentId (storage w).

(** Of the bot records, only the status of the one of [id] may differ:
    the counter and the keys of the bot map and the other records are the
    same, and the record of [id], if there was one, is the same up to the
    status a listener writes. *)
Definition status_only (id : Z) (w w' : World) : Prop :=
  botCurrentId (storage w') = botCurrentId (storage w) ∧
  JsMap.keys (bots (storage w')) = JsMap.keys (bots (storage w)) ∧
  (∀ k, k ≠ id →
     Storage.getBot k (storage w') = Storage.getBot k (storage w)) ∧
  match Storage.getBot id (storage w) with
  | Some b => ∃ b', Storage.getBot id (storage w') = Some b' ∧
                    status_written b b'
  | None => Storage.getBot id (storage w') = None
  end.

(** The intents [startBot] builds the client of a bot with. *)
Definition intentsFor (bd : Bot) : list GatewayIntentBits :=
  match botTemplates !! str_or (bot_botType bd) "simple" with
  | Some intents => intents
  | None => [Guilds; GuildMessages]
  end.

(** The state of a socket does not change with time. *)
Definition steady_sockets (E : Env) : Prop :=
  ∀ n n' ws, env_readyState E n ws = env_readyState E n' ws.

(** Socket [ws] is open. *)
Definition socket_open (E : Env) (ws : Z) : Prop :=
  env_readyState E 0 ws = WebSocket_OPEN.

#[global] Instance socket_open_dec E ws : Decision (socket_open E ws).
Proof. unfold socket_open. apply _. Defined.

(** ** Further sample data *)

(** The socket of subscriber 1 is CLOSED, the others are OPEN, and every
    send throws. *)
Definition env_send_throws : Env :=
  {| env_now := fun n => Z.of_nat n;
     env_login := fun _ _ _ _ => None;
     env_emits := fun _ _ _ => [];
     env_destroy := fun _ _ _ => None;
     env_ping := fun _ _ _ => 42;
     env_readyState := fun _ ws => if Z.eqb ws 1 then 3 else 1;
     env_send := fun _ _ _ => Some "EPIPE";
     env_pid := 4242 |}.

(** Every client emits ['ready'] while its login is awaited, and the
    login is accepted. *)
Definition env_ready : Env :=
  {| env_now := fun n => Z.of_nat n;
     env_login := fun _ _ _ _ => None;
     env_emits := fun _ _ _ => [EmReady];
     env_destroy := fun _ _ _ => None;
     env_ping := fun _ _ _ => 42;
     env_readyState := fun _ _ => 1;
     env_send := fun _ _ _ => None;
     env_pid := 4242 |}.

(** A request body for POST /api/bots. *)
Definition sample_insert (token : string) : InsertBot :=
  {| ib_name := "Mod Bot"; ib_token := token; ib_prefix := None;
     ib_userId := 2; ib_botType := Some "MODERATION";
     ib_iconType := None; ib_scriptContent := None;
     ib_scriptFileName := None; ib_description := None;
     ib_permissions := None; ib_inviteConfig := None;
     ib_additionalFiles := None |}.

(** A request body for PUT /api/bots/:id that empties the token. *)
Definition sample_update : UpdateData :=
  {| ud_name := None; ud_token := Some ""; ud_prefix := None;
     ud_botType := None; ud_iconType := None |}.

(** * Properties of the storage *)

Section SliceLast.
Context {A : Type}.
Implicit Types l k : list A.

Lemma slice_last_length n l : (length (slice_last n l) ≤ n)%nat.
Proof. unfold slice_last. rewrite length_drop. lia. Qed.

Lemma slice_last_short n l : (length l ≤ n)%nat → slice_last n l = l.
Proof.
  intros H. unfold slice_last.
  replace (length l - n)%nat with 0%nat by lia. done.
Qed.

Lemma slice_last_suffix n l : slice_last n l `suffix_of` l.
Proof. unfold slice_last. apply suffix_drop. Qed.

(** Trimming, appending and trimming again is trimming once. *)
Lemma slice_last_app n l k :
  slice_last n (slice_last n l ++ k) = slice_last n (l ++ k).
Proof.
  destruct (decide (length l ≤ n)%nat) as [Hle|Hgt].
  - by rewrite (slice_last_short n l).
  - unfold slice_last. rewrite !length_app, length_drop.
    rewrite <- (drop_app_le l k (length l - n)) by lia.
    rewrite drop_drop. f_equal. lia.
Qed.

(** The conditional trim of the source is an unconditional one. *)
Lemma trim_if n l :
  (if Nat.ltb n (length l) then slice_last n l else l) = slice_last n l.
Proof.
  destruct (Nat.ltb_spec n (length l)); [done|].
  by rewrite slice_last_short by lia.
Qed.

End SliceLast.

Module StorageFacts.
Import Storage.

Lemma createLog_logs now l s :
  logs (snd (createLog now l s)) =
  slice_last 1000 (logs s ++ [fst (createLog now l s)]).
Proof. unfold createLog, createMetrics. cbn [snd fst logs metricsHistory]. apply trim_if. Qed.

Lemma createMetrics_history now m s :
  metricsHistory (snd (createMetrics now m s)) =
  slice_last 100 (metricsHistory s ++ [fst (createMetrics now m s)]).
Proof. unfold createLog, createMetrics. cbn [snd fst logs metricsHistory]. apply trim_if. Qed.

Lemma call_logs c s :
  logs (call c s) = slice_last 1000 (logs s ++ call_log c s) ∨
  (call_log c s = [] ∧ logs (call c s) = logs s).
Proof.
  destruct c; [left; apply createLog_logs | right; done].
Qed.

Lemma call_metrics c s :
  metricsHistory (call c s) =
    slice_last 100 (metricsHistory s ++ call_metric c s) ∨
  (call_metric c s = [] ∧ metricsHistory (call c s) = metricsHistory s).
Proof.
  destruct c; [right; done | left; apply createMetrics_history].
Qed.

Lemma calls_logs cs s :
  (length (logs s) ≤ 1000)%nat →
  logs (calls cs s) = slice_last 1000 (logs s ++ created_logs cs s).
Proof.
  revert s. induction cs as [|c cs IH]; intros s Hs; cbn [calls foldl created_logs].
  - rewrite app_nil_r. by rewrite slice_last_short.
  - fold (calls cs (call c s)).
    destruct (call_logs c s) as [Hc|[Hnil Hc]].
    + rewrite IH by (rewrite Hc; apply slice_last_length).
      rewrite Hc, slice_last_app. by rewrite <- app_assoc.
    + rewrite IH by (by rewrite Hc). by rewrite Hc, Hnil.
Qed.

Lemma calls_metrics cs s :
  (length (metricsHistory s) ≤ 100)%nat →
  metricsHistory (calls cs s) =
  slice_last 100 (metricsHistory s ++ created_metrics cs s).
Proof.
  revert s. induction cs as [|c cs IH]; intros s Hs; cbn [calls foldl created_metrics].
  - rewrite app_nil_r. by rewrite slice_last_short.
  - fold (calls cs (call c s)).
    destruct (call_metrics c s) as [Hc|[Hnil Hc]].
    + rewrite IH by (rewrite Hc; apply slice_last_length).
      rewrite Hc, slice_last_app. by rewrite <- app_assoc.
    + rewrite IH by (by rewrite Hc). by rewrite Hc, Hnil.
Qed.

(** One call is enough to bring a history under its cap, whatever the
    store was. *)
Lemma createLog_length now l s :
  (length (logs (snd (createLog now l s))) ≤ 1000)%nat.
Proof. rewrite createLog_logs. apply slice_last_length. Qed.

Lemma createMetrics_length now m s :
  (length (metricsHistory (snd (createMetrics now m s))) ≤ 100)%nat.
Proof. rewrite createMetrics_history. apply slice_last_length. Qed.

(** From a store within the caps, any sequence of calls stays within them
    and keeps the newest end of each history. *)
Lemma calls_within_caps (cs : list Call) (s : MemStorage) :
  (length (metricsHistory s) ≤ 100)%nat →
  (length (logs s) ≤ 1000)%nat →
  (length (metricsHistory (calls cs s)) ≤ 100)%nat ∧
  (length (logs (calls cs s)) ≤ 1000)%nat ∧
  metricsHistory (calls cs s) =
    slice_last 100 (metricsHistory s ++ created_metrics cs s) ∧
  logs (calls cs s) = slice_last 1000 (logs s ++ created_logs cs s).
Proof.
  intros Hm Hl.
  rewrite (calls_metrics cs s Hm), (calls_logs cs s Hl).
  repeat split; apply slice_last_length.
Qed.

Lemma initializeDefaultData_within_caps cfg1 cfg2 t1 t2 t3 :
  (length (metricsHistory (initializeDefaultData cfg1 cfg2 t1 t2 t3)) ≤ 100)%nat ∧
  (length (logs (initializeDefaultData cfg1 cfg2 t1 t2 t3)) ≤ 1000)%nat.
Proof. cbn. lia. Qed.

(** C9.  After any sequence of [createLog] and [createMetrics] calls on the
    store the constructor built -- hence after each call of a sequence, a
    prefix being a sequence -- the metric history holds at most 100 samples
    and the log history at most 1000 entries, and each history is the most
    recent end of everything that was ever appended to it: what was
    evicted is the oldest. *)
Theorem histories_capped_keep_newest (cfg1 cfg2 : string) (t1 t2 t3 : Z)
    (cs : list Call) :
  let s0 := initializeDefaultData cfg1 cfg2 t1 t2 t3 in
  (length (metricsHistory (calls cs s0)) ≤ 100)%nat ∧
  (length (logs (calls cs s0)) ≤ 1000)%nat ∧
  metricsHistory (calls cs s0) =
    slice_last 100 (metricsHistory s0 ++ created_metrics cs s0) ∧
  logs (calls cs s0) = slice_last 1000 (logs s0 ++ created_logs cs s0).
Proof.
  intros s0.
  destruct (initializeDefaultData_within_caps cfg1 cfg2 t1 t2 t3) as [Hm Hl].
  by apply calls_within_caps.
Qed.

(** The sample [createMetrics] returns is the one [getLatestMetrics]
    reads next. *)
Lemma createMetrics_then_getLatestMetrics now m s :
  getLatestMetrics (snd (createMetrics now m s)) =
  Some (fst (createMetrics now m s)).
Proof.
  unfold getLatestMetrics. rewrite createMetrics_history.
  set (r := fst (createMetrics now m s)).
  set (h := slice_last 100 (metricsHistory s ++ [r])).
  assert (Hh : ∃ h', h = h' ++ [r]).
  { unfold h, slice_last. rewrite length_app. cbn [length].
    destruct (decide (length (metricsHistory s) + 1 - 100 ≤ length (metricsHistory s))%nat).
    - rewrite drop_app_le by lia. eauto.
    - lia. }
  destruct Hh as [h' ->]. rewrite length_app. cbn [length].
  replace (length h' + 1)%nat with (S (length h')) by lia. cbn [Nat.eqb].
  replace (S (length h') - 1)%nat with (length h' + 0)%nat by lia.
  by rewrite lookup_app_r, Nat.add_comm, Nat.add_sub by lia.
Qed.

(** A field of the inserted sample that is not zero is stored as it is. *)
Lemma num_or_null_nonzero x : x ≠ 0 → num_or_null (Some x) = Some x.
Proof. intros H. unfold num_or_null. by destruct (Z.eqb_spec x 0). Qed.

(** C10.  [createMetrics] followed by [getLatestMetrics] reads back the
    record that was returned, but that record does not carry the zero
    fields of the inserted sample: [x || null] stores them as null. *)
Theorem createMetrics_drops_zero_fields :
  let s := initializeDefaultData "a" "b" 1 2 3 in
  let r := fst (createMetrics 4 idle_sample s) in
  getLatestMetrics (snd (createMetrics 4 idle_sample s)) = Some r ∧
  im_cpuUsage idle_sample = Some 0 ∧ m_cpuUsage r = None ∧
  im_networkUsage idle_sample = Some 0 ∧ m_networkUsage r = None ∧
  m_memoryUsage r = Some 512.
Proof. vm_compute. by repeat split. Qed.

End StorageFacts.

(** * Properties of the lifecycle manager *)

(** Unfolding of the monad and of the collaborators, then of the record
    projections. *)
Ltac mrun :=
  cbv beta iota delta
    [mbind M_bind mret M_ret try_catch
     new_Date storage_getAllBots storage_getBot storage_getLatestMetrics
     storage_updateBot storage_createLog new_Client client_login
     client_emits client_destroy client_ws_ping ws_readyState ws_send delay
     botProcesses_get botProcesses_has botProcesses_set botProcesses_delete
     clients_get createLog token_not_found updateBotStatus updateBotMetrics];
  cbn [storage botProcesses clients clock nextClient trace
       advance observe set_storage set_botProcesses set_clients bump fst snd].

(** Projections of the states the collaborators build. *)
Tactic Notation "wsimpl" :=
  cbn [storage botProcesses clients clock nextClient trace
       advance observe set_storage set_botProcesses set_clients bump fst snd].
Tactic Notation "wsimpl" "in" hyp(H) :=
  cbn [storage botProcesses clients clock nextClient trace
       advance observe set_storage set_botProcesses set_clients bump fst snd]
    in H.

(** ** Rules for [total] and [preserves] *)

Section Rules.

Lemma total_ret {A} (a : A) : total (mret a : M A).
Proof. intros w. by exists a. Qed.

Lemma total_bind {A B} (m : M A) (f : A → M B) :
  total m → (∀ a, total (f a)) → total (m ≫= f).
Proof.
  intros Hm Hf w. destruct (Hm w) as [a Ha].
  unfold mbind, M_bind. destruct (m w) as [[a'|e] w']; cbn in Ha; [|done].
  apply Hf.
Qed.

Lemma total_try_catch {A} (body : M A) (handler : string → M A) :
  (∀ e, total (handler e)) → total (try_catch body handler).
Proof.
  intros Hh w. unfold try_catch.
  destruct (body w) as [[a|e] w']; [by exists a | apply Hh].
Qed.

Lemma total_for_of {A} (xs : list A) (body : A → M unit) :
  (∀ x, total (body x)) → total (for_of xs body).
Proof.
  intros Hb. induction xs as [|x xs IH]; cbn [for_of].
  - apply total_ret.
  - apply total_bind; [apply Hb | intros _; apply IH].
Qed.

Context (R : World → World → Prop) `{!PreOrder R}.

Lemma preserves_ret {A} (a : A) : preserves R (mret a : M A).
Proof. intros w. cbn. reflexivity. Qed.

Lemma preserves_bind {A B} (m : M A) (f : A → M B) :
  preserves R m → (∀ a, preserves R (f a)) → preserves R (m ≫= f).
Proof.
  intros Hm Hf w. specialize (Hm w).
  unfold mbind, M_bind. destruct (m w) as [[a|e] w']; cbn in Hm; [|done].
  etrans; [exact Hm | apply Hf].
Qed.

Lemma preserves_try_catch {A} (body : M A) (handler : string → M A) :
  preserves R body → (∀ e, preserves R (handler e)) →
  preserves R (try_catch body handler).
Proof.
  intros Hb Hh w. specialize (Hb w). unfold try_catch.
  destruct (body w) as [[a|e] w']; cbn in Hb; [done|].
  etrans; [exact Hb | apply Hh].
Qed.

Lemma preserves_for_of {A} (xs : list A) (body : A → M unit) :
  (∀ x, preserves R (body x)) → preserves R (for_of xs body).
Proof.
  intros Hb. induction xs as [|x xs IH]; cbn [for_of].
  - intros w. cbn. reflexivity.
  - intros w. specialize (Hb x w). unfold mbind, M_bind.
    destruct (body x w) as [[[]|e] w']; cbn in Hb; [|done].
    etrans; [exact Hb | apply IH].
Qed.

End Rules.

(** A computation that never throws runs to a returned value. *)
Lemma total_run {A} (m : M A) (w : World) :
  total m → ∃ a w', m w = (Ret a, w').
Proof.
  intros Hm. destruct (Hm w) as [a Ha].
  destruct (m w) as [r w'] eqn:Hr. cbn in Ha. subst r. eauto.
Qed.

#[global] Instance confined_preorder id : PreOrder (confined id).
Proof.
  split.
  - intros w. split; try done. exists []. by split.
  - intros w1 w2 w3 [Hc1 Hp1 Hb1 (e1 & Ht1 & Hf1)] [Hc2 Hp2 Hb2 (e2 & Ht2 & Hf2)].
    split.
    + congruence.
    + intros k Hk. rewrite Hp2, Hp1; done.
    + intros k Hk. rewrite Hb2, Hb1; done.
    + exists (e2 ++ e1). split.
      * rewrite Ht2, Ht1. by rewrite app_assoc.
      * by apply Forall_app.
Qed.

#[global] Instance extends_preorder : PreOrder extends.
Proof.
  split.
  - intros w. by exists [].
  - intros w1 w2 w3 [e1 H1] [e2 H2]. exists (e2 ++ e1).
    rewrite H2, H1. by rewrite app_assoc.
Qed.

(** ** The insertion-ordered map *)

Section JsMapFacts.
Context {V : Type}.
Implicit Types m : list (Z * V).

Lemma JsMap_get_set_eq k v m : JsMap.get k (JsMap.set k v m) = Some v.
Proof.
  induction m as [|[k' v'] m IH]; cbn.
  - by rewrite Z.eqb_refl.
  - destruct (Z.eqb_spec k' k) as [->|Hne]; cbn.
    + by rewrite Z.eqb_refl.
    + by destruct (Z.eqb_spec k' k).
Qed.

Lemma JsMap_get_set_ne k k' v m :
  k ≠ k' → JsMap.get k' (JsMap.set k v m) = JsMap.get k' m.
Proof.
  intros Hne. induction m as [|[k0 v0] m IH]; cbn.
  - by destruct (Z.eqb_spec k k').
  - destruct (Z.eqb_spec k0 k) as [->|Hk]; cbn.
    + by destruct (Z.eqb_spec k k').
    + by rewrite IH.
Qed.

Lemma JsMap_keys_set k v v0 m :
  JsMap.get k m = Some v0 → JsMap.keys (JsMap.set k v m) = JsMap.keys m.
Proof.
  unfold JsMap.keys. induction m as [|[k' v'] m IH]; cbn; [done|].
  destruct (Z.eqb_spec k' k) as [->|Hk]; cbn; [done|].
  intros H. f_equal. by apply IH.
Qed.

Lemma JsMap_get_elem k v m : JsMap.get k m = Some v → (k, v) ∈ m.
Proof.
  induction m as [|[k' v'] m IH]; cbn; [done|].
  destruct (Z.eqb_spec k' k) as [->|Hk].
  - intros [= ->]. left.
  - intros H. right. by apply IH.
Qed.

Lemma JsMap_elem_get k v m :
  NoDup (JsMap.keys m) → (k, v) ∈ m → JsMap.get k m = Some v.
Proof.
  induction m as [|[k' v'] m IH]; cbn.
  - intros _ H. by apply elem_of_nil in H.
  - intros Hnd H. apply NoDup_cons in Hnd as [Hk' Hnd].
    apply elem_of_cons in H as [[= <- <-]|H].
    + by rewrite Z.eqb_refl.
    + destruct (Z.eqb_spec k' k) as [->|Hk]; [|by apply IH].
      exfalso. apply Hk'. unfold JsMap.keys.
      apply list_elem_of_fmap. by exists (k, v).
Qed.

End JsMapFacts.

Section ManagerFacts.

Variable E : Env.

(** ** The collaborators: never throwing, confined to their bot *)

Lemma total_new_Date : total (new_Date E).
Proof. intros w. by eexists. Qed.
Lemma total_storage_getAllBots : total storage_getAllBots.
Proof. intros w. by eexists. Qed.
Lemma total_storage_getBot id : total (storage_getBot id).
Proof. intros w. by eexists. Qed.
Lemma total_storage_getLatestMetrics : total storage_getLatestMetrics.
Proof. intros w. by eexists. Qed.
Lemma total_storage_updateBot id d : total (storage_updateBot id d).
Proof. intros w. by eexists. Qed.
Lemma total_storage_createLog l : total (storage_createLog E l).
Proof. intros w. by eexists. Qed.
Lemma total_new_Client id i : total (new_Client id i).
Proof. intros w. by eexists. Qed.
Lemma total_client_ws_ping id c : total (client_ws_ping E id c).
Proof. intros w. by eexists. Qed.
Lemma total_ws_readyState ws : total (ws_readyState E ws).
Proof. intros w. by eexists. Qed.
Lemma total_delay ms : total (delay ms).
Proof. intros w. by eexists. Qed.
Lemma total_botProcesses_get id : total (botProcesses_get id).
Proof. intros w. by eexists. Qed.
Lemma total_botProcesses_has id : total (botProcesses_has id).
Proof. intros w. by eexists. Qed.
Lemma total_botProcesses_set id bp : total (botProcesses_set id bp).
Proof. intros w. by eexists. Qed.
Lemma total_botProcesses_delete id : total (botProcesses_delete id).
Proof. intros w. by eexists. Qed.
Lemma total_clients_get : total clients_get.
Proof. intros w. by eexists. Qed.
Lemma total_client_emits id c : total (client_emits E id c).
Proof. intros w. by eexists. Qed.
Lemma total_setupBotMetricsCollection id c :
  total (setupBotMetricsCollection id c).
Proof. intros w. by eexists. Qed.

(** A state that differs from [w] in its clock and by the events [evs]. *)
Lemma confined_events id w w' evs :
  storage w' = storage w → botProcesses w' = botProcesses w →
  clients w' = clients w → trace w' = evs ++ trace w →
  Forall (fun ev => ∀ k, touches k ev → k = id) evs →
  confined id w w'.
Proof.
  intros Hs Hp Hc Ht Hf. split; [done| | |by eauto].
  - intros k _. by rewrite Hp.
  - intros k _. by rewrite Hs.
Qed.

Lemma confined_read id {A} (f : World → A) :
  preserves (confined id) (fun w => (Ret (f w), w)).
Proof. intros w. cbn. reflexivity. Qed.

Lemma confined_new_Date id : preserves (confined id) (new_Date E).
Proof. intros w. by apply (confined_events id _ _ []). Qed.

Lemma confined_client_ws_ping id k c :
  preserves (confined id) (client_ws_ping E k c).
Proof. intros w. by apply (confined_events id _ _ []). Qed.

Lemma confined_ws_readyState id ws :
  preserves (confined id) (ws_readyState E ws).
Proof. intros w. by apply (confined_events id _ _ []). Qed.

Lemma confined_storage_createLog id l :
  preserves (confined id) (storage_createLog E l).
Proof.
  intros w. cbn. split; cbn; try done.
  eexists [_]. split; [done|]. by repeat constructor.
Qed.

Lemma confined_storage_updateBot id d :
  preserves (confined id) (storage_updateBot id d).
Proof.
  intros w. cbn. unfold Storage.updateBot, Storage.getBot.
  destruct (JsMap.get id (bots (storage w))) eqn:Hg; cbn.
  - split; cbn; try done.
    + intros k Hk. by apply JsMap_get_set_ne.
    + by exists [].
  - by apply (confined_events id _ _ []).
Qed.

Lemma confined_new_Client id i : preserves (confined id) (new_Client id i).
Proof.
  intros w. eapply (confined_events id _ _ [_]); try done.
  repeat constructor. by intros k <-.
Qed.

Lemma confined_client_login id c t :
  preserves (confined id) (client_login E id c t).
Proof.
  intros w. unfold client_login.
  destruct (env_login _ _ _ _ _); eapply (confined_events id _ _ [_]);
    try done; repeat constructor; by intros k <-.
Qed.

Lemma confined_client_destroy id c :
  preserves (confined id) (client_destroy E id c).
Proof.
  intros w. unfold client_destroy.
  destruct (env_destroy _ _ _ _); eapply (confined_events id _ _ [_]);
    try done; repeat constructor; by intros k <-.
Qed.

Lemma confined_ws_send id ws p : preserves (confined id) (ws_send E ws p).
Proof.
  intros w. unfold ws_send.
  destruct (env_send _ _ _ _); eapply (confined_events id _ _ [_]);
    try done; by repeat constructor.
Qed.

Lemma confined_delay id ms : preserves (confined id) (delay ms).
Proof.
  intros w. eapply (confined_events id _ _ [_]); try done.
  by repeat constructor.
Qed.

Lemma confined_setupBotMetricsCollection id c :
  preserves (confined id) (setupBotMetricsCollection id c).
Proof.
  intros w. eapply (confined_events id _ _ [_]); try done.
  by repeat constructor.
Qed.

Lemma confined_botProcesses_set id bp :
  preserves (confined id) (botProcesses_set id bp).
Proof.
  intros w. split; cbn; try done.
  - intros k Hk. by apply lookup_insert_ne.
  - by exists [].
Qed.

Lemma confined_botProcesses_delete id :
  preserves (confined id) (botProcesses_delete id).
Proof.
  intros w. split; cbn; try done.
  - intros k Hk. by apply lookup_delete_ne.
  - by exists [].
Qed.

End ManagerFacts.

Create HintDb total_db.
Create HintDb confined_db.

#[global] Hint Resolve total_new_Date total_storage_getAllBots
  total_storage_getBot total_storage_getLatestMetrics total_storage_updateBot
  total_storage_createLog total_new_Client total_client_ws_ping
  total_ws_readyState total_delay total_botProcesses_get
  total_botProcesses_has total_botProcesses_set total_botProcesses_delete
  total_clients_get total_client_emits total_setupBotMetricsCollection
  : total_db.

#[global] Hint Resolve confined_new_Date confined_client_ws_ping
  confined_ws_readyState confined_storage_createLog
  confined_storage_updateBot confined_new_Client confined_client_login
  confined_client_destroy confined_ws_send confined_delay
  confined_botProcesses_set confined_botProcesses_delete
  confined_setupBotMetricsCollection : confined_db.

#[global] Hint Extern 1 (preserves (confined _) storage_getAllBots) =>
  apply confined_read : confined_db.
#[global] Hint Extern 1 (preserves (confined _) (storage_getBot _)) =>
  apply confined_read : confined_db.
#[global] Hint Extern 1 (preserves (confined _) storage_getLatestMetrics) =>
  apply confined_read : confined_db.
#[global] Hint Extern 1 (preserves (confined _) (botProcesses_get _)) =>
  apply confined_read : confined_db.
#[global] Hint Extern 1 (preserves (confined _) (botProcesses_has _)) =>
  apply confined_read : confined_db.
#[global] Hint Extern 1 (preserves (confined _) clients_get) =>
  apply confined_read : confined_db.
#[global] Hint Extern 1 (preserves (confined _) (client_emits _ _ _)) =>
  apply confined_read : confined_db.

(** Structural proof of [total]: every handler and every step outside a
    [try] must be total. *)
Ltac total_step :=
  lazymatch goal with
  | |- total (mret _) => apply total_ret
  | |- total (try_catch _ _) => apply total_try_catch; intros ?
  | |- total (mbind _ _) => apply total_bind; [|intros ?]
  | |- total (for_of _ _) => apply total_for_of; intros ?
  | |- total (match ?x with _ => _ end) => destruct x
  | |- total (let _ := _ in _) => cbv zeta
  | |- total _ => cbv beta; solve [eauto with total_db]
  end.

Ltac total_steps := repeat total_step.

(** Structural proof of [preserves R], the leaves being left to [tac]. *)
Ltac preserves_step tac :=
  lazymatch goal with
  | |- preserves _ (mret _) => apply preserves_ret; apply _
  | |- preserves _ (try_catch _ _) =>
      apply preserves_try_catch; [apply _| |intros ?]
  | |- preserves _ (mbind _ _) => apply preserves_bind; [apply _| |intros ?]
  | |- preserves _ (for_of _ _) => apply preserves_for_of; [apply _|intros ?]
  | |- preserves _ (match ?x with _ => _ end) => destruct x
  | |- preserves _ (let _ := _ in _) => cbv zeta
  | |- preserves _ _ => cbv beta; solve [tac]
  end.

Ltac confined_steps := repeat preserves_step ltac:(eauto with confined_db).

Section ManagerOps.

Variable E : Env.

Lemma total_createLog l : total (createLog E l).
Proof. unfold createLog. total_steps. Qed.

Lemma confined_createLog id l : preserves (confined id) (createLog E l).
Proof. unfold createLog. confined_steps. Qed.

Lemma total_sendStatusUpdateToClient ws : total (sendStatusUpdateToClient E ws).
Proof. unfold sendStatusUpdateToClient. total_steps. Qed.

Lemma confined_sendStatusUpdateToClient id ws :
  preserves (confined id) (sendStatusUpdateToClient E ws).
Proof. unfold sendStatusUpdateToClient. confined_steps. Qed.

Hint Resolve total_sendStatusUpdateToClient : total_db.
Hint Resolve confined_sendStatusUpdateToClient : confined_db.

Lemma total_broadcastUpdate : total (broadcastUpdate E).
Proof.
  unfold broadcastUpdate. total_steps.
Qed.

Lemma confined_broadcastUpdate id : preserves (confined id) (broadcastUpdate E).
Proof.
  unfold broadcastUpdate. confined_steps.
Qed.

Hint Resolve total_createLog total_broadcastUpdate : total_db.
Hint Resolve confined_createLog confined_broadcastUpdate : confined_db.

Lemma total_updateBotStatus id st : total (updateBotStatus E id st).
Proof. unfold updateBotStatus. total_steps. Qed.

Lemma confined_updateBotStatus id st :
  preserves (confined id) (updateBotStatus E id st).
Proof. unfold updateBotStatus. confined_steps. Qed.

Lemma total_updateBotMetrics id d : total (updateBotMetrics id d).
Proof. unfold updateBotMetrics. total_steps. Qed.

Lemma confined_updateBotMetrics id d :
  preserves (confined id) (updateBotMetrics id d).
Proof. unfold updateBotMetrics. confined_steps. Qed.

Hint Resolve total_updateBotStatus total_updateBotMetrics : total_db.
Hint Resolve confined_updateBotStatus confined_updateBotMetrics : confined_db.

(** The listeners never reject, and what they write belongs to their
    bot. *)
Lemma total_emit id bd c ev : total (emit E id bd c ev).
Proof.
  unfold emit, onReady, onError, onDisconnect, onReconnecting. total_steps.
Qed.

Lemma confined_emit id bd c ev : preserves (confined id) (emit E id bd c ev).
Proof.
  unfold emit, onReady, onError, onDisconnect, onReconnecting.
  confined_steps.
Qed.

Hint Resolve total_emit : total_db.
Hint Resolve confined_emit : confined_db.

Lemma total_startBot id : total (startBot E id).
Proof. unfold startBot. total_steps. Qed.

Lemma confined_startBot id : preserves (confined id) (startBot E id).
Proof. unfold startBot, token_not_found. confined_steps. Qed.

Lemma total_stopBot id : total (stopBot E id).
Proof. unfold stopBot. total_steps. Qed.

Lemma confined_stopBot id : preserves (confined id) (stopBot E id).
Proof. unfold stopBot. confined_steps. Qed.

Hint Resolve total_startBot total_stopBot : total_db.
Hint Resolve confined_startBot confined_stopBot : confined_db.

Lemma total_restartBot id : total (restartBot E id).
Proof. unfold restartBot. total_steps. Qed.

Lemma confined_restartBot id : preserves (confined id) (restartBot E id).
Proof. unfold restartBot. confined_steps. Qed.

Hint Resolve total_restartBot : total_db.
Hint Resolve confined_restartBot : confined_db.

Lemma total_pingMechanismBot bot : total (pingMechanismBot E bot).
Proof.
  unfold pingMechanismBot, reconnectIfDisconnected, correctStoredStatus,
    checkProcessHealth.
  total_steps.
Qed.

Lemma confined_pingMechanismBot bot :
  preserves (confined (bot_id bot)) (pingMechanismBot E bot).
Proof.
  unfold pingMechanismBot, reconnectIfDisconnected, correctStoredStatus,
    checkProcessHealth.
  confined_steps.
Qed.

End ManagerOps.

Section Lifecycle.

Variable E : Env.

Lemma bump_0 w : bump 0 [] w = w.
Proof. by destruct w. Qed.

Lemma bump_advance n evs ev w :
  bump n evs (advance ev w) = bump (S n) (evs ++ [ev]) w.
Proof.
  unfold bump, advance. cbn. f_equal; [lia | by rewrite <- app_assoc].
Qed.

(** The entry just pushed survives the trim. *)
Lemma elem_of_slice_last_snoc {A} n (l : list A) x :
  x ∈ slice_last (S n) (l ++ [x]).
Proof.
  unfold slice_last. rewrite length_app. cbn [length].
  rewrite drop_app_le by lia. apply elem_of_app. right. left.
Qed.

Lemma createLog_logged now l s :
  fst (Storage.createLog now l s) ∈ logs (snd (Storage.createLog now l s)).
Proof.
  rewrite StorageFacts.createLog_logs. apply elem_of_slice_last_snoc.
Qed.

(** *** Broadcast *)

Lemma sendStatusUpdateToClient_run ws w :
  ∃ ok, sendStatusUpdateToClient E ws w =
        (Ret tt, advance (EvSend ws (snapshot w) ok) w).
Proof.
  unfold sendStatusUpdateToClient. mrun.
  destruct (env_send _ _ _ _); eauto.
Qed.

Lemma for_of_send_run cs w :
  ∃ evs,
    for_of cs (fun client => sendStatusUpdateToClient E client) w =
      (Ret tt, bump (length cs) evs w) ∧
    Forall2 (send_attempt (snapshot w)) cs (rev evs).
Proof.
  revert w. induction cs as [|c cs IH]; intros w; cbn [for_of length].
  - exists []. rewrite bump_0. by split; [|constructor].
  - mrun. destruct (sendStatusUpdateToClient_run c w) as [ok ->].
    destruct (IH (advance (EvSend c (snapshot w) ok) w)) as (evs & -> & Hs).
    exists (evs ++ [EvSend c (snapshot w) ok]). split.
    + by rewrite bump_advance.
    + rewrite rev_app_distr. cbn. constructor; [by exists ok | exact Hs].
Qed.

(** [broadcastUpdate] attempts one send of the snapshot to every member of
    the subscriber set, in the set's order, whatever the state of the
    member's connection and whatever the outcome of the other sends. *)
Lemma broadcastUpdate_run w :
  ∃ evs,
    broadcastUpdate E w = (Ret tt, bump (length (clients w)) evs w) ∧
    Forall2 (send_attempt (snapshot w)) (clients w) (rev evs).
Proof.
  unfold broadcastUpdate. mrun. apply for_of_send_run.
Qed.

End Lifecycle.

(** Replace a broadcast in the goal by the state it leaves. *)
Ltac run_broadcast E :=
  match goal with
  | |- context [broadcastUpdate E ?w] =>
      let evs := fresh "sends" in
      let H := fresh "Hsends" in
      destruct (broadcastUpdate_run E w) as (evs & -> & H); mrun
  end.

(** ** The listeners *)

Lemma spread_status_twice (b : Bot) (s1 s2 : BotStatus) :
  spread_bot (spread_bot b (partial_status s1)) (partial_status s2) =
  spread_bot b (partial_status s2).
Proof. reflexivity. Qed.

Lemma status_written_trans (b1 b2 b3 : Bot) :
  status_written b1 b2 → status_written b2 b3 → status_written b1 b3.
Proof.
  unfold status_written.
  intros [-> | [-> | ->]] [-> | [-> | ->]];
    rewrite ?spread_status_twice; auto.
Qed.

Lemma quiet_touches (k : Z) (ev : Event) : quiet ev → ¬ touches k ev.
Proof. destruct ev; cbn; tauto. Qed.

#[global] Instance listened_preorder id : PreOrder (listened id).
Proof.
  split.
  - intros w. split; try done.
    + destruct (Storage.getBot id (storage w)) as [b|]; [|done].
      exists b. split; [done | by left].
    + exists []. by split.
  - intros w1 w2 w3 [Hp1 Hc1 Hn1 Hi1 Hk1 Ho1 Hw1 (e1 & Ht1 & Hq1)]
      [Hp2 Hc2 Hn2 Hi2 Hk2 Ho2 Hw2 (e2 & Ht2 & Hq2)].
    split; try congruence.
    + intros k Hk. rewrite Ho2, Ho1; done.
    + destruct (Storage.getBot id (storage w1)) as [b1|].
      * destruct Hw1 as (b2 & Hb2 & Hs12). rewrite Hb2 in Hw2.
        destruct Hw2 as (b3 & Hb3 & Hs23). exists b3. split; [done|].
        by eapply status_written_trans.
      * by rewrite Hw1 in Hw2.
    + exists (e2 ++ e1). split.
      * rewrite Ht2, Ht1. by rewrite app_assoc.
      * by apply Forall_app.
Qed.

(** Membership in a list of quiet events. *)
Lemma quiet_elem_of (ev : Event) (evs : list Event) :
  Forall quiet evs → ev ∈ evs → quiet ev.
Proof. intros Hq Hin. by eapply Forall_forall in Hq. Qed.

Lemma sends_quiet (p : Payload) (cs : list Z) (evs : list Event) :
  Forall2 (send_attempt p) cs (rev evs) → Forall quiet evs.
Proof.
  intros H. apply Forall_forall. intros ev Hin%list_elem_of_In%in_rev.
  apply Forall2_Forall_r with (Q := quiet) in H.
  - eapply Forall_forall in H; [exact H | by apply list_elem_of_In].
  - apply Forall_forall. intros c _ ev' [ok ->]. exact I.
Qed.

Section Listeners.

Variable E : Env.

(** A state that differs from [w] in its clock, its logs and by the
    events [evs]. *)
Lemma listened_events id w w' evs :
  bots (storage w') = bots (storage w) →
  botCurrentId (storage w') = botCurrentId (storage w) →
  botProcesses w' = botProcesses w → clients w' = clients w →
  nextClient w' = nextClient w → trace w' = evs ++ trace w →
  Forall quiet evs → listened id w w'.
Proof.
  intros Hb Hi Hp Hc Hn Ht Hq. unfold Storage.getBot.
  split; try done; unfold Storage.getBot; rewrite ?Hb; try done.
  - destruct (JsMap.get id (bots (storage w))) as [b|]; [|done].
    exists b. split; [done | by left].
  - by exists evs.
Qed.

Lemma listened_read id {A} (f : World → A) :
  preserves (listened id) (fun w => (Ret (f w), w)).
Proof. intros w. cbn. reflexivity. Qed.

Lemma listened_storage_createLog id l :
  preserves (listened id) (storage_createLog E l).
Proof.
  intros w. eapply (listened_events id _ _ [_]); try done.
  by repeat constructor.
Qed.

Lemma listened_ws_send id ws p : preserves (listened id) (ws_send E ws p).
Proof.
  intros w. unfold ws_send.
  destruct (env_send _ _ _ _); eapply (listened_events id _ _ [_]);
    try done; by repeat constructor.
Qed.

Lemma listened_setupBotMetricsCollection id c :
  preserves (listened id) (setupBotMetricsCollection id c).
Proof.
  intros w. eapply (listened_events id _ _ [_]); try done.
  by repeat constructor.
Qed.

Lemma listened_storage_updateBot id st :
  st = ONLINE ∨ st = WARNING →
  preserves (listened id) (storage_updateBot id (partial_status st)).
Proof.
  intros Hst w. cbn. unfold Storage.updateBot, Storage.getBot.
  destruct (JsMap.get id (bots (storage w))) as [b|] eqn:Hg; cbn;
    [|by apply (listened_events id _ _ [])].
  split; cbn; try done.
  - by eapply JsMap_keys_set.
  - intros k Hk. unfold Storage.getBot. cbn. by apply JsMap_get_set_ne.
  - unfold Storage.getBot. cbn. rewrite Hg, JsMap_get_set_eq.
    eexists. split; [done|]. unfold status_written.
    destruct Hst as [-> | ->]; auto.
  - exists []. by split.
Qed.

End Listeners.

Create HintDb listened_db.

#[global] Hint Resolve listened_storage_createLog listened_ws_send
  listened_setupBotMetricsCollection : listened_db.
#[global] Hint Extern 1 (preserves (listened _) storage_getAllBots) =>
  apply listened_read : listened_db.
#[global] Hint Extern 1 (preserves (listened _) storage_getLatestMetrics) =>
  apply listened_read : listened_db.
#[global] Hint Extern 1 (preserves (listened _) clients_get) =>
  apply listened_read : listened_db.
#[global] Hint Extern 1
  (preserves (listened _) (storage_updateBot _ (partial_status _))) =>
  apply listened_storage_updateBot; auto : listened_db.

Ltac listened_steps := repeat preserves_step ltac:(eauto with listened_db).

Section ListenersRun.

Variable E : Env.

Lemma listened_emit id bd c ev : preserves (listened id) (emit E id bd c ev).
Proof.
  unfold emit, onReady, onError, onDisconnect, onReconnecting,
    updateBotStatus, createLog, broadcastUpdate, sendStatusUpdateToClient.
  listened_steps.
Qed.

(** The listeners run to their end for every emission. *)
Lemma emit_run id bd c (emitted : list ClientEvent) w :
  ∃ w1, for_of emitted (emit E id bd c) w = (Ret tt, w1) ∧ listened id w w1.
Proof.
  destruct (total_run (for_of emitted (emit E id bd c)) w) as ([] & w1 & Hrun).
  { apply total_for_of. intros ev. apply total_emit. }
  exists w1. split; [done|].
  pose proof (preserves_for_of (listened id) emitted (emit E id bd c)
                (listened_emit id bd c) w) as H.
  by rewrite Hrun in H.
Qed.

End ListenersRun.

(** Replace the run of the listeners in the goal by the state it leaves. *)
Ltac run_listeners E :=
  match goal with
  | |- context [for_of ?l (emit E ?i ?b ?c) ?w0] =>
      let w1 := fresh "heard" in
      let H := fresh "Hheard" in
      destruct (emit_run E i b c l w0) as (w1 & -> & H); mrun
  end.

(** A list of pairs without duplicate keys holds at most one pair for a
    key. *)
Lemma filter_key_absent {V} (id : Z) (l : list (Z * V)) :
  id ∉ l.*1 → filter (fun kv => kv.1 = id) l = [].
Proof.
  induction l as [|[k v] l IH]; [done|].
  rewrite fmap_cons, not_elem_of_cons. cbn [fst]. intros [Hne Hl].
  rewrite filter_cons. cbn [fst].
  destruct (decide (k = id)); [congruence | by apply IH].
Qed.

Lemma count_key_NoDup {V} (id : Z) (l : list (Z * V)) :
  NoDup l.*1 → (length (filter (fun kv => kv.1 = id) l) ≤ 1)%nat.
Proof.
  induction l as [|[k v] l IH]; [cbn; lia|].
  rewrite fmap_cons. cbn [fst].
  intros Hnd. apply NoDup_cons in Hnd as [Hk Hnd].
  rewrite filter_cons. cbn [fst]. destruct (decide (k = id)) as [->|Hne].
  - rewrite filter_key_absent by done. cbn. lia.
  - by apply IH.
Qed.

(** A listener writes the status only. *)
Lemma status_written_fields (b b' : Bot) :
  status_written b b' →
  bot_id b' = bot_id b ∧ bot_token b' = bot_token b ∧
  bot_isRunning b' = bot_isRunning b ∧ bot_botType b' = bot_botType b.
Proof. by intros [-> | [-> | ->]]. Qed.

(** Case analysis of a membership in a list built by cons and append. *)
Ltac elem_cases H :=
  repeat lazymatch type of H with
  | _ ∈ [] => apply elem_of_nil in H; destruct H
  | _ ∈ _ :: _ => apply elem_of_cons in H as [H|H]
  | _ ∈ _ ++ _ => apply elem_of_app in H as [H|H]
  end.

Section StartStop.

Variable E : Env.

(** C7.  [stopBot] on an identifier without a handle returns false and
    changes nothing: the handle map, the store (records and logs) and the
    trace of calls are what they were. *)
Theorem stopBot_without_handle_is_noop (id : Z) (w : World) :
  botProcesses w !! id = None →
  stopBot E id w = (Ret false, w).
Proof.
  intros H. unfold stopBot. mrun. by rewrite H.
Qed.

(** C6.  When the record of [id] is absent or its token is empty,
    [startBot] returns false (it does not throw), writes one log entry of
    level error whose message is "Bot token not found", opens no
    connection and leaves the handle map as it was. *)
Theorem startBot_refuses_without_token (id : Z) (w : World) :
  (∀ bd, Storage.getBot id (storage w) = Some bd → bot_token bd = "") →
  ∃ w' l,
    startBot E id w = (Ret false, w') ∧
    trace w' = EvLog l :: trace w ∧
    l ∈ logs (storage w') ∧
    log_level l = "error" ∧
    log_message l = "Bot token not found" ∧
    botProcesses w' = botProcesses w ∧
    nextClient w' = nextClient w.
Proof.
  intros H. unfold startBot. mrun.
  destruct (Storage.getBot id (storage w)) as [bd|] eqn:Hbd;
    [rewrite (H bd eq_refl); cbn [str_truthy String.eqb negb]|].
  all: eexists _, _; split; [reflexivity|]; wsimpl.
  all: split; [done|]; split; [apply createLog_logged | done].
Qed.

(** C2, as amended.  When [id] has a handle and its record still holds a
    non-empty token, [startBot] returns true, writes a warning, constructs
    no client, attempts no login and leaves the handle map as it was. *)
Theorem startBot_already_running (id : Z) (bp : BotProcess) (bd : Bot)
    (w : World) :
  botProcesses w !! id = Some bp →
  Storage.getBot id (storage w) = Some bd →
  bot_token bd ≠ "" →
  ∃ w' l,
    startBot E id w = (Ret true, w') ∧
    trace w' = EvLog l :: trace w ∧
    log_level l = "warning" ∧
    botProcesses w' = botProcesses w ∧
    nextClient w' = nextClient w.
Proof.
  intros Hbp Hbd Htok. unfold startBot. mrun. rewrite Hbd.
  unfold str_truthy. destruct (String.eqb_spec (bot_token bd) ""); [done|].
  cbn [negb]. rewrite Hbp.
  rewrite bool_decide_eq_true_2 by eauto.
  eexists _, _. split; [reflexivity|]. by cbn.
Qed.

(** Two calls in a row: when [startBot] returned true, calling it again at
    once returns true, writes the warning, and neither builds a client nor
    touches the handle map. *)
Lemma startBot_twice (id : Z) (w w1 : World) :
  startBot E id w = (Ret true, w1) →
  ∃ w2 l,
    startBot E id w1 = (Ret true, w2) ∧
    trace w2 = EvLog l :: trace w1 ∧
    log_level l = "warning" ∧
    botProcesses w2 = botProcesses w1 ∧
    nextClient w2 = nextClient w1.
Proof.
  intros Hrun.
  assert (∃ bp bd, botProcesses w1 !! id = Some bp ∧
                   Storage.getBot id (storage w1) = Some bd ∧
                   bot_token bd ≠ "") as (bp & bd & Hbp & Hbd & Htok).
  { revert Hrun. unfold startBot. mrun.
    destruct (Storage.getBot id (storage w)) as [bd|] eqn:Hbd; [|done].
    unfold str_truthy.
    destruct (String.eqb_spec (bot_token bd) "") as [|Htok]; [done|].
    cbn [negb].
    destruct (botProcesses w !! id) as [bp|] eqn:Hbp.
    - rewrite bool_decide_eq_true_2 by eauto. intros [= <-].
      by exists bp, bd.
    - rewrite bool_decide_eq_false_2 by (by intros [? ?]). cbv zeta.
      destruct (botTemplates !! _); mrun; run_listeners E.
      all: pose proof (lis_own _ _ _ Hheard) as Hown; cbn in Hown.
      all: rewrite Hbd in Hown; destruct Hown as (bd' & Hbd' & Hw).
      all: apply status_written_fields in Hw as (_ & Htok' & _).
      all: destruct (env_login _ _ _ _ _); mrun; intros [= <-]; wsimpl.
      all: eexists _, bd'; rewrite lookup_insert_eq.
      all: split; [done|]; split; [done | congruence]. }
  unfold startBot. mrun. rewrite Hbd.
  unfold str_truthy. destruct (String.eqb_spec (bot_token bd) ""); [done|].
  cbn [negb]. rewrite Hbp, bool_decide_eq_true_2 by eauto.
  eexists _, _. split; [reflexivity|]. by wsimpl.
Qed.

(** What a run of [startBot] does to the handle of its bot. *)
Lemma startBot_settled (id : Z) (w : World) :
  settled id w (snd (startBot E id w)).
Proof.
  unfold startBot. mrun.
  destruct (Storage.getBot id (storage w)) as [bd|]; cycle 1.
  { eexists [_]. split; [done|]. cbn.
    destruct (botProcesses w !! id) as [bp|] eqn:Hbp; [left; eauto|].
    right; right. split; [done|]. eexists. split; [left|]. done. }
  destruct (negb (str_truthy (bot_token bd))).
  { eexists [_]. split; [done|]. cbn.
    destruct (botProcesses w !! id) as [bp|] eqn:Hbp; [left; eauto|].
    right; right. split; [done|]. eexists. split; [left|]. done. }
  destruct (botProcesses w !! id) as [bp|] eqn:Hbp.
  { rewrite bool_decide_eq_true_2 by eauto. cbn.
    eexists [_]. split; [done|]. left. eauto. }
  rewrite bool_decide_eq_false_2 by (by intros [? ?]).
  cbv zeta.
  destruct (botTemplates !! _); mrun; run_listeners E;
    destruct Hheard as [Hp _ _ _ _ _ _ (evs & Ht & _)]; cbn in Hp, Ht;
    destruct (env_login _ _ _ _ _); unfold settled; wsimpl; rewrite Ht.
  all: try (eexists (_ :: _ :: evs ++ [_]); split;
            [by rewrite <- !app_comm_cons, <- app_assoc|]; right; right;
            split; [by rewrite Hp|]; eexists; split; [left|]; done).
  all: eexists (_ :: evs ++ [_]); split;
       [by rewrite <- !app_comm_cons, <- app_assoc|]; right; left;
       eexists; split; [apply lookup_insert_eq|]; done.
Qed.

(** [stopBot] either leaves the handle map as it was or removes the handle
    of its bot. *)
Lemma stopBot_handle (id : Z) (w : World) :
  extends w (snd (stopBot E id w)) ∧
  (botProcesses (snd (stopBot E id w)) = botProcesses w ∨
   botProcesses (snd (stopBot E id w)) !! id = None).
Proof.
  unfold stopBot. mrun.
  destruct (botProcesses w !! id) as [bp|] eqn:Hbp; cbn; cycle 1.
  { split; [reflexivity | by left]. }
  destruct (bp_discordClient bp) as [c|]; mrun.
  - destruct (env_destroy _ _ _ _); mrun.
    + split; [by eexists [_; _] | by left].
    + run_broadcast E. split; [by eexists (_ ++ [_]); rewrite <- app_assoc|].
      right. apply lookup_delete_eq.
  - run_broadcast E. split; [by eexists|].
    right. apply lookup_delete_eq.
Qed.

Lemma settled_after_stop (id : Z) (w w1 w2 : World) :
  extends w w1 →
  botProcesses w1 = botProcesses w ∨ botProcesses w1 !! id = None →
  settled id w1 w2 → settled id w w2.
Proof.
  intros [e1 H1] Hstop (e2 & H2 & Hcase).
  exists (e2 ++ e1). split; [by rewrite H2, H1, app_assoc|].
  destruct Hcase as [(bp & Hb1 & Hb2)|[Hon|(Hnone' & l & Hl & Hlev)]].
  - destruct Hstop as [Heq|Hnone]; [|congruence].
    left. exists bp. by rewrite <- Heq.
  - by right; left.
  - right; right. split; [done|]. exists l. split; [|done].
    apply elem_of_app. by left.
Qed.

Lemma restartBot_run (id : Z) (w : World) :
  ∃ r w', restartBot E id w = (Ret r, w') ∧ settled id w w'.
Proof.
  destruct (total_run (restartBot E id) w (total_restartBot E id))
    as (r & w' & Hrun).
  exists r, w'. split; [done|].
  revert Hrun. unfold restartBot. mrun.
  destruct (total_run (stopBot E id) w (total_stopBot E id))
    as (r1 & w1 & Hstop).
  pose proof (stopBot_handle id w) as [Hext Hh].
  rewrite Hstop in *. cbn [snd] in *.
  intros Hstart. pose proof (startBot_settled id w1) as Hset.
  rewrite Hstart in Hset. cbn [snd] in Hset.
  by eapply settled_after_stop.
Qed.

(** [restartBot] builds at most one client. *)
Lemma stopBot_builds_no_client (id : Z) (w : World) :
  nextClient (snd (stopBot E id w)) = nextClient w.
Proof.
  unfold stopBot. mrun.
  destruct (botProcesses w !! id) as [bp|]; [|done].
  destruct (bp_discordClient bp) as [c|]; mrun;
    [destruct (env_destroy _ _ _ _); mrun|]; try done.
  all: by run_broadcast E.
Qed.

Lemma startBot_builds_at_most_one_client (id : Z) (w : World) :
  (nextClient (snd (startBot E id w)) ≤ S (nextClient w))%nat.
Proof.
  unfold startBot. mrun.
  destruct (Storage.getBot id (storage w)) as [bd|]; [|wsimpl; lia].
  destruct (negb (str_truthy (bot_token bd))); [wsimpl; lia|].
  destruct (bool_decide _); [wsimpl; lia|]. cbv zeta.
  destruct (botTemplates !! _); mrun; run_listeners E;
    pose proof (lis_next _ _ _ Hheard) as Hn; cbn in Hn;
    destruct (env_login _ _ _ _ _); wsimpl; lia.
Qed.

Lemma restartBot_builds_at_most_one_client (id : Z) (w : World) :
  (nextClient (snd (restartBot E id w)) ≤ S (nextClient w))%nat.
Proof.
  unfold restartBot. mrun.
  destruct (total_run _ w (total_stopBot E id)) as (r1 & w1 & Hstop).
  pose proof (stopBot_builds_no_client id w) as H1.
  rewrite Hstop in *. cbn [snd] in H1. rewrite <- H1.
  apply startBot_builds_at_most_one_client.
Qed.

(** What [stopBot] does to the connection of its bot: it logs in
    nowhere, and either keeps the handle map, no connection being
    destroyed, or removes the handle after its connection was destroyed. *)
Lemma stopBot_connection (id : Z) (w : World) :
  ∃ r w1 e1,
    stopBot E id w = (Ret r, w1) ∧
    trace w1 = e1 ++ trace w ∧
    nextClient w1 = nextClient w ∧
    (∀ c tok ok, EvLogin id c tok ok ∉ e1) ∧
    ((botProcesses w1 = botProcesses w ∧ ∀ c, EvDestroy id c true ∉ e1)
     ∨ (∃ bp, botProcesses w !! id = Some bp ∧
              botProcesses w1 = delete id (botProcesses w) ∧
              ∀ c0, bp_discordClient bp = Some c0 →
                    EvDestroy id c0 true ∈ e1)).
Proof.
  unfold stopBot. mrun.
  destruct (botProcesses w !! id) as [bp|] eqn:Hbp; cbn; cycle 1.
  { exists false, w, []. repeat split; try done.
    - intros c tok ok H. by apply elem_of_nil in H.
    - left. split; [done|]. intros c H. by apply elem_of_nil in H. }
  destruct (bp_discordClient bp) as [c|] eqn:Hc; mrun.
  - destruct (env_destroy _ _ _ _); mrun.
    + eexists _, _, [_; _]. split; [reflexivity|]. wsimpl.
      repeat split; try done.
      * intros c' tok ok H. by repeat apply elem_of_cons in H as [H|H];
          try apply elem_of_nil in H.
      * left. split; [done|]. intros c' H.
        by repeat apply elem_of_cons in H as [H|H];
          try apply elem_of_nil in H.
    + run_broadcast E. apply sends_quiet in Hsends.
      eexists _, _, (sends ++ [_]). split; [reflexivity|]. wsimpl.
      rewrite <- app_assoc. repeat split; try done.
      * intros c' tok ok [H|H]%elem_of_app.
        -- by apply (quiet_elem_of _ _ Hsends) in H.
        -- by repeat apply elem_of_cons in H as [H|H];
             try apply elem_of_nil in H.
      * right. exists bp. repeat split; try done.
        intros c0 H. rewrite Hc in H. injection H as <-.
        apply elem_of_app. right. left.
  - run_broadcast E. apply sends_quiet in Hsends.
    eexists _, _, sends. split; [reflexivity|]. wsimpl.
    repeat split; try done.
    + intros c' tok ok H. by apply (quiet_elem_of _ _ Hsends) in H.
    + right. exists bp. repeat split; try done. congruence.
Qed.

(** What [startBot] does to the connection of its bot: it destroys none,
    and either keeps the handle map, no login being accepted, or, the bot
    having no handle, registers a handle for the one client it built, the
    only one whose login was accepted. *)
Lemma startBot_connection (id : Z) (w : World) :
  ∃ r w2 e2,
    startBot E id w = (Ret r, w2) ∧
    trace w2 = e2 ++ trace w ∧
    (∀ c ok, EvDestroy id c ok ∉ e2) ∧
    ((botProcesses w2 = botProcesses w ∧
      (nextClient w2 ≤ S (nextClient w))%nat ∧
      ∀ c tok, EvLogin id c tok true ∉ e2)
     ∨ (∃ c tok bp,
          botProcesses w !! id = None ∧
          client_no c = nextClient w ∧
          nextClient w2 = S (nextClient w) ∧
          botProcesses w2 = <[id := bp]> (botProcesses w) ∧
          bp_discordClient bp = Some c ∧
          bp_status bp = ONLINE ∧
          EvLogin id c tok true ∈ e2 ∧
          ∀ c' tok', EvLogin id c' tok' true ∈ e2 → c' = c)).
Proof.
  unfold startBot. mrun.
  destruct (Storage.getBot id (storage w)) as [bd|]; cycle 1.
  { eexists false, _, [_]. split; [reflexivity|]. wsimpl.
    split_and!; try done.
    - intros c ok H. by repeat apply elem_of_cons in H as [H|H];
        try apply elem_of_nil in H.
    - left. split_and!; [done | lia |]. intros c tok H.
      by repeat apply elem_of_cons in H as [H|H];
        try apply elem_of_nil in H. }
  destruct (negb (str_truthy (bot_token bd))).
  { eexists false, _, [_]. split; [reflexivity|]. wsimpl.
    split_and!; try done.
    - intros c ok H. by repeat apply elem_of_cons in H as [H|H];
        try apply elem_of_nil in H.
    - left. split_and!; [done | lia |]. intros c tok H.
      by repeat apply elem_of_cons in H as [H|H];
        try apply elem_of_nil in H. }
  destruct (botProcesses w !! id) as [bp|] eqn:Hbp.
  { rewrite bool_decide_eq_true_2 by eauto. cbn.
    eexists true, _, [_]. split; [reflexivity|]. wsimpl.
    split_and!; try done.
    - intros c ok H. by repeat apply elem_of_cons in H as [H|H];
        try apply elem_of_nil in H.
    - left. split_and!; [done | lia |]. intros c tok H.
      by repeat apply elem_of_cons in H as [H|H];
        try apply elem_of_nil in H. }
  rewrite bool_decide_eq_false_2 by (by intros [? ?]). cbv zeta.
  assert (∀ intents h,
    listened id
      {| storage := storage w; botProcesses := botProcesses w;
         clients := clients w; clock := clock w;
         nextClient := S (nextClient w);
         trace := EvNewClient id {| client_no := nextClient w;
                                    client_intents := intents |}
                  :: trace w |} h →
    ∃ evs, trace h = evs ++ EvNewClient id {| client_no := nextClient w;
                                               client_intents := intents |}
                         :: trace w ∧
           Forall quiet evs ∧ botProcesses h = botProcesses w ∧
           nextClient h = S (nextClient w)) as Hh.
  { intros intents h [Hp _ Hn _ _ _ _ (evs & Ht & Hq)]. cbn in *.
    by exists evs. }
  destruct (botTemplates !! _) as [intents|]; mrun; run_listeners E;
    destruct (Hh _ _ Hheard) as (evs & Ht & Hq & Hp & Hn);
    destruct (env_login _ _ _ _ _) as [e|]; mrun.
  all: eexists _, _, _; split; [reflexivity|]; wsimpl; rewrite Ht.
  all: split; [rewrite cons_middle, app_assoc, !app_comm_cons;
               reflexivity|].
  all: split;
    [intros c0 ok H; elem_cases H; try discriminate H;
     by apply (quiet_elem_of _ _ Hq) in H|].
  1,3: left; rewrite Hp, Hn; split_and!; [done | lia |];
       intros c0 tok0 H; elem_cases H; try discriminate H;
       by apply (quiet_elem_of _ _ Hq) in H.
  all: right; eexists _, _, _; rewrite Hp, Hn; split_and!;
       try reflexivity; try done.
  1,3: apply elem_of_app; left; left.
  all: intros c' tok' H; elem_cases H; try discriminate H;
       [by injection H | by apply (quiet_elem_of _ _ Hq) in H].
Qed.

(** C3.  [restartBot] returns (it throws in no case: handle present or
    absent, destroy or login failing or not) and afterwards the handle map
    holds at most one handle for [id], for at most one connection: the
    restart builds at most one client; the handle of [id] afterwards is
    either the one it had, no connection of [id] having been destroyed or
    opened, or a new ONLINE handle for the one client built, whose login
    was accepted after the connection of the former handle was destroyed;
    and when [id] has no handle afterwards, no login was accepted. *)
Theorem restartBot_at_most_one_handle (id : Z) (w : World) :
  ∃ r w' evs,
    restartBot E id w = (Ret r, w') ∧
    trace w' = evs ++ trace w ∧
    (length (filter (fun kv => kv.1 = id)
                    (map_to_list (botProcesses w'))) ≤ 1)%nat ∧
    (nextClient w' ≤ S (nextClient w))%nat ∧
    (∀ bp, botProcesses w' !! id = Some bp →
       (botProcesses w !! id = Some bp ∧
        (∀ c, EvDestroy id c true ∉ evs) ∧
        (∀ c tok, EvLogin id c tok true ∉ evs))
       ∨ (∃ c tok,
            bp_discordClient bp = Some c ∧
            bp_status bp = ONLINE ∧
            client_no c = nextClient w ∧
            EvLogin id c tok true ∈ evs ∧
            (∀ c' tok', EvLogin id c' tok' true ∈ evs → c' = c) ∧
            ∀ bp0 c0, botProcesses w !! id = Some bp0 →
                      bp_discordClient bp0 = Some c0 →
                      EvDestroy id c0 true ∈ evs)) ∧
    (botProcesses w' !! id = None →
       ∀ c tok, EvLogin id c tok true ∉ evs).
Proof.
  destruct (stopBot_connection id w)
    as (r1 & w1 & e1 & Hstop & Ht1 & Hn1 & Hlog1 & Hcase1).
  destruct (startBot_connection id w1)
    as (r & w' & e2 & Hstart & Ht2 & Hdes2 & Hcase2).
  exists r, w', (e2 ++ e1).
  split. { unfold restartBot. mrun. by rewrite Hstop. }
  split. { by rewrite Ht2, Ht1, app_assoc. }
  split. { apply count_key_NoDup, NoDup_fst_map_to_list. }
  assert (∀ c tok, EvLogin id c tok true ∈ e2 ++ e1 →
                   EvLogin id c tok true ∈ e2) as Hlogin.
  { intros c tok [H|H]%elem_of_app; [done | by apply Hlog1 in H]. }
  assert (∀ c, EvDestroy id c true ∈ e2 ++ e1 →
               EvDestroy id c true ∈ e1) as Hdestroy.
  { intros c [H|H]%elem_of_app; [by apply Hdes2 in H | done]. }
  destruct Hcase2 as [(Hp2 & Hn2 & Hno2)
    | (c & tok & bp' & Hnone1 & Hc & Hn2 & Hp2 & Hbc & Hon & Hin & Honly)].
  - split; [lia|]. rewrite Hp2. split.
    + intros bp Hbp. left.
      destruct Hcase1 as [[Hp1 Hno1] | (bp0 & _ & Hp1 & _)].
      * rewrite Hp1 in Hbp. split_and!; [done | |].
        -- intros c0 H%Hdestroy. by apply Hno1 in H.
        -- intros c0 tok0 H%Hlogin. by apply Hno2 in H.
      * by rewrite Hp1, lookup_delete_eq in Hbp.
    + intros _ c0 tok0 H%Hlogin. by apply Hno2 in H.
  - split; [lia|]. rewrite Hp2, lookup_insert_eq. split; [|done].
    intros bp [= <-]. right. exists c, tok.
    split_and!; try done; try congruence.
    + apply elem_of_app. by left.
    + intros c' tok' H%Hlogin. by apply Honly in H.
    + intros bp0 c0 Hbp0 Hc0. apply elem_of_app. right.
      destruct Hcase1 as [[Hp1 _] | (bp1 & Hbp1 & _ & Hd)].
      * rewrite Hp1 in Hnone1. congruence.
      * apply Hd. congruence.
Qed.

End StartStop.

Section StopAndBroadcast.

Variable E : Env.

Lemma updateBot_status_read (id : Z) (st : BotStatus) (bd : Bot)
    (s : MemStorage) :
  Storage.getBot id s = Some bd →
  ∃ bd', Storage.getBot id (Storage.updateBot id (partial_status st) s).2
           = Some bd' ∧
         bot_status bd' = Some (BotStatus_str st) ∧
         bot_isRunning bd' = bot_isRunning bd.
Proof.
  unfold Storage.getBot, Storage.updateBot. intros ->. cbn.
  rewrite JsMap_get_set_eq. eauto.
Qed.

(** C4, as amended.  For a bot with a handle: when destroying the
    connection succeeds (or the handle has no connection), [stopBot]
    returns true, removes the handle and sets the status of the record to
    OFFLINE; when destroying throws, [stopBot] returns false, logs the
    error at level error and leaves the handle map and the records as they
    were. *)
Theorem stopBot_with_handle (id : Z) (bp : BotProcess) (w : World) :
  botProcesses w !! id = Some bp →
  ∃ w',
    match destroy_error E id bp w with
    | None =>
        stopBot E id w = (Ret true, w') ∧
        botProcesses w' = delete id (botProcesses w) ∧
        (∀ bd, Storage.getBot id (storage w) = Some bd →
           ∃ bd', Storage.getBot id (storage w') = Some bd' ∧
                  bot_status bd' = Some "OFFLINE")
    | Some e =>
        stopBot E id w = (Ret false, w') ∧
        botProcesses w' = botProcesses w ∧
        bots (storage w') = bots (storage w) ∧
        ∃ l evs, trace w' = EvLog l :: evs ++ trace w ∧
                 l ∈ logs (storage w') ∧
                 log_level l = "error" ∧
                 log_message l = "Failed to stop: " +:+ error_message e
    end.
Proof.
  intros Hbp. unfold stopBot, destroy_error. mrun. rewrite Hbp.
  destruct (bp_discordClient bp) as [c|]; mrun;
    [destruct (env_destroy E (clock w) id c) as [e|]; mrun|].
  2,3: run_broadcast E; eexists; split; [done|]; wsimpl; split; [done|];
       intros bd Hbd;
       destruct (updateBot_status_read id OFFLINE bd _ Hbd) as (bd' & ? & ? & _);
       by eauto.
  eexists. split; [done|]. wsimpl. split; [done|]. split; [done|].
  eexists _, [_]. split; [done|]. split; [apply createLog_logged|done].
Qed.

End StopAndBroadcast.

(** ** The reconciliation tick *)

#[global] Instance same_handles_preorder : PreOrder same_handles.
Proof.
  split.
  - intros w. split; [done | reflexivity].
  - intros w1 w2 w3 [H1 E1] [H2 E2]. split; [congruence | by etrans].
Qed.

#[global] Instance steady_preorder id : PreOrder (steady id).
Proof.
  split.
  - intros w. exists []. split; [done | by left].
  - intros w1 w2 w3 (e1 & T1 & C1) (e2 & T2 & C2).
    exists (e2 ++ e1). split; [by rewrite T2, T1, app_assoc|].
    destruct C2 as [Heq|[Hon|[Hnone (l & Hl & Hlev)]]].
    + rewrite Heq. destruct C1 as [?|[(bp & Hbp & Hst)|[Hnone (l & Hl & Hlev)]]].
      * by left.
      * right; left. exists bp. by rewrite Heq.
      * right; right. split; [done|]. exists l. split; [|done].
        apply elem_of_app. by right.
    + by right; left.
    + right; right. split; [done|]. exists l. split; [|done].
      apply elem_of_app. by left.
Qed.

Lemma same_handles_steady id w w' : same_handles w w' → steady id w w'.
Proof. intros [Hp [evs Ht]]. exists evs. split; [done|]. left. by rewrite Hp. Qed.

Lemma settled_steady id w w' : settled id w w' → steady id w w'.
Proof.
  intros (evs & Ht & [(bp & H1 & H2)|[?|?]]); exists evs; split; try done.
  - left. congruence.
  - by right; left.
  - by right; right.
Qed.

Lemma confined_steady k id w w' : k ≠ id → confined k w w' → steady id w w'.
Proof.
  intros Hne [_ Hp _ (evs & Ht & _)]. exists evs. split; [done|].
  left. by apply Hp.
Qed.

Lemma preserves_weaken {A} (R R' : World → World → Prop) (m : M A) :
  (∀ w w', R w w' → R' w w') → preserves R m → preserves R' m.
Proof. intros HR Hm w. apply HR, Hm. Qed.

(** A [try] whose body never throws is its body. *)
Lemma preserves_try_total {A} (R : World → World → Prop)
    (body : M A) (handler : string → M A) :
  total body → preserves R body → preserves R (try_catch body handler).
Proof.
  intros Ht Hb w. specialize (Hb w). destruct (Ht w) as [a Ha].
  unfold try_catch. destruct (body w) as [[a'|e] w']; [done|].
  cbn in Ha. discriminate.
Qed.

Create HintDb handles_db.
Create HintDb steady_db.

Section Tick.

Variable E : Env.

Lemma same_handles_events {A} (m : M A) :
  (∀ w, botProcesses (m w).2 = botProcesses w ∧
        ∃ evs, trace (m w).2 = evs ++ trace w) →
  preserves same_handles m.
Proof. intros H w. destruct (H w) as [Hp He]. by split. Qed.

Lemma same_handles_new_Date : preserves same_handles (new_Date E).
Proof. apply same_handles_events. intros w. split; [done | by exists []]. Qed.
Lemma same_handles_storage_getAllBots : preserves same_handles storage_getAllBots.
Proof. apply same_handles_events. intros w. split; [done | by exists []]. Qed.
Lemma same_handles_storage_getBot id : preserves same_handles (storage_getBot id).
Proof. apply same_handles_events. intros w. split; [done | by exists []]. Qed.
Lemma same_handles_storage_getLatestMetrics :
  preserves same_handles storage_getLatestMetrics.
Proof. apply same_handles_events. intros w. split; [done | by exists []]. Qed.
Lemma same_handles_storage_updateBot id d :
  preserves same_handles (storage_updateBot id d).
Proof. apply same_handles_events. intros w. split; [done | by exists []]. Qed.
Lemma same_handles_storage_createLog l :
  preserves same_handles (storage_createLog E l).
Proof. apply same_handles_events. intros w. split; [done | by eexists [_]]. Qed.
Lemma same_handles_client_ws_ping id c :
  preserves same_handles (client_ws_ping E id c).
Proof. apply same_handles_events. intros w. split; [done | by exists []]. Qed.
Lemma same_handles_ws_send ws p : preserves same_handles (ws_send E ws p).
Proof.
  apply same_handles_events. intros w. unfold ws_send.
  destruct (env_send _ _ _ _); (split; [done | by eexists [_]]).
Qed.
Lemma same_handles_clients_get : preserves same_handles clients_get.
Proof. apply same_handles_events. intros w. split; [done | by exists []]. Qed.
Lemma same_handles_botProcesses_get id :
  preserves same_handles (botProcesses_get id).
Proof. apply same_handles_events. intros w. split; [done | by exists []]. Qed.

Hint Resolve same_handles_new_Date same_handles_storage_getAllBots
  same_handles_storage_getBot same_handles_storage_getLatestMetrics
  same_handles_storage_updateBot same_handles_storage_createLog
  same_handles_client_ws_ping same_handles_ws_send same_handles_clients_get
  same_handles_botProcesses_get : handles_db.

Ltac handles_steps := repeat preserves_step ltac:(eauto with handles_db).

Lemma same_handles_createLog l : preserves same_handles (createLog E l).
Proof. unfold createLog. handles_steps. Qed.

Lemma same_handles_sendStatusUpdateToClient ws :
  preserves same_handles (sendStatusUpdateToClient E ws).
Proof. unfold sendStatusUpdateToClient. handles_steps. Qed.

Hint Resolve same_handles_createLog same_handles_sendStatusUpdateToClient
  : handles_db.

Lemma same_handles_broadcastUpdate : preserves same_handles (broadcastUpdate E).
Proof. unfold broadcastUpdate. handles_steps. Qed.

Hint Resolve same_handles_broadcastUpdate : handles_db.

Lemma same_handles_updateBotStatus id st :
  preserves same_handles (updateBotStatus E id st).
Proof. unfold updateBotStatus. handles_steps. Qed.

Lemma same_handles_updateBotMetrics id d :
  preserves same_handles (updateBotMetrics id d).
Proof. unfold updateBotMetrics. handles_steps. Qed.

Hint Resolve same_handles_updateBotStatus same_handles_updateBotMetrics
  : handles_db.

Lemma same_handles_correctStoredStatus bot bp :
  preserves same_handles (correctStoredStatus E bot bp).
Proof. unfold correctStoredStatus. handles_steps. Qed.

(** *** The handle of one bot across the tick *)

Lemma steady_restartBot id : preserves (steady id) (restartBot E id).
Proof.
  intros w. destruct (restartBot_run E id w) as (r & w' & -> & Hs).
  by apply settled_steady.
Qed.

Lemma steady_createLog id l : preserves (steady id) (createLog E l).
Proof.
  eapply preserves_weaken; [apply same_handles_steady|].
  apply same_handles_createLog.
Qed.

Lemma steady_reconnectIfDisconnected bot bp :
  preserves (steady (bot_id bot)) (reconnectIfDisconnected E bot bp).
Proof.
  unfold reconnectIfDisconnected.
  destruct (bot_isRunning bot && disconnected bp).
  - apply preserves_bind; [apply _ | apply steady_createLog | intros _].
    apply preserves_try_total.
    + apply total_bind; [apply total_restartBot | intros _; apply total_createLog].
    + apply preserves_bind; [apply _ | apply steady_restartBot | intros _].
      apply steady_createLog.
  - apply preserves_ret. apply _.
Qed.

Lemma steady_checkProcessHealth bot bp :
  preserves (steady (bot_id bot)) (checkProcessHealth E bot bp).
Proof.
  unfold checkProcessHealth.
  repeat preserves_step ltac:(first
    [ apply steady_restartBot
    | eapply preserves_weaken;
      [apply same_handles_steady | solve [eauto with handles_db]] ]).
Qed.

(** Each pass of the loop body, for whichever bot, leaves the handle of
    [id] steady. *)
Lemma steady_pingMechanismBot id bot :
  preserves (steady id) (pingMechanismBot E bot).
Proof.
  destruct (decide (bot_id bot = id)) as [<-|Hne].
  - unfold pingMechanismBot.
    apply preserves_bind; [apply _ | | intros bp].
    { eapply preserves_weaken; [apply same_handles_steady|].
      apply same_handles_botProcesses_get. }
    apply preserves_bind; [apply _ | apply steady_reconnectIfDisconnected | intros _].
    apply preserves_bind; [apply _ | | intros _].
    { eapply preserves_weaken; [apply same_handles_steady|].
      apply same_handles_correctStoredStatus. }
    apply steady_checkProcessHealth.
  - eapply preserves_weaken; [intros ? ?; by apply confined_steady|].
    apply confined_pingMechanismBot.
Qed.

Lemma recovered_steady id w w1 w2 :
  recovered id w w1 → steady id w1 w2 → recovered id w w2.
Proof.
  intros (e1 & T1 & C1) (e2 & T2 & C2).
  exists (e2 ++ e1). split; [by rewrite T2, T1, app_assoc|].
  destruct C2 as [Heq|[Hon|[Hnone (l & Hl & Hlev)]]].
  - destruct C1 as [(bp & Hbp & Hst)|(l & Hl & Hlev)].
    + left. exists bp. by rewrite Heq.
    + right. exists l. split; [|done]. apply elem_of_app. by right.
  - by left.
  - right. exists l. split; [|done]. apply elem_of_app. by left.
Qed.

Lemma steady_recovered id w w1 w2 :
  botProcesses w !! id = None →
  steady id w w1 → recovered id w1 w2 → recovered id w w2.
Proof.
  intros Hnone (e1 & T1 & C1) (e2 & T2 & C2).
  exists (e2 ++ e1). split; [by rewrite T2, T1, app_assoc|].
  destruct C2 as [Hon|(l & Hl & Hlev)]; [by left|].
  right. exists l. split; [|done]. apply elem_of_app. by left.
Qed.

(** From an ONLINE handle, a steady step is a recovered one. *)
Lemma online_steady_recovered id w w' :
  online_handle id w → steady id w w' → recovered id w w'.
Proof.
  intros (bp & Hbp & Hst) (evs & Ht & C). exists evs. split; [done|].
  destruct C as [Heq|[Hon|[_ Herr]]].
  - left. exists bp. by rewrite Heq.
  - by left.
  - by right.
Qed.

(** The pass of the loop body for a bot that should run and has no handle
    reconnects it or logs an error. *)
Lemma pingMechanismBot_recovers bot w :
  bot_isRunning bot = true →
  botProcesses w !! bot_id bot = None →
  recovered (bot_id bot) w (snd (pingMechanismBot E bot w)).
Proof.
  intros Hrun Hnone.
  unfold pingMechanismBot, reconnectIfDisconnected, correctStoredStatus,
    checkProcessHealth.
  mrun. rewrite Hnone, Hrun. cbn [disconnected andb]. mrun.
  match goal with
  | |- context [restartBot E ?i ?w1] =>
      destruct (restartBot_run E i w1) as (r & w2 & -> & (evs & Ht & C))
  end.
  mrun. wsimpl in Ht. wsimpl in C.
  eexists (_ :: evs ++ [_]). split.
  { wsimpl. rewrite Ht. cbn. by rewrite <- app_assoc. }
  destruct C as [(bp & Hbp & _)|[Hon|[_ (l & Hl & Hlev)]]].
  - congruence.
  - by left.
  - right. exists l. split; [|done].
    apply elem_of_cons. right. apply elem_of_app. by left.
Qed.

Lemma for_of_pingMechanismBot_recovers bot l w :
  bot ∈ l →
  bot_isRunning bot = true →
  botProcesses w !! bot_id bot = None →
  recovered (bot_id bot) w (snd (for_of l (pingMechanismBot E) w)).
Proof.
  intros Hin Hrun. revert w.
  induction l as [|b l IH]; intros w Hnone; [by apply elem_of_nil in Hin|].
  cbn [for_of]. mrun.
  destruct (total_run _ w (total_pingMechanismBot E b)) as ([] & w1 & Hb).
  pose proof (steady_pingMechanismBot (bot_id bot) b w) as Hst.
  rewrite Hb in *. cbn [snd] in Hst.
  pose proof (preserves_for_of (steady (bot_id bot)) l (pingMechanismBot E)
    (steady_pingMechanismBot (bot_id bot)) w1) as Hrest.
  apply elem_of_cons in Hin as [<-|Hin].
  - pose proof (pingMechanismBot_recovers bot w Hrun Hnone) as Hrec.
    rewrite Hb in Hrec. cbn [snd] in Hrec.
    by eapply recovered_steady.
  - destruct (botProcesses w1 !! bot_id bot) as [bp|] eqn:Hw1.
    + eapply steady_recovered; [done | exact Hst |].
      apply online_steady_recovered; [|done].
      destruct Hst as (evs & _ & [Heq|[Hon|[Hn _]]]); [congruence|done|congruence].
    + eapply steady_recovered; [done | exact Hst |]. by apply IH.
Qed.

(** C1.  One reconciliation tick over a store that holds a bot marked as
    running, for which there is no handle, returns with a handle of status
    ONLINE for that bot in the map, or with a log entry of level error
    among the entries it created. *)
Theorem pingMechanismTick_recovers_or_logs (bot : Bot) (w : World) :
  bot ∈ Storage.getAllBots (storage w) →
  bot_isRunning bot = true →
  botProcesses w !! bot_id bot = None →
  ∃ w' evs,
    pingMechanismTick E w = (Ret tt, w') ∧
    trace w' = evs ++ trace w ∧
    ((∃ bp, botProcesses w' !! bot_id bot = Some bp ∧ bp_status bp = ONLINE)
     ∨ (∃ l, EvLog l ∈ evs ∧ log_level l = "error")).
Proof.
  intros Hin Hrun Hnone.
  pose proof (for_of_pingMechanismBot_recovers bot _ w Hin Hrun Hnone) as Hrec.
  unfold pingMechanismTick. mrun.
  destruct (total_run _ w
    (total_for_of (Storage.getAllBots (storage w)) (pingMechanismBot E)
       (total_pingMechanismBot E))) as ([] & w1 & Hloop).
  rewrite Hloop in *. cbn [snd] in Hrec.
  pose proof (same_handles_broadcastUpdate w1) as Hb.
  destruct (total_run _ w1 (total_broadcastUpdate E)) as ([] & w2 & Hbc).
  rewrite Hbc in *. cbn [snd] in Hb.
  apply (same_handles_steady (bot_id bot)) in Hb.
  destruct (recovered_steady _ _ _ _ Hrec Hb) as (evs & Ht & C).
  by exists w2, evs.
Qed.

End Tick.

(** *** The second rule: correcting the record *)

#[global] Instance untouched_preorder id : PreOrder (untouched id).
Proof.
  split.
  - intros w. split; [done|]. split; [done|]. exists []. by split.
  - intros w1 w2 w3 (P1 & B1 & e1 & T1 & F1) (P2 & B2 & e2 & T2 & F2).
    split; [congruence|]. split; [congruence|].
    exists (e2 ++ e1). split; [by rewrite T2, T1, app_assoc|].
    by apply Forall_app.
Qed.

Lemma confined_untouched k id w w' :
  k ≠ id → confined k w w' → untouched id w w'.
Proof.
  intros Hne [_ Hp Hb (evs & Ht & Hf)].
  split; [by apply Hp|]. split; [by apply Hb|].
  exists evs. split; [done|].
  eapply Forall_impl; [exact Hf|]. intros ev Hev Htouch.
  apply Hne. symmetry. by apply Hev.
Qed.

Lemma corrected_untouched id bp w w1 w2 :
  corrected id bp w w1 → untouched id w1 w2 → corrected id bp w w2.
Proof.
  intros (e1 & bd & l & T1 & Hbd & Hr & Hs & Hl & Hlev & Hmsg & Hp & F1)
         (P2 & B2 & e2 & T2 & F2).
  exists (e2 ++ e1), bd, l. repeat split; try done.
  - by rewrite T2, T1, app_assoc.
  - congruence.
  - apply elem_of_app. by right.
  - congruence.
  - by apply Forall_app.
Qed.

Lemma untouched_corrected id bp w w1 w2 :
  untouched id w w1 → corrected id bp w1 w2 → corrected id bp w w2.
Proof.
  intros (P1 & B1 & e1 & T1 & F1)
         (e2 & bd & l & T2 & Hbd & Hr & Hs & Hl & Hlev & Hmsg & Hp & F2).
  exists (e2 ++ e1), bd, l. repeat split; try done.
  - by rewrite T2, T1, app_assoc.
  - apply elem_of_app. by left.
  - by apply Forall_app.
Qed.

Lemma sends_touch_nothing id p cs evs :
  Forall2 (send_attempt p) cs evs → Forall (fun ev => ¬ touches id ev) evs.
Proof.
  induction 1 as [|c ev cs evs [ok ->] _ IH]; constructor; [|done].
  by intros [].
Qed.

Section Correction.

Variable E : Env.

Lemma updateBot_corrected_read (id : Z) (bd : Bot) (s : MemStorage) :
  Storage.getBot id s = Some bd →
  ∃ bd',
    Storage.getBot id
      (Storage.updateBot id (partial_isRunning true)
         (Storage.updateBot id (partial_status ONLINE) s).2).2 = Some bd' ∧
    bot_isRunning bd' = true ∧ bot_status bd' = Some "ONLINE".
Proof.
  unfold Storage.getBot, Storage.updateBot. intros ->. cbn.
  rewrite JsMap_get_set_eq. cbn. rewrite JsMap_get_set_eq. eauto.
Qed.

(** The pass of the loop body for a bot whose handle is ONLINE, whose
    record says not running and whose connection answers the ping. *)
Lemma pingMechanismBot_corrects bot bp bd w :
  bot_isRunning bot = false →
  botProcesses w !! bot_id bot = Some bp →
  bp_status bp = ONLINE →
  Storage.getBot (bot_id bot) (storage w) = Some bd →
  (∀ n c, bp_discordClient bp = Some c → env_ping E n (bot_id bot) c ≠ -1) →
  ∃ w', pingMechanismBot E bot w = (Ret tt, w') ∧
        corrected (bot_id bot) bp w w'.
Proof.
  intros Hrun Hbp Hst Hbd Hping.
  destruct (updateBot_corrected_read _ _ _ Hbd) as (bd' & Hbd' & Hr' & Hs').
  unfold pingMechanismBot, reconnectIfDisconnected, correctStoredStatus,
    checkProcessHealth.
  mrun. rewrite Hbp, Hrun, Hst. cbn [andb negb]. 
  rewrite bool_decide_eq_true_2 by done. cbn [andb]. mrun.
  run_broadcast E.
  apply Forall2_length in Hsends as Hlen.
  apply (sends_touch_nothing (bot_id bot)) in Hsends.
  apply Forall_rev in Hsends. rewrite rev_involutive in Hsends.
  destruct (bp_discordClient bp) as [c|] eqn:Hc; mrun.
  - destruct (Z.eqb_spec (env_ping E (S (length (clients w) + clock w))
                (bot_id bot) c) (-1)) as [Heq|_].
    { exfalso. by eapply Hping. }
    cbn [negb]. eexists. split; [done|].
    eexists (_ :: sends), bd', _. wsimpl.
    repeat split; try done;
      [left | done | done | constructor; [by intros []|done]].
  - eexists. split; [done|].
    eexists (_ :: sends), bd', _. wsimpl.
    repeat split; try done;
      [left | done | done | constructor; [by intros []|done]].
Qed.

Lemma for_of_pingMechanismBot_untouched id l w :
  Forall (fun b => bot_id b ≠ id) l →
  ∃ w', for_of l (pingMechanismBot E) w = (Ret tt, w') ∧ untouched id w w'.
Proof.
  intros Hl. revert w. induction Hl as [|b l Hb Hl IH]; intros w.
  - exists w. split; [done | reflexivity].
  - cbn [for_of]. mrun.
    destruct (total_run _ w (total_pingMechanismBot E b)) as ([] & w1 & Hrun).
    pose proof (confined_pingMechanismBot E b w) as Hc.
    rewrite Hrun in *. cbn [snd] in Hc.
    destruct (IH w1) as (w' & -> & Hu). exists w'. split; [done|].
    etrans; [|exact Hu]. by eapply confined_untouched.
Qed.

Lemma for_of_pingMechanismBot_corrects bot bp l w :
  NoDup (bot_id <$> l) →
  bot ∈ l →
  bot_isRunning bot = false →
  botProcesses w !! bot_id bot = Some bp →
  bp_status bp = ONLINE →
  is_Some (Storage.getBot (bot_id bot) (storage w)) →
  (∀ n c, bp_discordClient bp = Some c → env_ping E n (bot_id bot) c ≠ -1) →
  ∃ w', for_of l (pingMechanismBot E) w = (Ret tt, w') ∧
        corrected (bot_id bot) bp w w'.
Proof.
  intros Hnd Hin Hrun Hbp Hst Hbd Hping. revert w Hbp Hbd.
  induction l as [|b l IH]; intros w Hbp [bd Hbd];
    [by apply elem_of_nil in Hin|].
  rewrite fmap_cons in Hnd. apply NoDup_cons in Hnd as [Hb Hnd].
  cbn [for_of]. mrun.
  apply elem_of_cons in Hin as [<-|Hin].
  - destruct (pingMechanismBot_corrects bot bp bd w) as (w1 & -> & Hc);
      try done.
    destruct (for_of_pingMechanismBot_untouched (bot_id bot) l w1)
      as (w' & -> & Hu).
    { apply Forall_forall. intros b' Hb' Heq. apply Hb.
      rewrite <- Heq. apply list_elem_of_fmap. by exists b'. }
    exists w'. split; [done|]. by eapply corrected_untouched.
  - assert (bot_id b ≠ bot_id bot) as Hne.
    { intros Heq. apply Hb. rewrite Heq.
      apply list_elem_of_fmap. by exists bot. }
    destruct (total_run _ w (total_pingMechanismBot E b)) as ([] & w1 & Hr).
    pose proof (confined_pingMechanismBot E b w) as Hc.
    rewrite Hr in *. cbn [snd] in Hc.
    apply (confined_untouched _ (bot_id bot)) in Hc as Hu; [|done].
    destruct Hu as (P1 & B1 & _).
    destruct (IH Hnd Hin w1) as (w' & -> & Hcor).
    { by rewrite P1. }
    { rewrite B1. eauto. }
    exists w'. split; [done|].
    eapply untouched_corrected; [|exact Hcor].
    by eapply confined_untouched.
Qed.

Lemma store_wf_ids s :
  store_wf s → NoDup (bot_id <$> Storage.getAllBots s).
Proof.
  intros [Hnd Hid]. unfold Storage.getAllBots, JsMap.values, JsMap.keys in *.
  assert (∀ l : list (Z * Bot),
    Forall (fun kb => bot_id kb.2 = kb.1) l →
    bot_id <$> map snd l = map fst l) as Hmap.
  { induction 1 as [|[k b] l Hkb _ IH]; [done|].
    cbn in *. by rewrite Hkb, <- IH. }
  by rewrite Hmap.
Qed.

Lemma store_wf_getBot s bot :
  store_wf s → bot ∈ Storage.getAllBots s →
  Storage.getBot (bot_id bot) s = Some bot.
Proof.
  intros [Hnd Hid] Hin. unfold Storage.getAllBots, JsMap.values in Hin.
  apply list_elem_of_fmap in Hin as ([k b] & -> & Hin). cbn.
  rewrite Forall_forall in Hid. specialize (Hid _ Hin). cbn in Hid.
  rewrite Hid. by apply JsMap_elem_get.
Qed.

(** C8, as amended.  When the tick finds a bot whose handle is ONLINE and
    whose record says not running, and the connection of that handle
    answers the health probe (its ping is not -1), then after the tick the
    record says running with status ONLINE, the correction was logged at
    level info, the handle is the one it was, and no client was built, no
    login made and no connection destroyed for that bot. *)
Theorem pingMechanismTick_corrects_record (bot : Bot) (bp : BotProcess)
    (w : World) :
  store_wf (storage w) →
  bot ∈ Storage.getAllBots (storage w) →
  bot_isRunning bot = false →
  botProcesses w !! bot_id bot = Some bp →
  bp_status bp = ONLINE →
  (∀ n c, bp_discordClient bp = Some c → env_ping E n (bot_id bot) c ≠ -1) →
  ∃ w' evs bd l,
    pingMechanismTick E w = (Ret tt, w') ∧
    trace w' = evs ++ trace w ∧
    Storage.getBot (bot_id bot) (storage w') = Some bd ∧
    bot_isRunning bd = true ∧
    bot_status bd = Some "ONLINE" ∧
    EvLog l ∈ evs ∧
    log_level l = "info" ∧
    log_message l = "Ping mechanism corrected bot status to online." ∧
    botProcesses w' !! bot_id bot = Some bp ∧
    Forall (fun ev => ¬ touches (bot_id bot) ev) evs.
Proof.
  intros Hwf Hin Hrun Hbp Hst Hping.
  destruct (for_of_pingMechanismBot_corrects bot bp
              (Storage.getAllBots (storage w)) w) as (w1 & Hloop & Hc);
    try done.
  { by apply store_wf_ids. }
  { rewrite (store_wf_getBot _ _ Hwf Hin). eauto. }
  unfold pingMechanismTick. mrun. rewrite Hloop.
  pose proof (confined_broadcastUpdate E (bot_id bot + 1) w1) as Hb.
  destruct (total_run _ w1 (total_broadcastUpdate E)) as ([] & w2 & Hbc).
  rewrite Hbc in *. cbn [snd] in Hb.
  apply (confined_untouched _ (bot_id bot)) in Hb; [|lia].
  destruct (corrected_untouched _ _ _ _ _ Hc Hb)
    as (evs & bd & l & ? & ? & ? & ? & ? & ? & ? & ? & ?).
  by exists w2, evs, bd, l.
Qed.

End Correction.

(** ** The theorems at sample worlds *)

Lemma pingMechanismTick_recovers_or_logs_witness :
  let bot := sample_bot 1 "token" true "ONLINE" in
  let w := sample_world bot false [7] in
  ∃ w' evs,
    pingMechanismTick env_calm w = (Ret tt, w') ∧
    trace w' = evs ++ trace w ∧
    ((∃ bp, botProcesses w' !! bot_id bot = Some bp ∧ bp_status bp = ONLINE)
     ∨ (∃ l, EvLog l ∈ evs ∧ log_level l = "error")).
Proof.
  intros bot w.
  apply (pingMechanismTick_recovers_or_logs env_calm bot w);
    [vm_compute; left | reflexivity | vm_compute; reflexivity].
Defined.

Lemma startBot_refuses_without_token_witness :
  let w := sample_world (sample_bot 1 "" false "OFFLINE") false [] in
  ∃ w' l,
    startBot env_calm 1 w = (Ret false, w') ∧
    trace w' = EvLog l :: trace w ∧
    l ∈ logs (storage w') ∧
    log_level l = "error" ∧
    log_message l = "Bot token not found" ∧
    botProcesses w' = botProcesses w ∧
    nextClient w' = nextClient w.
Proof.
  intros w. apply (startBot_refuses_without_token env_calm 1 w).
  intros bd. vm_compute. intros [= <-]. reflexivity.
Defined.

Lemma stopBot_without_handle_is_noop_witness :
  let w := sample_world (sample_bot 1 "token" false "OFFLINE") false [] in
  stopBot env_calm 1 w = (Ret false, w).
Proof.
  intros w. apply (stopBot_without_handle_is_noop env_calm 1 w).
  vm_compute. reflexivity.
Defined.

Lemma startBot_already_running_witness :
  let bot := sample_bot 1 "token" true "ONLINE" in
  let w := sample_world bot true [] in
  ∃ w' l,
    startBot env_calm 1 w = (Ret true, w') ∧
    trace w' = EvLog l :: trace w ∧
    log_level l = "warning" ∧
    botProcesses w' = botProcesses w ∧
    nextClient w' = nextClient w.
Proof.
  intros bot w.
  apply (startBot_already_running env_calm 1 (sample_handle 1) bot w);
    [vm_compute; reflexivity | reflexivity | discriminate].
Defined.

(** C2 as stated fails: a bot with a handle whose record lost its token
    (an update of the record with an empty token) is refused with false. *)
Lemma startBot_with_handle_refused_without_token :
  let bot := sample_bot 1 "" true "ONLINE" in
  let w := sample_world bot true [] in
  botProcesses w !! 1 = Some (sample_handle 1) ∧
  fst (startBot env_calm 1 w) = Ret false.
Proof. vm_compute. done. Qed.

Lemma stopBot_with_handle_witness :
  let bot := sample_bot 1 "token" true "ONLINE" in
  let w := sample_world bot true [] in
  ∃ w',
    stopBot env_calm 1 w = (Ret true, w') ∧
    botProcesses w' = delete 1 (botProcesses w) ∧
    (∀ bd, Storage.getBot 1 (storage w) = Some bd →
       ∃ bd', Storage.getBot 1 (storage w') = Some bd' ∧
              bot_status bd' = Some "OFFLINE").
Proof.
  intros bot w.
  exact (stopBot_with_handle env_calm 1 (sample_handle 1) w
           ltac:(vm_compute; reflexivity)).
Defined.

(** C4 as stated fails: when destroying the connection throws, the handle
    stays in the map and the status of the record is not set to OFFLINE. *)
Lemma stopBot_keeps_handle_when_destroy_throws :
  let bot := sample_bot 1 "token" true "ONLINE" in
  let w := sample_world bot true [] in
  let w' := snd (stopBot env_destroy_throws 1 w) in
  botProcesses w !! 1 = Some (sample_handle 1) ∧
  fst (stopBot env_destroy_throws 1 w) = Ret false ∧
  botProcesses w' !! 1 = Some (sample_handle 1) ∧
  bot_status <$> Storage.getBot 1 (storage w') = Some (Some "ONLINE").
Proof. vm_compute. done. Qed.

Lemma pingMechanismTick_corrects_record_witness :
  let bot := sample_bot 1 "token" false "OFFLINE" in
  let w := sample_world bot true [7] in
  ∃ w' evs bd l,
    pingMechanismTick env_calm w = (Ret tt, w') ∧
    trace w' = evs ++ trace w ∧
    Storage.getBot (bot_id bot) (storage w') = Some bd ∧
    bot_isRunning bd = true ∧
    bot_status bd = Some "ONLINE" ∧
    EvLog l ∈ evs ∧
    log_level l = "info" ∧
    log_message l = "Ping mechanism corrected bot status to online." ∧
    botProcesses w' !! bot_id bot = Some (sample_handle 1) ∧
    Forall (fun ev => ¬ touches (bot_id bot) ev) evs.
Proof.
  intros bot w.
  apply (pingMechanismTick_corrects_record env_calm bot (sample_handle 1) w).
  - split; [vm_compute; repeat constructor; by intros ?%elem_of_nil
           | by repeat constructor].
  - vm_compute. left.
  - reflexivity.
  - vm_compute. reflexivity.
  - reflexivity.
  - intros n c _. vm_compute. discriminate.
Defined.

(** C8 as stated fails: when the connection of the handle has no
    acknowledged heartbeat (ping -1), the third rule of the same tick
    destroys the connection and the bot is restarted with a new client. *)
Lemma pingMechanismTick_restarts_corrected_bot :
  let bot := sample_bot 1 "token" false "OFFLINE" in
  let w := sample_world bot true [] in
  let w' := snd (pingMechanismTick env_no_heartbeat w) in
  bot ∈ Storage.getAllBots (storage w) ∧
  bot_isRunning bot = false ∧
  botProcesses w !! 1 = Some (sample_handle 1) ∧
  bp_status (sample_handle 1) = ONLINE ∧
  EvDestroy 1 sample_client true ∈ trace w' ∧
  botProcesses w' !! 1 ≠ Some (sample_handle 1).
Proof.
  vm_compute. repeat split; try done.
  - left.
  - repeat constructor.
Qed.

(** C5.  [broadcastUpdate] does not look at [readyState]: with subscribers
    1 (OPEN) and 2 (CLOSED) it calls [send] on both, where [broadcastError]
    on the same state calls it on subscriber 1 only. *)
Theorem broadcastUpdate_sends_to_closed_socket :
  let w := sample_world (sample_bot 1 "token" false "OFFLINE") false [1; 2] in
  env_readyState env_second_closed (clock w) 2 ≠ WebSocket_OPEN ∧
  trace (snd (broadcastUpdate env_second_closed w)) =
    [EvSend 2 (snapshot w) true; EvSend 1 (snapshot w) true] ∧
  trace (snd (broadcastError env_second_closed "System error occurred" w)) =
    [EvSend 1 (ErrorMessage "System error occurred") true].
Proof. vm_compute. done. Qed.

(** * More of the storage *)

Section JsMapMoreFacts.
Context {V : Type}.
Implicit Types m : list (Z * V).

Lemma JsMap_get_None_keys k m : JsMap.get k m = None ↔ k ∉ JsMap.keys m.
Proof.
  unfold JsMap.keys. induction m as [|[k' v] m IH]; cbn.
  - split; [intros _; apply not_elem_of_nil | done].
  - rewrite not_elem_of_cons. destruct (Z.eqb_spec k' k) as [->|Hne].
    + split; [done | by intros [? _]].
    + rewrite IH. split; [by intros ?; split | by intros [_ ?]].
Qed.

(** Setting a key that is not there appends it. *)
Lemma JsMap_set_fresh k v m :
  JsMap.get k m = None → JsMap.set k v m = m ++ [(k, v)].
Proof.
  induction m as [|[k' v'] m IH]; cbn; [done|].
  destruct (Z.eqb_spec k' k); [done|]. intros H. by rewrite IH.
Qed.

Lemma JsMap_keys_set_fresh k v m :
  JsMap.get k m = None → JsMap.keys (JsMap.set k v m) = JsMap.keys m ++ [k].
Proof.
  intros H. rewrite JsMap_set_fresh by done.
  unfold JsMap.keys. by rewrite map_app.
Qed.

Lemma JsMap_get_delete k k' m :
  JsMap.get k' (snd (JsMapMore.delete k m)) =
  if decide (k' = k) then None else JsMap.get k' m.
Proof.
  unfold JsMapMore.delete. cbn [snd].
  induction m as [|[k0 v0] m IH]; [by destruct (decide _)|].
  rewrite filter_cons. cbn [fst JsMap.get].
  destruct (decide (k0 ≠ k)) as [Hne|Heq]; cbn [JsMap.get].
  - destruct (Z.eqb_spec k0 k') as [->|Hk]; [|done].
    by destruct (decide (k' = k)).
  - apply dec_stable in Heq. subst k0. rewrite IH.
    destruct (decide (k' = k)) as [->|Hk]; [done|].
    by destruct (Z.eqb_spec k k').
Qed.

Lemma JsMap_keys_delete k m :
  JsMap.keys (snd (JsMapMore.delete k m)) =
  filter (fun k' => k' ≠ k) (JsMap.keys m).
Proof.
  unfold JsMapMore.delete, JsMap.keys. cbn [snd].
  induction m as [|[k0 v0] m IH]; [done|].
  rewrite filter_cons. cbn [fst map]. rewrite filter_cons.
  destruct (decide (k0 ≠ k)); cbn; by rewrite IH.
Qed.

End JsMapMoreFacts.

Module StorageMoreFacts.
Import StorageMore.

Lemma below_counter_fresh s :
  ids_below_counter s → Storage.getBot (botCurrentId s) s = None.
Proof.
  intros H. apply JsMap_get_None_keys. intros Hin.
  unfold ids_below_counter in H. rewrite Forall_forall in H.
  specialize (H _ Hin). lia.
Qed.

(** X1.  In a store whose keys are below the counter, [createBot] puts the
    new record under an identifier no record had, at the end of the map;
    the record is read back by [getBot], every other record is as it was,
    and the keys stay below the counter. *)
Theorem createBot_fresh_record stringify b s :
  ids_below_counter s →
  Storage.getBot (bot_id (fst (createBot stringify b s))) s = None ∧
  Storage.getBot (bot_id (fst (createBot stringify b s)))
    (snd (createBot stringify b s)) = Some (fst (createBot stringify b s)) ∧
  (∀ k, k ≠ bot_id (fst (createBot stringify b s)) →
     Storage.getBot k (snd (createBot stringify b s)) = Storage.getBot k s) ∧
  Storage.getAllBots (snd (createBot stringify b s)) =
    Storage.getAllBots s ++ [fst (createBot stringify b s)] ∧
  ids_below_counter (snd (createBot stringify b s)).
Proof.
  intros Hinv. pose proof (below_counter_fresh s Hinv) as Hfresh.
  unfold createBot, Storage.getBot, Storage.getAllBots, ids_below_counter.
  cbn [fst snd bots bot_id botCurrentId]. repeat split.
  - exact Hfresh.
  - apply JsMap_get_set_eq.
  - intros k Hk. by apply JsMap_get_set_ne.
  - rewrite JsMap_set_fresh by exact Hfresh.
    unfold JsMap.values. by rewrite map_app.
  - rewrite JsMap_keys_set_fresh by exact Hfresh.
    apply Forall_app. split.
    + eapply Forall_impl; [exact Hinv|]. cbn. intros; lia.
    + repeat constructor. lia.
Qed.

Lemma createBot_fresh_record_witness :
  let s := Storage.initializeDefaultData "a" "b" 1 2 3 in
  let b := {| ib_name := "n"; ib_token := "t"; ib_prefix := None;
              ib_userId := 2; ib_botType := Some "MUSIC";
              ib_iconType := None; ib_scriptContent := None;
              ib_scriptFileName := None; ib_description := None;
              ib_permissions := None; ib_inviteConfig := None;
              ib_additionalFiles := None |} in
  Storage.getBot 3 s = None ∧
  Storage.getBot 3 (snd (createBot (fun _ => "{}") b s)) =
    Some (fst (createBot (fun _ => "{}") b s)).
Proof.
  intros s b.
  destruct (createBot_fresh_record (fun _ => "{}") b s) as (H1 & H2 & _).
  - unfold ids_below_counter. vm_compute. repeat constructor.
  - split; [exact H1 | exact H2].
Defined.

(** X2.  [deleteBot] answers true exactly when the record was there;
    afterwards the record is gone, every other record is as it was and
    keeps its place, and deleting again answers false. *)
Theorem deleteBot_removes id s :
  (fst (deleteBot id s) = true ↔ is_Some (Storage.getBot id s)) ∧
  Storage.getBot id (snd (deleteBot id s)) = None ∧
  (∀ k, k ≠ id →
     Storage.getBot k (snd (deleteBot id s)) = Storage.getBot k s) ∧
  JsMap.keys (bots (snd (deleteBot id s))) =
    filter (fun k => k ≠ id) (JsMap.keys (bots s)) ∧
  fst (deleteBot id (snd (deleteBot id s))) = false.
Proof.
  unfold deleteBot, Storage.getBot. cbn [fst snd bots].
  assert (Hgone : JsMap.get id (JsMapMore.delete id (bots s)).2 = None).
  { rewrite JsMap_get_delete. by destruct (decide _). }
  repeat split.
  - unfold JsMapMore.delete. cbn [fst]. apply bool_decide_eq_true_1.
  - unfold JsMapMore.delete. cbn [fst]. apply bool_decide_eq_true_2.
  - exact Hgone.
  - intros k Hk. rewrite JsMap_get_delete. by destruct (decide _).
  - apply JsMap_keys_delete.
  - unfold JsMapMore.delete at 1. cbn [fst].
    apply bool_decide_eq_false_2. rewrite Hgone. by intros [? ?].
Qed.

(** X3.  [updateBot] on a record that is there stores the merged record:
    [getBot] reads it back, the other records and the order of the map are
    as they were; on a missing identifier it answers undefined and the
    store is the same. *)
Theorem updateBot_read_back id data s :
  match Storage.getBot id s with
  | Some bot =>
      fst (Storage.updateBot id data s) = Some (spread_bot bot data) ∧
      Storage.getBot id (snd (Storage.updateBot id data s)) =
        Some (spread_bot bot data) ∧
      (∀ k, k ≠ id →
         Storage.getBot k (snd (Storage.updateBot id data s)) =
         Storage.getBot k s) ∧
      JsMap.keys (bots (snd (Storage.updateBot id data s))) =
        JsMap.keys (bots s)
  | None => Storage.updateBot id data s = (None, s)
  end.
Proof.
  unfold Storage.updateBot, Storage.getBot.
  destruct (JsMap.get id (bots s)) as [bot|] eqn:Hbot; [|done].
  cbn [fst snd bots]. repeat split.
  - apply JsMap_get_set_eq.
  - intros k Hk. by apply JsMap_get_set_ne.
  - by eapply JsMap_keys_set.
Qed.

End StorageMoreFacts.

Section JsMapInvariants.
Context {V : Type}.
Implicit Types m : list (Z * V).

Lemma JsMap_set_Forall (P : Z * V → Prop) k v m :
  Forall P m → P (k, v) → Forall P (JsMap.set k v m).
Proof.
  intros Hm Hkv. induction Hm as [|[k' v'] m Hx Hm IH]; cbn.
  - by repeat constructor.
  - destruct (Z.eqb_spec k' k); by constructor.
Qed.

Lemma JsMap_keys_set_present k v m :
  is_Some (JsMap.get k m) → JsMap.keys (JsMap.set k v m) = JsMap.keys m.
Proof. intros [v0 H]. by eapply JsMap_keys_set. Qed.

End JsMapInvariants.

Lemma Forall_filter_keep {A} (P Q : A → Prop) `{!∀ x, Decision (Q x)}
    (l : list A) :
  Forall P l → Forall P (filter Q l).
Proof.
  rewrite !Forall_forall. intros Hl x [_ Hx]%list_elem_of_filter. by apply Hl.
Qed.

Module StoreInvariant.
Import StorageMore.

Lemma initial_store_wf cfg1 cfg2 t1 t2 t3 :
  store_wf (Storage.initializeDefaultData cfg1 cfg2 t1 t2 t3) ∧
  ids_below_counter (Storage.initializeDefaultData cfg1 cfg2 t1 t2 t3).
Proof.
  unfold store_wf, ids_below_counter. cbn. repeat split.
  - apply NoDup_cons. split; [|apply NoDup_singleton].
    rewrite list_elem_of_singleton. done.
  - by repeat constructor.
  - repeat constructor; lia.
Qed.

Lemma createBot_keeps_store stringify b s :
  store_wf s → ids_below_counter s →
  store_wf (snd (createBot stringify b s)) ∧
  ids_below_counter (snd (createBot stringify b s)).
Proof.
  intros [Hnd Hid] Hinv.
  pose proof (StorageMoreFacts.below_counter_fresh s Hinv) as Hfresh.
  unfold Storage.getBot in Hfresh.
  unfold createBot, store_wf, ids_below_counter.
  cbn [snd bots botCurrentId]. repeat split.
  - rewrite JsMap_keys_set_fresh by done.
    apply NoDup_app. repeat split; [done| |apply NoDup_singleton].
    intros k Hk ->%list_elem_of_singleton.
    by apply JsMap_get_None_keys in Hfresh.
  - by apply JsMap_set_Forall.
  - rewrite JsMap_keys_set_fresh by done. apply Forall_app. split.
    + eapply Forall_impl; [exact Hinv|]. cbn. intros; lia.
    + repeat constructor. lia.
Qed.

Lemma updateBot_keeps_store id data s :
  p_id data = None →
  store_wf s → ids_below_counter s →
  store_wf (snd (Storage.updateBot id data s)) ∧
  ids_below_counter (snd (Storage.updateBot id data s)).
Proof.
  intros Hdata [Hnd Hid] Hinv. unfold Storage.updateBot.
  destruct (JsMap.get id (bots s)) as [bot|] eqn:Hbot; [|done].
  unfold store_wf, ids_below_counter. cbn [snd bots botCurrentId].
  rewrite (JsMap_keys_set _ _ _ _ Hbot). repeat split; try done.
  apply JsMap_set_Forall; [done|]. cbn. rewrite Hdata. cbn.
  apply JsMap_get_elem in Hbot. rewrite Forall_forall in Hid.
  apply (Hid _ Hbot).
Qed.

Lemma deleteBot_keeps_store id s :
  store_wf s → ids_below_counter s →
  store_wf (snd (deleteBot id s)) ∧ ids_below_counter (snd (deleteBot id s)).
Proof.
  intros [Hnd Hid] Hinv. unfold deleteBot, store_wf, ids_below_counter.
  cbn [snd bots botCurrentId]. rewrite JsMap_keys_delete. repeat split.
  - by apply NoDup_filter.
  - unfold JsMapMore.delete. cbn [snd]. by apply Forall_filter_keep.
  - by apply Forall_filter_keep.
Qed.

Lemma op_keeps_store stringify o s :
  keeps_id o → store_wf s → ids_below_counter s →
  store_wf (op stringify o s) ∧ ids_below_counter (op stringify o s).
Proof.
  destruct o; cbn [op keeps_id]; intros Hk Hwf Hinv.
  - by apply createBot_keeps_store.
  - by apply updateBot_keeps_store.
  - by apply deleteBot_keeps_store.
  - done.
  - done.
Qed.

(** X4.  Whatever sequence of storage operations runs on the store the
    constructor built, as long as no update writes the [id] key, the bot
    map stays keyed by the records' own identifiers, without a key twice,
    and every key stays below the counter (so a later [createBot] never
    overwrites a record). *)
Theorem ops_keep_store stringify cfg1 cfg2 t1 t2 t3 (os : list Op) :
  Forall keeps_id os →
  store_wf (ops stringify os
              (Storage.initializeDefaultData cfg1 cfg2 t1 t2 t3)) ∧
  ids_below_counter (ops stringify os
              (Storage.initializeDefaultData cfg1 cfg2 t1 t2 t3)).
Proof.
  intros Hos.
  generalize (initial_store_wf cfg1 cfg2 t1 t2 t3).
  generalize (Storage.initializeDefaultData cfg1 cfg2 t1 t2 t3).
  induction Hos as [|o os Ho Hos IH]; intros s [Hwf Hinv]; [done|].
  cbn [ops foldl]. apply IH. by apply op_keeps_store.
Qed.

Lemma ops_keep_store_witness :
  let os := [OpUpdateBot 1 (partial_status ONLINE); OpDeleteBot 2] in
  store_wf (ops (fun _ => "{}") os
              (Storage.initializeDefaultData "a" "b" 1 2 3)) ∧
  ids_below_counter (ops (fun _ => "{}") os
              (Storage.initializeDefaultData "a" "b" 1 2 3)).
Proof.
  intros os. apply (ops_keep_store (fun _ => "{}") "a" "b" 1 2 3 os).
  repeat constructor.
Defined.

End StoreInvariant.

Section SliceMore.
Context {A : Type}.
Implicit Types l : list A.

(** With a length to keep of one or more, the general slice is the trim
    the appending operations use. *)
Lemma js_slice_last (limit : Z) l :
  1 ≤ limit → js_slice (- limit) l = slice_last (Z.to_nat limit) l.
Proof.
  intros H. unfold js_slice, slice_last.
  destruct (Z.ltb_spec (- limit) 0); [|lia]. f_equal. lia.
Qed.

Lemma js_slice_drop (start : Z) l :
  0 ≤ start → js_slice start l = drop (Z.to_nat start) l.
Proof.
  intros H. unfold js_slice. destruct (Z.ltb_spec start 0); [lia|].
  destruct (decide (start ≤ Z.of_nat (length l))).
  - f_equal. lia.
  - rewrite !drop_ge by lia. done.
Qed.

Lemma slice_last_snoc n l x :
  ∃ h, slice_last (S n) (l ++ [x]) = h ++ [x].
Proof.
  unfold slice_last. rewrite length_app. cbn [length].
  rewrite drop_app_le by lia. eauto.
Qed.

Lemma reverse_slice_last n l :
  reverse (slice_last n l) = take n (reverse l).
Proof. unfold slice_last. by rewrite take_reverse. Qed.

Lemma StronglySorted_drop (R : relation A) n l :
  StronglySorted R l → StronglySorted R (drop n l).
Proof.
  intros H. rewrite <- (take_drop n l) in H.
  by apply StronglySorted_app_1_r in H.
Qed.

Lemma Forall_drop_keep (P : A → Prop) n l : Forall P l → Forall P (drop n l).
Proof.
  intros H. rewrite <- (take_drop n l) in H. by apply Forall_app in H as [_ ?].
Qed.

End SliceMore.

Module LogFacts.
Import StorageMore.

Lemma getLogs_take (limit : Z) (s : MemStorage) :
  1 ≤ limit →
  getLogs limit s = take (Z.to_nat limit) (reverse (logs s)).
Proof.
  intros H. unfold getLogs. rewrite js_slice_last by done.
  apply reverse_slice_last.
Qed.

Lemma getLogsByBotId_take (botId limit : Z) (s : MemStorage) :
  1 ≤ limit →
  getLogsByBotId botId limit s =
    take (Z.to_nat limit)
      (filter (fun log => log_botId log = Some botId) (reverse (logs s))).
Proof.
  intros H. unfold getLogsByBotId. rewrite js_slice_last by done.
  by rewrite reverse_slice_last, filter_reverse.
Qed.

(** X5.  With a limit of one or more, [getLogs] answers the newest entries
    first and at most [limit] of them: the first [limit] entries of the
    history read backwards. *)
Theorem getLogs_newest_first (limit : Z) (s : MemStorage) :
  1 ≤ limit →
  getLogs limit s = take (Z.to_nat limit) (reverse (logs s)).
Proof.
  intros H. unfold getLogs. rewrite js_slice_last by done.
  apply reverse_slice_last.
Qed.

Lemma getLogs_newest_first_witness :
  getLogs 1 (Storage.initializeDefaultData "a" "b" 1 2 3) =
  take (Z.to_nat 1)
    (reverse (logs (Storage.initializeDefaultData "a" "b" 1 2 3))).
Proof.
  apply (getLogs_newest_first 1 (Storage.initializeDefaultData "a" "b" 1 2 3)).
  lia.
Defined.

(** X6.  A limit of zero does not mean no entries: [slice(-0)] is
    [slice(0)], so [getLogs(0)] answers the whole history, newest first;
    and a negative limit [-n] leaves out the [n] oldest entries. *)
Theorem getLogs_without_positive_limit (limit : Z) (s : MemStorage) :
  limit ≤ 0 →
  getLogs limit s = reverse (drop (Z.to_nat (- limit)) (logs s)) ∧
  (limit = 0 → getLogs limit s = reverse (logs s)).
Proof.
  intros H. unfold getLogs. rewrite js_slice_drop by lia.
  split; [done|]. intros ->. done.
Qed.

Lemma getLogs_without_positive_limit_witness :
  getLogs 0 (Storage.initializeDefaultData "a" "b" 1 2 3) =
  reverse (logs (Storage.initializeDefaultData "a" "b" 1 2 3)).
Proof.
  apply (getLogs_without_positive_limit 0
           (Storage.initializeDefaultData "a" "b" 1 2 3)); lia.
Defined.

(** X7.  With a limit of one or more, [getLogsByBotId] answers the newest
    entries of that bot first, at most [limit] of them, and no entry of
    another bot or of the system. *)
Theorem getLogsByBotId_newest_of_bot (botId limit : Z) (s : MemStorage) :
  1 ≤ limit →
  getLogsByBotId botId limit s =
    take (Z.to_nat limit)
      (filter (fun log => log_botId log = Some botId) (reverse (logs s))) ∧
  Forall (fun log => log_botId log = Some botId)
    (getLogsByBotId botId limit s) ∧
  (length (getLogsByBotId botId limit s) ≤ Z.to_nat limit)%nat.
Proof.
  intros H.
  assert (getLogsByBotId botId limit s =
    take (Z.to_nat limit)
      (filter (fun log => log_botId log = Some botId) (reverse (logs s))))
    as Heq.
  { by apply getLogsByBotId_take. }
  split; [done|]. rewrite Heq. split.
  - apply Forall_take. apply Forall_forall.
    by intros log [? _]%list_elem_of_filter.
  - rewrite length_take. lia.
Qed.

Lemma getLogsByBotId_newest_of_bot_witness :
  Forall (fun log => log_botId log = Some 2)
    (getLogsByBotId 2 5 (Storage.initializeDefaultData "a" "b" 1 2 3)).
Proof.
  apply (getLogsByBotId_newest_of_bot 2 5
           (Storage.initializeDefaultData "a" "b" 1 2 3)). lia.
Defined.

(** X8.  The entry [createLog] returns is the first one [getLogs] answers
    next (for a limit of one or more), and the first one
    [getLogsByBotId] answers for the bot it was written for, unless that
    bot is 0: identifier 0 is stored as null. *)
Theorem createLog_then_getLogs (now limit : Z) (l : InsertLog)
    (s : MemStorage) :
  1 ≤ limit →
  head (getLogs limit (snd (Storage.createLog now l s))) =
    Some (fst (Storage.createLog now l s)) ∧
  (∀ botId, il_botId l = Some botId → botId ≠ 0 →
     head (getLogsByBotId botId limit (snd (Storage.createLog now l s))) =
       Some (fst (Storage.createLog now l s))) ∧
  (il_botId l = Some 0 →
     log_botId (fst (Storage.createLog now l s)) = None).
Proof.
  intros H.
  destruct (slice_last_snoc 999 (logs s) (fst (Storage.createLog now l s)))
    as [h Hh].
  assert (∃ n, Z.to_nat limit = S n) as [n Hn] by (exists (Z.to_nat (limit - 1)); lia).
  repeat split.
  - rewrite getLogs_take by done.
    rewrite StorageFacts.createLog_logs, Hh, reverse_snoc, Hn. done.
  - intros botId Hb Hne.
    rewrite getLogsByBotId_take by done.
    rewrite StorageFacts.createLog_logs, Hh, reverse_snoc, Hn.
    rewrite filter_cons_True; [done|].
    cbn. rewrite Hb. cbn. by destruct (Z.eqb_spec botId 0).
  - intros Hb. cbn. by rewrite Hb.
Qed.

Lemma createLog_then_getLogs_witness :
  let l := {| il_botId := Some 2; il_level := None; il_message := "m" |} in
  let s := Storage.initializeDefaultData "a" "b" 1 2 3 in
  head (getLogs 50 (snd (Storage.createLog 4 l s))) =
    Some (fst (Storage.createLog 4 l s)).
Proof.
  intros l s. apply (createLog_then_getLogs 4 50 l s). lia.
Defined.

Lemma createLog_keeps_ids_increasing now l s :
  ids_increasing s → ids_increasing (snd (Storage.createLog now l s)).
Proof.
  intros (Hs & Hb & Hms & Hmb). unfold ids_increasing.
  rewrite StorageFacts.createLog_logs. cbn [snd fst Storage.createLog
    metricsHistory logCurrentId metricsCurrentId].
  split; [|split; [|done]].
  - unfold slice_last. rewrite fmap_drop. apply StronglySorted_drop.
    rewrite fmap_app. apply StronglySorted_app. split; [|split; [done|]].
    + intros x1 x2 Hx1 ->%list_elem_of_singleton. cbn.
      apply list_elem_of_fmap in Hx1 as (l1 & -> & Hl1).
      rewrite Forall_forall in Hb. by apply Hb.
    + repeat constructor.
  - unfold slice_last. apply Forall_drop_keep, Forall_app. split.
    + eapply Forall_impl; [exact Hb|]. cbn. intros; lia.
    + repeat constructor. cbn. lia.
Qed.

Lemma createMetrics_keeps_ids_increasing now m s :
  ids_increasing s → ids_increasing (snd (Storage.createMetrics now m s)).
Proof.
  intros (Hs & Hb & Hms & Hmb). unfold ids_increasing.
  rewrite StorageFacts.createMetrics_history. cbn [snd fst Storage.createMetrics
    logs logCurrentId metricsCurrentId].
  split; [done|]. split; [done|]. split.
  - unfold slice_last. rewrite fmap_drop. apply StronglySorted_drop.
    rewrite fmap_app. apply StronglySorted_app. split; [|split; [done|]].
    + intros x1 x2 Hx1 ->%list_elem_of_singleton. cbn.
      apply list_elem_of_fmap in Hx1 as (l1 & -> & Hl1).
      rewrite Forall_forall in Hmb. by apply Hmb.
    + repeat constructor.
  - unfold slice_last. apply Forall_drop_keep, Forall_app. split.
    + eapply Forall_impl; [exact Hmb|]. cbn. intros; lia.
    + repeat constructor. cbn. lia.
Qed.

Lemma op_keeps_ids_increasing stringify o s :
  ids_increasing s → ids_increasing (op stringify o s).
Proof.
  destruct o; cbn [op]; intros H.
  - exact H.
  - unfold Storage.updateBot. by destruct (JsMap.get _ _).
  - exact H.
  - by apply createLog_keeps_ids_increasing.
  - by apply createMetrics_keeps_ids_increasing.
Qed.

(** X9.  After any sequence of storage operations on the store the
    constructor built, the identifiers of the stored log entries grow
    strictly along the history and are below the log counter, and the same
    holds of the metric samples: no two stored entries share an identifier,
    also after entries were evicted. *)
Theorem ops_keep_ids_increasing stringify cfg1 cfg2 t1 t2 t3 (os : list Op) :
  ids_increasing (ops stringify os
                    (Storage.initializeDefaultData cfg1 cfg2 t1 t2 t3)) ∧
  NoDup (log_id <$> logs (ops stringify os
                    (Storage.initializeDefaultData cfg1 cfg2 t1 t2 t3))) ∧
  NoDup (m_id <$> metricsHistory (ops stringify os
                    (Storage.initializeDefaultData cfg1 cfg2 t1 t2 t3))).
Proof.
  assert (ids_increasing (Storage.initializeDefaultData cfg1 cfg2 t1 t2 t3))
    as Hinit.
  { unfold ids_increasing. cbn. repeat split; repeat constructor; lia. }
  revert Hinit.
  generalize (Storage.initializeDefaultData cfg1 cfg2 t1 t2 t3).
  assert (∀ l : list Z, StronglySorted Z.lt l → NoDup l) as Hnd.
  { induction 1 as [|x l Hl IH Hx]; constructor; [|done].
    intros Hin. rewrite Forall_forall in Hx. specialize (Hx _ Hin). lia. }
  induction os as [|o os IH]; intros s Hs; cbn [ops foldl].
  - destruct Hs as (? & ? & ? & ?). split; [done|]. split; by apply Hnd.
  - apply IH. by apply op_keeps_ids_increasing.
Qed.

End LogFacts.

(** * Users and registration *)

Module UserFacts.
Import StorageMore.

Lemma find_snoc {A} (f : A → bool) (l : list A) (x : A) :
  List.find f (l ++ [x]) =
  match List.find f l with
  | Some y => Some y
  | None => if f x then Some x else None
  end.
Proof.
  induction l as [|y l IH]; cbn; [done|]. by destruct (f y).
Qed.

Lemma find_username_None name (l : list User) :
  List.find (fun user => String.eqb (user_username user) name) l = None ↔
  name ∉ user_username <$> l.
Proof.
  induction l as [|u l IH]; cbn.
  - split; [intros _; apply not_elem_of_nil | done].
  - rewrite not_elem_of_cons.
    destruct (String.eqb_spec (user_username u) name) as [->|Hne].
    + split; [done | by intros [? _]].
    + rewrite IH. split; [by intros ?; split | by intros [_ ?]].
Qed.

Lemma user_counter_fresh t :
  user_ids_below_counter t → JsMap.get (userCurrentId t) (users t) = None.
Proof.
  intros H. apply JsMap_get_None_keys. intros Hin.
  unfold user_ids_below_counter in H. rewrite Forall_forall in H.
  specialize (H _ Hin). lia.
Qed.

Lemma createUser_values u t :
  user_ids_below_counter t →
  JsMap.values (users (snd (createUser u t))) =
  JsMap.values (users t) ++ [fst (createUser u t)].
Proof.
  intros H. unfold createUser. cbn [fst snd users].
  rewrite JsMap_set_fresh by by apply user_counter_fresh.
  unfold JsMap.values. by rewrite map_app.
Qed.

Lemma createUser_keeps_counter u t :
  user_ids_below_counter t → user_ids_below_counter (snd (createUser u t)).
Proof.
  intros H. pose proof (user_counter_fresh t H) as Hfresh.
  unfold createUser, user_ids_below_counter. cbn [snd users userCurrentId].
  rewrite JsMap_keys_set_fresh by done. apply Forall_app. split.
  - eapply Forall_impl; [exact H|]. cbn. intros; lia.
  - repeat constructor. lia.
Qed.

Lemma createUser_find (u : InsertUser) (t : UserTable) (name : string) :
  user_ids_below_counter t →
  getUserByUsername name (snd (createUser u t)) =
  match getUserByUsername name t with
  | Some old => Some old
  | None => if String.eqb (iu_username u) name
            then Some (fst (createUser u t)) else None
  end.
Proof.
  intros H. unfold getUserByUsername.
  rewrite createUser_values by done. rewrite find_snoc. reflexivity.
Qed.

(** X10.  In a table whose keys are below the counter, [createUser] stores
    the new user under a new identifier: [getUser] reads it back and the
    other users are as they were.  [getUserByUsername] keeps answering the
    user that already had the name, if there was one (the storage itself
    does not refuse a second user of the same name), and answers the new
    user for a name that was free. *)
Theorem createUser_read_back (u : InsertUser) (t : UserTable) :
  user_ids_below_counter t →
  getUser (user_id (fst (createUser u t))) (snd (createUser u t)) =
    Some (fst (createUser u t)) ∧
  (∀ k, k ≠ user_id (fst (createUser u t)) →
     getUser k (snd (createUser u t)) = getUser k t) ∧
  (∀ name,
     getUserByUsername name (snd (createUser u t)) =
     match getUserByUsername name t with
     | Some old => Some old
     | None => if String.eqb (iu_username u) name
               then Some (fst (createUser u t)) else None
     end) ∧
  user_ids_below_counter (snd (createUser u t)).
Proof.
  intros H. repeat split.
  - unfold getUser, createUser. cbn [fst snd users user_id].
    apply JsMap_get_set_eq.
  - intros k Hk. unfold getUser, createUser. cbn [fst snd users user_id] in *.
    by apply JsMap_get_set_ne.
  - intros name. by apply createUser_find.
  - by apply createUser_keeps_counter.
Qed.

Lemma createUser_read_back_witness :
  let u := {| iu_username := "zoe"; iu_password := "pw"; iu_role := None |} in
  getUser 3 (snd (createUser u initialUsers)) =
    Some (fst (createUser u initialUsers)).
Proof.
  intros u. apply (createUser_read_back u initialUsers).
  unfold user_ids_below_counter. vm_compute. repeat constructor.
Defined.

Lemma route_register_keeps req t :
  usernames_unique t → user_ids_below_counter t →
  usernames_unique (snd (route_register req t)) ∧
  user_ids_below_counter (snd (route_register req t)).
Proof.
  intros Hu Hc. unfold route_register.
  destruct req as [data|]; [|done].
  destruct (getUserByUsername (iu_username data) t) eqn:Hfind; [done|].
  cbn [snd]. split; [|by apply createUser_keeps_counter].
  unfold usernames_unique. rewrite createUser_values by done.
  rewrite fmap_app. apply NoDup_app. repeat split; [done| |apply NoDup_singleton].
  intros name Hin ->%list_elem_of_singleton.
  apply find_username_None in Hfind. done.
Qed.

(** X11.  Whatever sequence of registration requests reaches the table
    the constructor built, no two users share a user name. *)
Theorem registers_keep_usernames_unique (reqs : list (option InsertUser)) :
  usernames_unique (registers reqs initialUsers).
Proof.
  assert (usernames_unique initialUsers ∧ user_ids_below_counter initialUsers)
    as Hinit.
  { unfold usernames_unique, user_ids_below_counter. cbn. split.
    - apply NoDup_cons. split; [|apply NoDup_singleton].
      by intros [=]%list_elem_of_singleton.
    - repeat constructor; lia. }
  revert Hinit. generalize initialUsers.
  induction reqs as [|req reqs IH]; intros t [Hu Hc]; cbn [registers foldl].
  - done.
  - apply IH. by apply route_register_keeps.
Qed.

(** X12.  A registration for a name that is taken is refused with 409 and
    changes nothing.  A registration for a free name answers 201, and the
    user found under that name afterwards has the role the request asked
    for, whatever it is, and role user only when the request names none. *)
Theorem route_register_outcome (data : InsertUser) (t : UserTable) :
  user_ids_below_counter t →
  match getUserByUsername (iu_username data) t with
  | Some _ =>
      route_register (Some data) t =
        ({| res_status := 409;
            res_body := JsonMessage "Username already exists" |}, t)
  | None =>
      ∃ user,
        getUserByUsername (iu_username data)
          (snd (route_register (Some data) t)) = Some user ∧
        user_username user = iu_username data ∧
        user_password user = iu_password data ∧
        user_role user = str_or (iu_role data) "user" ∧
        fst (route_register (Some data) t) =
          {| res_status := 201;
             res_body := JsonUser (user_id user) (user_username user)
                                  (user_role user) |}
  end.
Proof.
  intros Hc. unfold route_register.
  destruct (getUserByUsername (iu_username data) t) eqn:Hfind; [done|].
  cbn [fst snd]. exists (fst (createUser data t)).
  rewrite createUser_find, Hfind, String.eqb_refl by done. done.
Qed.

Lemma route_register_outcome_witness :
  let data := {| iu_username := "mallory"; iu_password := "pw";
                 iu_role := Some "owner" |} in
  ∃ user,
    getUserByUsername "mallory"
      (snd (route_register (Some data) initialUsers)) = Some user ∧
    user_username user = "mallory" ∧
    user_password user = "pw" ∧
    user_role user = "owner" ∧
    fst (route_register (Some data) initialUsers) =
      {| res_status := 201;
         res_body := JsonUser (user_id user) (user_username user)
                              (user_role user) |}.
Proof.
  intros data.
  exact (route_register_outcome data initialUsers
           ltac:(unfold user_ids_below_counter; vm_compute; repeat constructor)).
Defined.

End UserFacts.

(** * The verification service *)

Module VerificationFacts.
Import VerificationService.

(** X13.  A code verifies once: after [verifyCode] answered true, every
    further [verifyCode] for that address answers false, whatever the code
    and the time, and changes nothing, and the address stays verified. *)
Theorem verifyCode_once (email code : string) (now : Z)
    (records records' : gmap string VerificationRecord) :
  verifyCode email code now records = (true, records') →
  isVerified email records' = true ∧
  ∀ code' now', verifyCode email code' now' records' = (false, records').
Proof.
  unfold verifyCode, isVerified.
  destruct (records !! email) as [r|] eqn:Hr; [|done].
  destruct (vr_verified r); [done|].
  destruct (Z.ltb _ _); [done|].
  destruct (negb _); [done|]. intros [= <-].
  rewrite lookup_insert_eq. cbn. done.
Qed.

Lemma verifyCode_once_witness :
  let records := snd (createVerification "a@b.c" "123456" 600 true ∅) in
  isVerified "a@b.c" (snd (verifyCode "a@b.c" "123456" 10 records)) = true.
Proof.
  intros records.
  apply (verifyCode_once "a@b.c" "123456" 10 records
           (snd (verifyCode "a@b.c" "123456" 10 records))).
  vm_compute. reflexivity.
Defined.

(** X14.  A wrong code does not use up the right one: while the record is
    neither verified nor expired, [verifyCode] with another code answers
    false and leaves the records as they were, and the right code is still
    accepted at any time up to the expiry. *)
Theorem verifyCode_wrong_then_right (email code : string) (now now' : Z)
    (r : VerificationRecord) (records : gmap string VerificationRecord) :
  records !! email = Some r →
  vr_verified r = false →
  now ≤ vr_expiresAt r →
  now' ≤ vr_expiresAt r →
  code ≠ vr_code r →
  verifyCode email code now records = (false, records) ∧
  fst (verifyCode email (vr_code r) now'
         (snd (verifyCode email code now records))) = true.
Proof.
  intros Hr Hv Hnow Hnow' Hcode.
  assert (verifyCode email code now records = (false, records)) as ->.
  { unfold verifyCode. rewrite Hr, Hv.
    destruct (Z.ltb_spec (vr_expiresAt r) now); [lia|].
    by destruct (String.eqb_spec (vr_code r) code). }
  split; [done|]. cbn [snd]. unfold verifyCode. rewrite Hr, Hv.
  destruct (Z.ltb_spec (vr_expiresAt r) now'); [lia|].
  by rewrite String.eqb_refl.
Qed.

Lemma verifyCode_wrong_then_right_witness :
  let records := snd (createVerification "a@b.c" "123456" 600 true ∅) in
  verifyCode "a@b.c" "000000" 10 records = (false, records) ∧
  fst (verifyCode "a@b.c" "123456" 20
         (snd (verifyCode "a@b.c" "000000" 10 records))) = true.
Proof.
  intros records.
  apply (verifyCode_wrong_then_right "a@b.c" "000000" 10 20
           {| vr_code := "123456"; vr_email := "a@b.c";
              vr_expiresAt := 600; vr_verified := false |} records);
    [vm_compute; reflexivity | reflexivity | vm_compute; discriminate
    | vm_compute; discriminate | discriminate].
Defined.

(** X15.  A check after the expiry removes the record: it answers false
    whatever the code, and from then on the address is not verified and
    the right code is refused at any time, also one before the expiry;
    the records of other addresses are untouched. *)
Theorem verifyCode_expired (email code : string) (now : Z)
    (r : VerificationRecord) (records : gmap string VerificationRecord) :
  records !! email = Some r →
  vr_verified r = false →
  vr_expiresAt r < now →
  verifyCode email code now records = (false, delete email records) ∧
  isVerified email (delete email records) = false ∧
  (∀ code' now',
     verifyCode email code' now' (delete email records) =
       (false, delete email records)) ∧
  (∀ other, other ≠ email →
     delete email records !! other = records !! other).
Proof.
  intros Hr Hv Hexp. repeat split.
  - unfold verifyCode. rewrite Hr, Hv.
    destruct (Z.ltb_spec (vr_expiresAt r) now); [done|lia].
  - unfold isVerified. by rewrite lookup_delete_eq.
  - intros code' now'. unfold verifyCode. by rewrite lookup_delete_eq.
  - intros other Hne. by apply lookup_delete_ne.
Qed.

Lemma verifyCode_expired_witness :
  let records := snd (createVerification "a@b.c" "123456" 600 true ∅) in
  verifyCode "a@b.c" "123456" 601 records = (false, delete "a@b.c" records).
Proof.
  intros records.
  apply (verifyCode_expired "a@b.c" "123456" 601
           {| vr_code := "123456"; vr_email := "a@b.c";
              vr_expiresAt := 600; vr_verified := false |} records);
    [vm_compute; reflexivity | reflexivity | cbn; lia].
Defined.

End VerificationFacts.

(** * More of the lifecycle manager *)

(** [mrun] with the two storage calls added here. *)
Ltac mrun2 :=
  cbv beta iota delta [storage_createBot storage_deleteBot]; mrun.

#[global] Instance same_bots_preorder : PreOrder same_bots.
Proof.
  split.
  - by intros w.
  - intros w1 w2 w3 [H1 C1] [H2 C2]. split; congruence.
Qed.

#[global] Instance running_kept_preorder : PreOrder running_kept.
Proof.
  split.
  - intros w k b Hb Hr. eauto.
  - intros w1 w2 w3 H1 H2 k b Hb Hr.
    destruct (H1 k b Hb Hr) as (b' & Hb' & Hr'). eauto.
Qed.

#[global] Instance store_kept_preorder : PreOrder store_kept.
Proof.
  split.
  - by intros w.
  - intros w1 w2 w3 H1 H2 Hwf Hinv.
    destruct (H1 Hwf Hinv) as [Hwf' Hinv']. by apply H2.
Qed.

Lemma same_bots_running_kept w w' : same_bots w w' → running_kept w w'.
Proof.
  intros [Hb _] k b Hk Hr. exists b. unfold Storage.getBot in *.
  by rewrite Hb.
Qed.

Lemma same_bots_store_kept w w' : same_bots w w' → store_kept w w'.
Proof.
  intros [Hb Hc] Hwf Hinv. unfold store_wf, ids_below_counter in *.
  by rewrite Hb, Hc.
Qed.

Create HintDb bots_db.
Create HintDb running_db.
Create HintDb kept_db.

Section Records.

Variable E : Env.
Variable stringify : InviteConfig -> string.

Lemma same_bots_new_Date : preserves same_bots (new_Date E).
Proof. by intros w. Qed.
Lemma same_bots_storage_getAllBots : preserves same_bots storage_getAllBots.
Proof. by intros w. Qed.
Lemma same_bots_storage_getBot id : preserves same_bots (storage_getBot id).
Proof. by intros w. Qed.
Lemma same_bots_storage_getLatestMetrics :
  preserves same_bots storage_getLatestMetrics.
Proof. by intros w. Qed.
Lemma same_bots_storage_createLog l : preserves same_bots (storage_createLog E l).
Proof. by intros w. Qed.
Lemma same_bots_new_Client id i : preserves same_bots (new_Client id i).
Proof. by intros w. Qed.
Lemma same_bots_client_login id c t : preserves same_bots (client_login E id c t).
Proof. intros w. unfold client_login. by destruct (env_login _ _ _ _ _). Qed.
Lemma same_bots_client_destroy id c : preserves same_bots (client_destroy E id c).
Proof. intros w. unfold client_destroy. by destruct (env_destroy _ _ _ _). Qed.
Lemma same_bots_client_ws_ping id c : preserves same_bots (client_ws_ping E id c).
Proof. by intros w. Qed.
Lemma same_bots_ws_readyState ws : preserves same_bots (ws_readyState E ws).
Proof. by intros w. Qed.
Lemma same_bots_ws_send ws p : preserves same_bots (ws_send E ws p).
Proof. intros w. unfold ws_send. by destruct (env_send _ _ _ _). Qed.
Lemma same_bots_delay ms : preserves same_bots (delay ms).
Proof. by intros w. Qed.
Lemma same_bots_botProcesses_get id : preserves same_bots (botProcesses_get id).
Proof. by intros w. Qed.
Lemma same_bots_botProcesses_has id : preserves same_bots (botProcesses_has id).
Proof. by intros w. Qed.
Lemma same_bots_botProcesses_set id bp :
  preserves same_bots (botProcesses_set id bp).
Proof. by intros w. Qed.
Lemma same_bots_botProcesses_delete id :
  preserves same_bots (botProcesses_delete id).
Proof. by intros w. Qed.
Lemma same_bots_clients_get : preserves same_bots clients_get.
Proof. by intros w. Qed.
Lemma same_bots_client_emits id c : preserves same_bots (client_emits E id c).
Proof. by intros w. Qed.
Lemma same_bots_setupBotMetricsCollection id c :
  preserves same_bots (setupBotMetricsCollection id c).
Proof. by intros w. Qed.

Hint Resolve same_bots_new_Date same_bots_storage_getAllBots
  same_bots_storage_getBot same_bots_storage_getLatestMetrics
  same_bots_storage_createLog same_bots_new_Client same_bots_client_login
  same_bots_client_destroy same_bots_client_ws_ping same_bots_ws_readyState
  same_bots_ws_send same_bots_delay same_bots_botProcesses_get
  same_bots_botProcesses_has same_bots_botProcesses_set
  same_bots_botProcesses_delete same_bots_clients_get
  same_bots_client_emits same_bots_setupBotMetricsCollection : bots_db.

Ltac bots_steps := repeat preserves_step ltac:(eauto with bots_db).

Lemma same_bots_createLog l : preserves same_bots (createLog E l).
Proof. unfold createLog. bots_steps. Qed.

Lemma same_bots_sendStatusUpdateToClient ws :
  preserves same_bots (sendStatusUpdateToClient E ws).
Proof. unfold sendStatusUpdateToClient. bots_steps. Qed.

Hint Resolve same_bots_createLog same_bots_sendStatusUpdateToClient : bots_db.

Lemma same_bots_broadcastUpdate : preserves same_bots (broadcastUpdate E).
Proof. unfold broadcastUpdate. bots_steps. Qed.

Lemma same_bots_broadcastError m : preserves same_bots (broadcastError E m).
Proof. unfold broadcastError. bots_steps. Qed.

Hint Resolve same_bots_broadcastUpdate : bots_db.

#[local] Instance status_only_preorder id : PreOrder (status_only id).
Proof.
  split.
  - intros w. repeat split; try done.
    destruct (Storage.getBot id (storage w)) as [b|]; [|done].
    exists b. split; [done | by left].
  - intros w1 w2 w3 (Hi1 & Hk1 & Ho1 & Hw1) (Hi2 & Hk2 & Ho2 & Hw2).
    split; [congruence|]. split; [congruence|]. split.
    + intros k Hk. rewrite Ho2, Ho1; done.
    + destruct (Storage.getBot id (storage w1)) as [b1|].
      * destruct Hw1 as (b2 & Hb2 & Hs12). rewrite Hb2 in Hw2.
        destruct Hw2 as (b3 & Hb3 & Hs23). exists b3. split; [done|].
        by eapply status_written_trans.
      * by rewrite Hw1 in Hw2.
Qed.

Lemma listened_status_only id w w' : listened id w w' → status_only id w w'.
Proof. by intros [_ _ _ Hi Hk Ho Hw _]. Qed.

Lemma same_bots_status_only id w w' : same_bots w w' → status_only id w w'.
Proof.
  intros [Hb Hc]. unfold status_only, Storage.getBot. rewrite Hb.
  repeat split; try done.
  destruct (JsMap.get id (bots (storage w))) as [b|]; [|done].
  exists b. split; [done | by left].
Qed.

Ltac status_leaf :=
  first
    [ eapply preserves_weaken;
      [apply listened_status_only | apply listened_emit]
    | eapply preserves_weaken;
      [apply same_bots_status_only | solve [eauto with bots_db]] ].

Lemma status_only_startBot id : preserves (status_only id) (startBot E id).
Proof.
  unfold startBot, token_not_found.
  repeat preserves_step ltac:(status_leaf).
Qed.

Lemma startBot_silent_same_bots id w :
  (∀ n c, env_emits E n id c = []) →
  bots (storage (snd (startBot E id w))) = bots (storage w).
Proof.
  intros Hemit. unfold startBot. mrun.
  destruct (Storage.getBot id (storage w)) as [bd|]; [|done].
  destruct (negb (str_truthy (bot_token bd))); [done|].
  destruct (bool_decide _); [done|]. cbv zeta.
  destruct (botTemplates !! _); mrun; rewrite Hemit;
    cbn [once_ready for_of]; mrun;
    by destruct (env_login _ _ _ _ _).
Qed.

(** X16.  What [startBot] has written of the bot records when it returns
    is at most the status of its own bot, and that by the listeners it
    registers: the counter and the keys of the bot map and the records
    of the other bots are the same, and the record of the bot is the same
    up to a status ONLINE or WARNING (name, token and running flag
    included); and when the client emits nothing while the login is
    awaited, no record is written at all. *)
Theorem startBot_writes_only_status (id : Z) (w : World) :
  status_only id w (snd (startBot E id w)) ∧
  ((∀ n c, env_emits E n id c = []) →
   bots (storage (snd (startBot E id w))) = bots (storage w)).
Proof.
  split; [apply status_only_startBot | apply startBot_silent_same_bots].
Qed.

(** *** What the operations keep of the records *)

(** An update that writes neither [id] nor a false [isRunning]. *)
Lemma updateBot_keeps_running id data :
  p_isRunning data ≠ Some false →
  preserves running_kept (storage_updateBot id data).
Proof.
  intros Hd w k b Hk Hr. cbn. unfold Storage.updateBot, Storage.getBot in *.
  destruct (JsMap.get id (bots (storage w))) as [bot|] eqn:Hbot; cbn; [|eauto].
  destruct (decide (k = id)) as [->|Hne].
  - rewrite JsMap_get_set_eq. eexists. split; [done|]. cbn.
    assert (bot = b) as -> by congruence.
    destruct (p_isRunning data) as [[]|]; cbn; done.
  - rewrite JsMap_get_set_ne by done. eauto.
Qed.

Lemma updateBot_store_kept id data :
  p_id data = None → preserves store_kept (storage_updateBot id data).
Proof.
  intros Hd w Hwf Hinv. cbn. by apply StoreInvariant.updateBot_keeps_store.
Qed.

Lemma createBot_store_kept data :
  preserves store_kept (storage_createBot stringify data).
Proof.
  intros w Hwf Hinv. cbn. by apply StoreInvariant.createBot_keeps_store.
Qed.

Lemma deleteBot_store_kept id : preserves store_kept (storage_deleteBot id).
Proof.
  intros w Hwf Hinv. cbn. by apply StoreInvariant.deleteBot_keeps_store.
Qed.

Ltac running_leaf :=
  first
    [ solve [eauto with running_db]
    | apply updateBot_keeps_running; discriminate
    | eapply preserves_weaken;
      [apply same_bots_running_kept | solve [eauto with bots_db]] ].

Ltac running_steps := repeat preserves_step ltac:(running_leaf).

Ltac kept_leaf :=
  first
    [ solve [eauto with kept_db]
    | apply updateBot_store_kept; reflexivity
    | apply createBot_store_kept
    | apply deleteBot_store_kept
    | eapply preserves_weaken;
      [apply same_bots_store_kept | solve [eauto with bots_db]] ].

Ltac kept_steps := repeat preserves_step ltac:(kept_leaf).

Lemma updateBot_status_keeps_running id st :
  preserves running_kept (storage_updateBot id (partial_status st)).
Proof. apply updateBot_keeps_running. discriminate. Qed.

Lemma updateBot_status_store_kept id st :
  preserves store_kept (storage_updateBot id (partial_status st)).
Proof. by apply updateBot_store_kept. Qed.

Lemma running_kept_startBot id : preserves running_kept (startBot E id).
Proof.
  unfold startBot, token_not_found, emit, onReady, onError, onDisconnect,
    onReconnecting, updateBotStatus.
  running_steps.
Qed.

Lemma store_kept_startBot id : preserves store_kept (startBot E id).
Proof.
  unfold startBot, token_not_found, emit, onReady, onError, onDisconnect,
    onReconnecting, updateBotStatus.
  kept_steps.
Qed.

Hint Resolve running_kept_startBot : running_db.
Hint Resolve store_kept_startBot : kept_db.

Lemma running_kept_stopBot id : preserves running_kept (stopBot E id).
Proof. unfold stopBot, updateBotStatus. running_steps. Qed.

Lemma store_kept_stopBot id : preserves store_kept (stopBot E id).
Proof. unfold stopBot, updateBotStatus. kept_steps. Qed.

Hint Resolve running_kept_stopBot : running_db.
Hint Resolve store_kept_stopBot : kept_db.

Lemma running_kept_restartBot id : preserves running_kept (restartBot E id).
Proof. unfold restartBot. running_steps. Qed.

Lemma store_kept_restartBot id : preserves store_kept (restartBot E id).
Proof. unfold restartBot. kept_steps. Qed.

Hint Resolve running_kept_restartBot : running_db.
Hint Resolve store_kept_restartBot : kept_db.

Lemma running_kept_pingMechanismTick :
  preserves running_kept (pingMechanismTick E).
Proof.
  unfold pingMechanismTick, pingMechanismBot, reconnectIfDisconnected,
    correctStoredStatus, checkProcessHealth, updateBotStatus,
    updateBotMetrics.
  running_steps.
Qed.

Lemma store_kept_pingMechanismTick : preserves store_kept (pingMechanismTick E).
Proof.
  unfold pingMechanismTick, pingMechanismBot, reconnectIfDisconnected,
    correctStoredStatus, checkProcessHealth, updateBotStatus,
    updateBotMetrics.
  kept_steps.
Qed.

Lemma running_kept_recoverRunningBots :
  preserves running_kept (recoverRunningBots E).
Proof. unfold recoverRunningBots, recoverBot. running_steps. Qed.

Lemma store_kept_recoverRunningBots :
  preserves store_kept (recoverRunningBots E).
Proof. unfold recoverRunningBots, recoverBot. kept_steps. Qed.

Lemma store_kept_createBot data :
  preserves store_kept (createBot E stringify data).
Proof. unfold createBot. kept_steps. Qed.

(** X17.  No method of the manager ever takes back the running flag: a
    record that says [isRunning] before [startBot], [stopBot],
    [restartBot], a reconciliation tick or the startup recovery is still
    there and still says so afterwards.  In particular stopping a bot does
    not clear the flag the tick restarts bots by. *)
Theorem manager_never_clears_isRunning (id k : Z) (b : Bot) (w : World) :
  Storage.getBot k (storage w) = Some b →
  bot_isRunning b = true →
  ∀ w',
    w' = snd (startBot E id w) ∨ w' = snd (stopBot E id w) ∨
    w' = snd (restartBot E id w) ∨ w' = snd (pingMechanismTick E w) ∨
    w' = snd (recoverRunningBots E w) →
    ∃ b', Storage.getBot k (storage w') = Some b' ∧ bot_isRunning b' = true.
Proof.
  intros Hb Hr w' Hw'.
  assert (running_kept w w') as Hk.
  { destruct Hw' as [-> | [-> | [-> | [-> | ->]]]].
    - apply running_kept_startBot.
    - apply running_kept_stopBot.
    - apply running_kept_restartBot.
    - apply running_kept_pingMechanismTick.
    - apply running_kept_recoverRunningBots. }
  by apply (Hk k b).
Qed.

(** X18.  The manager keeps the store well formed: when the bot map is
    keyed by the records' own identifiers, without a key twice and with
    every key below the counter, it is so again after [createBot],
    [startBot], [stopBot], [restartBot], a reconciliation tick or the
    startup recovery. *)
Theorem manager_keeps_store_wf (id : Z) (data : InsertBot) (w : World) :
  store_wf (storage w) →
  ids_below_counter (storage w) →
  ∀ w',
    w' = snd (createBot E stringify data w) ∨
    w' = snd (startBot E id w) ∨ w' = snd (stopBot E id w) ∨
    w' = snd (restartBot E id w) ∨ w' = snd (pingMechanismTick E w) ∨
    w' = snd (recoverRunningBots E w) →
    store_wf (storage w') ∧ ids_below_counter (storage w').
Proof.
  intros Hwf Hinv w' Hw'.
  assert (store_kept w w') as Hk.
  { destruct Hw' as [->|[-> | [-> | [-> | [-> | ->]]]]].
    - apply store_kept_createBot.
    - apply store_kept_startBot.
    - apply store_kept_stopBot.
    - apply store_kept_restartBot.
    - apply store_kept_pingMechanismTick.
    - apply store_kept_recoverRunningBots. }
  by apply Hk.
Qed.

End Records.

Section StartMore.

Variable E : Env.
Variable stringify : InviteConfig -> string.

(** The client [startBot] builds for a bot has the intents of the bot's
    template, those of the default when there is none. *)
Lemma new_Client_intentsFor (id : Z) (bd : Bot) :
  match botTemplates !! str_or (bot_botType bd) "simple" with
  | Some intents => new_Client id intents
  | None => new_Client id [Guilds; GuildMessages]
  end = new_Client id (intentsFor bd).
Proof. unfold intentsFor. by destruct (botTemplates !! _). Qed.

(** X19.  For a bot with a token and without a handle, [startBot] builds
    one client, with the intents of the bot's type, and logs in once.
    While the login is awaited the listeners may run: they make no call on
    a connection, leave the handle map alone and write at most the status
    of the bot's record.  When the login returns, [startBot] answers true
    and the handle is registered with status ONLINE; when it throws,
    [startBot] answers false, the error is logged at level error with its
    message (or "Unknown error") and no handle is registered.  When the
    client emits nothing the store is untouched by a start that succeeds;
    when it emits ['ready'], the record says ONLINE, the entry "is now
    online" is logged and the sampler is registered, all before the handle
    exists. *)
Theorem startBot_login_outcome (id : Z) (bd : Bot) (w : World) :
  Storage.getBot id (storage w) = Some bd →
  bot_token bd ≠ "" →
  botProcesses w !! id = None →
  let c := {| client_no := nextClient w; client_intents := intentsFor bd |} in
  ∃ r w' heard evs bd',
    startBot E id w = (Ret r, w') ∧
    nextClient w' = S (nextClient w) ∧
    trace heard = evs ++ EvNewClient id c :: trace w ∧
    Forall quiet evs ∧
    botProcesses heard = botProcesses w ∧
    Storage.getBot id (storage heard) = Some bd' ∧
    status_written bd bd' ∧
    Storage.getBot id (storage w') = Some bd' ∧
    match env_login E (clock heard) id c (bot_token bd) with
    | None =>
        r = true ∧
        botProcesses w' =
          <[id := {| bp_botId := id; bp_discordClient := Some c;
                     bp_status := ONLINE;
                     bp_startTime := Some (env_now E (S (clock heard)));
                     bp_pid := Some (env_pid E);
                     bp_memory := Some 100 |}]> (botProcesses w) ∧
        storage w' = storage heard ∧
        trace w' = EvLogin id c (bot_token bd) true :: trace heard
    | Some e =>
        r = false ∧
        botProcesses w' = botProcesses w ∧
        ∃ l,
          trace w' = EvLog l :: EvLogin id c (bot_token bd) false
                       :: trace heard ∧
          l ∈ logs (storage w') ∧
          log_level l = "error" ∧
          log_message l = "Failed to start: " +:+ error_message e
    end ∧
    ((∀ n, env_emits E n id c = []) →
       evs = [] ∧ storage heard = storage w) ∧
    ((∀ n, env_emits E n id c = [EmReady]) →
       bd' = spread_bot bd (partial_status ONLINE) ∧
       ∃ l sends,
         evs = EvSetInterval id c 60000 :: EvLog l :: sends ∧
         log_level l = "info" ∧
         log_message l = "Bot " +:+ bot_name bd +:+ " is now online").
Proof.
  intros Hbd Htok Hnone c. unfold startBot.
  cbv beta iota zeta delta
    [mbind M_bind mret M_ret try_catch storage_getBot botProcesses_has].
  rewrite Hbd. unfold str_truthy.
  destruct (String.eqb_spec (bot_token bd) ""); [done|]. cbn [negb].
  rewrite Hnone, bool_decide_eq_false_2 by (by intros [? ?]).
  rewrite (new_Client_intentsFor id bd). mrun. fold c.
  match goal with
  | |- context [for_of ?l (emit E id bd c) ?w0] =>
      destruct (emit_run E id bd c l w0) as (heard & Hrun & Hheard);
      rewrite Hrun
  end.
  destruct Hheard as [Hp _ Hn _ _ _ Hown (evs & Ht & Hq)].
  cbn in Hp, Hn, Hown, Ht. rewrite Hbd in Hown.
  destruct Hown as (bd' & Hbd' & Hw).
  assert ((∀ n, env_emits E n id c = []) →
          evs = [] ∧ storage heard = storage w) as Hquiet.
  { intros Hemit. rewrite Hemit in Hrun. cbn in Hrun.
    unfold mret, M_ret in Hrun. injection Hrun as <-. cbn in Ht. split; [|reflexivity].
    apply (app_inv_tail (EvNewClient id c :: trace w)). by rewrite <- Ht. }
  assert ((∀ n, env_emits E n id c = [EmReady]) →
          bd' = spread_bot bd (partial_status ONLINE) ∧
          ∃ l sends,
            evs = EvSetInterval id c 60000 :: EvLog l :: sends ∧
            log_level l = "info" ∧
            log_message l = "Bot " +:+ bot_name bd +:+ " is now online")
    as Hready.
  { intros Hemit. rewrite Hemit in Hrun. cbn [once_ready for_of] in Hrun.
    revert Hrun Hbd' Ht.
    unfold emit, onReady, setupBotMetricsCollection. mrun.
    unfold Storage.updateBot, Storage.getBot in *. rewrite Hbd.
    cbn [fst snd].
    run_broadcast E. intros [= <-]. wsimpl.
    unfold Storage.createLog. cbn [bots snd fst].
    rewrite JsMap_get_set_eq. intros [= <-] Ht. split; [done|].
    eexists _, sends. split.
    - apply (app_inv_tail (EvNewClient id c :: trace w)). rewrite <- Ht.
      reflexivity.
    - split; reflexivity. }
  destruct (env_login E (clock heard) id c (bot_token bd)) as [e|] eqn:Hlogin.
  - eexists false, _, heard, evs, bd'. split; [reflexivity|]. wsimpl.
    rewrite Hlogin. split_and!; try done.
    eexists. split_and!; try done. apply createLog_logged.
  - eexists true, _, heard, evs, bd'. split; [reflexivity|]. wsimpl.
    rewrite Hlogin. split_and!; try done. by rewrite Hp.
Qed.

(** Whatever the type of the bot, its client is built with the two
    public intents first; anything more is asked only for the types
    MUSIC and advanced (voice states) and MODERATION (bans). *)
Lemma intentsFor_public (bd : Bot) :
  intentsFor bd = publicIntents ∨
  (intentsFor bd = publicIntents ++ [GuildVoiceStates] ∧
   (bot_botType bd = Some "MUSIC" ∨ bot_botType bd = Some "advanced")) ∨
  (intentsFor bd = publicIntents ++ [GuildBans] ∧
   bot_botType bd = Some "MODERATION").
Proof.
  unfold intentsFor, botTemplates.
  assert (∀ t, t ≠ "simple" → str_or (bot_botType bd) "simple" = t →
               bot_botType bd = Some t) as Htype.
  { intros t Hne. unfold str_or. destruct (bot_botType bd) as [s|]; [|done].
    destruct (str_truthy s); [by intros -> | done]. }
  rewrite !lookup_insert, lookup_empty.
  repeat case_decide; try (by left).
  - right; left. split; [done|]. right. by apply Htype.
  - right; right. split; [done|]. by apply Htype.
  - right; left. split; [done|]. left. by apply Htype.
Qed.

(** X22.  [createBot] never answers null.  It stores a record that says
    not running and OFFLINE and answers that record as it was created.
    With an empty token it builds no client, leaves the handle map alone
    and the stored record is the answer.  With a token it makes a start
    attempt on the new identifier, after which the bot has an ONLINE handle
    or an error was logged; the start writes at most the status of the
    stored record, by its listeners, so that the stored record still says
    not running, while the answer says OFFLINE whatever was written; and
    when the client emits nothing the stored record is the answer. *)
Theorem createBot_stores_then_starts (data : InsertBot) (w : World) :
  botProcesses w !! botCurrentId (storage w) = None →
  ∃ bot stored w' evs,
    createBot E stringify data w = (Ret (Some bot), w') ∧
    trace w' = evs ++ trace w ∧
    bot = fst (StorageMore.createBot stringify data (storage w)) ∧
    bot_isRunning bot = false ∧
    bot_status bot = Some "OFFLINE" ∧
    Storage.getBot (bot_id bot) (storage w') = Some stored ∧
    status_written bot stored ∧
    bot_isRunning stored = false ∧
    (ib_token data = "" →
       stored = bot ∧
       botProcesses w' = botProcesses w ∧ nextClient w' = nextClient w) ∧
    (ib_token data ≠ "" →
       online_handle (bot_id bot) w' ∨ error_logged evs) ∧
    ((∀ n c, env_emits E n (bot_id bot) c = []) → stored = bot).
Proof.
  intros Hnone. unfold createBot.
  destruct (bool_decide (additionalFiles data ≠ [])); mrun2;
    unfold str_truthy;
    destruct (String.eqb_spec (ib_token data) "") as [Heq|Hne];
    cbn [negb]; mrun2.
  1,3: (eexists _, _, _, _; split; [reflexivity|]; wsimpl).
  1: split; [by instantiate (1 := [_; _])|].
  2: split; [by instantiate (1 := [])|].
  1,2: (split; [reflexivity|]; split; [reflexivity|]; split; [reflexivity|];
        split;
        [unfold Storage.getBot, StorageMore.createBot, Storage.createLog;
         cbn [fst snd bots bot_id]; apply JsMap_get_set_eq|];
        split; [by left|]; by split_and!).
  all: match goal with
       | |- context [startBot E ?i ?w1] =>
           destruct (total_run _ w1 (total_startBot E i)) as (r & w2 & Hrun);
           pose proof (startBot_settled E i w1) as (e2 & Ht2 & Hcase);
           pose proof (status_only_startBot E i w1) as (_ & _ & _ & Hown);
           pose proof (startBot_silent_same_bots E i w1) as Hsilent;
           rewrite Hrun in *; cbn [snd] in Ht2, Hcase, Hown, Hsilent
       end.
  all: mrun; wsimpl in Ht2; wsimpl in Hcase; wsimpl in Hown;
       wsimpl in Hsilent.
  all: unfold Storage.getBot, StorageMore.createBot, Storage.createLog
         in Hown, Hsilent;
       cbn [fst snd bots bot_id] in Hown, Hsilent;
       rewrite JsMap_get_set_eq in Hown;
       destruct Hown as (stored & Hstored & Hw).
  1: eexists _, stored, w2, (e2 ++ [_; _]).
  2: eexists _, stored, w2, (e2 ++ []).
  all: split; [reflexivity|].
  all: split; [by rewrite Ht2, <- app_assoc|].
  all: split; [reflexivity|]; split; [reflexivity|]; split; [reflexivity|].
  all: split; [exact Hstored|]; split; [exact Hw|].
  all: split;
    [by apply status_written_fields in Hw as (_ & _ & -> & _)|].
  all: split; [done|]; split.
  1,3: intros _;
    destruct Hcase as [(bp & Hbp & _)|[Hon|[_ (l & Hl & Hlev)]]];
    [ unfold StorageMore.createBot, Storage.createLog in Hbp;
      cbn [fst snd bot_id botCurrentId] in Hbp; congruence
    | by left
    | right; exists l; split; [|done]; apply elem_of_app; by left ].
  all: intros Hemit; specialize (Hsilent Hemit);
       unfold Storage.getBot in Hstored; rewrite Hsilent in Hstored;
       rewrite JsMap_get_set_eq in Hstored; injection Hstored as <-;
       reflexivity.
Qed.

End StartMore.

(** ** Loops over the bot records *)

Section Loops.

Variable E : Env.

(** A loop whose passes are confined to their own bot, over records of
    pairwise different identifiers: what the pass for [id] establishes
    from [P] holds after the loop, if nothing but that pass can disturb
    [P] and [Q]. *)
Lemma for_of_one (f : Bot → M unit) (id : Z) (P Q : World → Prop)
    (l : list Bot) (bot : Bot) :
  (∀ b, total (f b)) →
  (∀ b, preserves (confined (bot_id b)) (f b)) →
  NoDup (bot_id <$> l) →
  bot ∈ l →
  bot_id bot = id →
  (∀ w w', untouched id w w' → P w → P w') →
  (∀ w w', untouched id w w' → Q w → Q w') →
  (∀ w, P w → Q (snd (f bot w))) →
  ∀ w, P w → Q (snd (for_of l f w)).
Proof.
  intros Htot Hconf Hnd Hin Hid HP HQ Hstep.
  assert (Hothers : ∀ l' : list Bot, Forall (fun b => bot_id b ≠ id) l' →
            ∀ w, untouched id w (snd (for_of l' f w))).
  { induction 1 as [|b l' Hb Hl' IH]; intros w; cbn [for_of].
    - cbn. reflexivity.
    - mrun. destruct (total_run _ w (Htot b)) as ([] & w1 & Hrun).
      pose proof (Hconf b w) as Hc. rewrite Hrun in *. cbn [snd] in Hc.
      etrans; [by eapply confined_untouched | apply IH]. }
  induction l as [|b l IH]; intros w Hw; [by apply elem_of_nil in Hin|].
  rewrite fmap_cons in Hnd. apply NoDup_cons in Hnd as [Hb Hnd].
  cbn [for_of]. mrun.
  destruct (total_run _ w (Htot b)) as ([] & w1 & Hrun). rewrite Hrun.
  apply elem_of_cons in Hin as [<-|Hin].
  - eapply HQ; [apply Hothers|].
    + apply Forall_forall. intros b' Hb' Heq. apply Hb.
      rewrite Hid, <- Heq. apply list_elem_of_fmap. by exists b'.
    + pose proof (Hstep w Hw) as Hq. by rewrite Hrun in Hq.
  - assert (bot_id b ≠ id) as Hne.
    { intros Heq. apply Hb. rewrite Heq, <- Hid.
      apply list_elem_of_fmap. by exists bot. }
    apply IH; [done|done|]. eapply HP; [|exact Hw].
    pose proof (Hconf b w) as Hc. rewrite Hrun in Hc. cbn [snd] in Hc.
    by eapply confined_untouched.
Qed.

Lemma total_recoverBot bot : total (recoverBot E bot).
Proof. unfold recoverBot. total_steps. apply total_createLog. Qed.

Lemma confined_recoverBot bot :
  preserves (confined (bot_id bot)) (recoverBot E bot).
Proof.
  unfold recoverBot.
  repeat preserves_step ltac:(first
    [ apply confined_startBot | apply confined_createLog ]).
Qed.

Lemma total_recoverRunningBots : total (recoverRunningBots E).
Proof. unfold recoverRunningBots. total_steps. Qed.

(** The pass of the recovery loop is [startBot] followed by the success
    entry, whatever [startBot] answered. *)
Lemma recoverBot_run bot w :
  ∃ r w1 l,
    startBot E (bot_id bot) w = (Ret r, w1) ∧
    recoverBot E bot w =
      (Ret tt, advance (EvLog l)
                 (set_storage
                    (snd (Storage.createLog (env_now E (clock w1))
                       {| il_botId := Some (bot_id bot);
                          il_level := Some "info";
                          il_message := "Bot automatically recovered after system restart." |}
                       (storage w1))) w1)) ∧
    log_level l = "info" ∧
    log_message l = "Bot automatically recovered after system restart." ∧
    log_botId l = num_or_null (Some (bot_id bot)).
Proof.
  destruct (total_run _ w (total_startBot E (bot_id bot))) as (r & w1 & Hrun).
  exists r, w1. eexists. split; [done|].
  unfold recoverBot. mrun. rewrite Hrun. mrun. done.
Qed.

Lemma steady_recoverBot id bot : preserves (steady id) (recoverBot E bot).
Proof.
  destruct (decide (bot_id bot = id)) as [<-|Hne].
  - intros w. destruct (recoverBot_run bot w) as (r & w1 & l & Hs & -> & _).
    cbn [snd]. pose proof (startBot_settled E (bot_id bot) w) as Hset.
    rewrite Hs in Hset. cbn [snd] in Hset.
    etrans; [by apply settled_steady|].
    apply same_handles_steady. split; [done|]. by eexists [_].
  - eapply preserves_weaken; [intros ? ?; by apply confined_steady|].
    apply confined_recoverBot.
Qed.

Lemma recoverBot_recovers bot w :
  botProcesses w !! bot_id bot = None →
  recovered (bot_id bot) w (snd (recoverBot E bot w)).
Proof.
  intros Hnone.
  destruct (recoverBot_run bot w) as (r & w1 & l & Hs & -> & _).
  cbn [snd]. pose proof (startBot_settled E (bot_id bot) w) as (evs & Ht & C).
  rewrite Hs in *. cbn [snd] in *.
  exists (EvLog l :: evs). split; [wsimpl; by rewrite Ht|].
  destruct C as [(bp & Hbp & _)|[Hon|[_ (l' & Hl & Hlev)]]].
  - congruence.
  - by left.
  - right. exists l'. split; [by right | done].
Qed.

Lemma for_of_recoverBot_recovers bot l w :
  bot ∈ l →
  botProcesses w !! bot_id bot = None →
  recovered (bot_id bot) w (snd (for_of l (recoverBot E) w)).
Proof.
  intros Hin. revert w.
  induction l as [|b l IH]; intros w Hnone; [by apply elem_of_nil in Hin|].
  cbn [for_of]. mrun.
  destruct (total_run _ w (total_recoverBot b)) as ([] & w1 & Hb).
  pose proof (steady_recoverBot (bot_id bot) b w) as Hst.
  rewrite Hb in *. cbn [snd] in Hst.
  pose proof (preserves_for_of (steady (bot_id bot)) l (recoverBot E)
    (steady_recoverBot (bot_id bot)) w1) as Hrest.
  apply elem_of_cons in Hin as [<-|Hin].
  - pose proof (recoverBot_recovers bot w Hnone) as Hrec.
    rewrite Hb in Hrec. cbn [snd] in Hrec.
    by eapply recovered_steady.
  - destruct (botProcesses w1 !! bot_id bot) as [bp|] eqn:Hw1.
    + eapply steady_recovered; [done | exact Hst |].
      apply online_steady_recovered; [|done].
      destruct Hst as (evs & _ & [Heq|[Hon|[Hn _]]]);
        [congruence | done | congruence].
    + eapply steady_recovered; [done | exact Hst |]. by apply IH.
Qed.

(** X23.  The startup recovery attempts every bot whose record says
    running or whose status is ONLINE: for such a bot without a handle,
    the recovery returns with an ONLINE handle for it, or with an error
    entry among the log entries it created. *)
Theorem recoverRunningBots_recovers (bot : Bot) (w : World) :
  bot ∈ Storage.getAllBots (storage w) →
  shouldRecover bot = true →
  botProcesses w !! bot_id bot = None →
  ∃ w' evs,
    recoverRunningBots E w = (Ret tt, w') ∧
    trace w' = evs ++ trace w ∧
    ((∃ bp, botProcesses w' !! bot_id bot = Some bp ∧ bp_status bp = ONLINE)
     ∨ (∃ l, EvLog l ∈ evs ∧ log_level l = "error")).
Proof.
  intros Hin Hrec Hnone.
  assert (bot ∈ List.filter shouldRecover (Storage.getAllBots (storage w)))
    as Hcand.
  { apply list_elem_of_In, filter_In. split; [by apply list_elem_of_In|done]. }
  pose proof (for_of_recoverBot_recovers bot _ w Hcand Hnone) as Hr.
  unfold recoverRunningBots. mrun.
  destruct (List.filter shouldRecover (Storage.getAllBots (storage w)))
    as [|b l] eqn:Hl; [by apply elem_of_nil in Hcand|].
  cbn [length Nat.eqb].
  destruct (total_run _ w (total_for_of (b :: l) (recoverBot E)
              total_recoverBot)) as ([] & w1 & Hloop).
  rewrite Hloop in *. cbn [snd] in Hr.
  destruct Hr as (evs & Ht & C). by exists w1, evs.
Qed.

(** X24.  The entry the recovery writes for a bot is the success entry
    (level info, "Bot automatically recovered after system restart."),
    also when [startBot] answered false: [startBot] reports a failure by
    its answer and does not throw, so the branch that would log the
    recovery failure is not taken. *)
Theorem recoverBot_logs_success_whatever_the_start (bot : Bot) (w : World) :
  ∃ r w1 w2 l,
    startBot E (bot_id bot) w = (Ret r, w1) ∧
    recoverBot E bot w = (Ret tt, w2) ∧
    trace w2 = EvLog l :: trace w1 ∧
    log_level l = "info" ∧
    log_message l = "Bot automatically recovered after system restart." ∧
    botProcesses w2 = botProcesses w1.
Proof.
  destruct (recoverBot_run bot w) as (r & w1 & l & Hs & Hr & Hlev & Hmsg & _).
  exists r, w1. eexists _, l. split; [done|]. split; [exact Hr|]. done.
Qed.

(** X25.  The startup recovery leaves the other bots alone: for a record
    that neither says running nor has status ONLINE, the handle and the
    record are the same afterwards and no client was built, logged in or
    destroyed for it; and when no record is a candidate the recovery
    changes nothing at all. *)
Theorem recoverRunningBots_leaves_others (bot : Bot) (w : World) :
  store_wf (storage w) →
  bot ∈ Storage.getAllBots (storage w) →
  shouldRecover bot = false →
  untouched (bot_id bot) w (snd (recoverRunningBots E w)) ∧
  (Forall (fun b => shouldRecover b = false)
          (Storage.getAllBots (storage w)) →
   recoverRunningBots E w = (Ret tt, w)).
Proof.
  intros Hwf Hin Hno. split.
  - unfold recoverRunningBots. mrun.
    destruct (Nat.eqb _ 0); [cbn; reflexivity|].
    assert (Forall (fun b => bot_id b ≠ bot_id bot)
              (List.filter shouldRecover (Storage.getAllBots (storage w))))
      as Hothers.
    { apply Forall_forall. intros b [Hb Hrec]%list_elem_of_In%filter_In Heq.
      apply list_elem_of_In in Hb.
      pose proof (store_wf_getBot _ _ Hwf Hb) as H1.
      pose proof (store_wf_getBot _ _ Hwf Hin) as H2.
      rewrite Heq in H1. congruence. }
    revert Hothers.
    generalize (List.filter shouldRecover (Storage.getAllBots (storage w))).
    intros l Hl. generalize w. clear Hwf Hin.
    induction Hl as [|b l Hb Hl IH]; intros w0; cbn [for_of].
    + cbn. reflexivity.
    + mrun. destruct (total_run _ w0 (total_recoverBot b)) as ([] & w1 & Hrun).
      pose proof (confined_recoverBot b w0) as Hc.
      rewrite Hrun in *. cbn [snd] in Hc.
      specialize (IH w1).
      destruct (for_of l (recoverBot E) w1) as [[[]|e] w2]; cbn [snd] in *;
        (etrans; [by eapply confined_untouched | exact IH]).
  - intros Hall. clear Hin Hwf. unfold recoverRunningBots. mrun.
    assert (List.filter shouldRecover (Storage.getAllBots (storage w)) = [])
      as ->; [|done].
    induction Hall as [|b l Hb _ IH]; [done|].
    cbn [List.filter]. rewrite Hb. exact IH.
Qed.

End Loops.

Section StopThenTick.

Variable E : Env.

Lemma updateBot_keeps_wf id data s :
  p_id data = None → store_wf s → store_wf (snd (Storage.updateBot id data s)).
Proof.
  intros Hdata [Hnd Hid]. unfold Storage.updateBot.
  destruct (JsMap.get id (bots s)) as [bot|] eqn:Hbot; [|done].
  unfold store_wf. cbn [snd bots].
  rewrite (JsMap_keys_set _ _ _ _ Hbot). split; [done|].
  apply JsMap_set_Forall; [done|]. cbn. rewrite Hdata. cbn.
  apply JsMap_get_elem in Hbot. rewrite Forall_forall in Hid.
  apply (Hid _ Hbot).
Qed.

Lemma getBot_in_getAllBots id bd s :
  Storage.getBot id s = Some bd → bd ∈ Storage.getAllBots s.
Proof.
  intros H. apply JsMap_get_elem in H. unfold Storage.getAllBots, JsMap.values.
  apply list_elem_of_fmap. by exists (id, bd).
Qed.

Lemma store_wf_getBot_id id bd s :
  store_wf s → Storage.getBot id s = Some bd → bot_id bd = id.
Proof.
  intros [_ Hid] H. apply JsMap_get_elem in H.
  rewrite Forall_forall in Hid. apply (Hid _ H).
Qed.

Lemma stopBot_absent_run id w :
  botProcesses w !! id = None → stopBot E id w = (Ret false, w).
Proof. intros H. unfold stopBot. mrun. by rewrite H. Qed.

Lemma startBot_accepted id bd w :
  Storage.getBot id (storage w) = Some bd →
  bot_token bd ≠ "" →
  botProcesses w !! id = None →
  (∀ n c t, env_login E n id c t = None) →
  online_handle id (snd (startBot E id w)).
Proof.
  intros Hbd Htok Hnone Hlogin. unfold startBot. mrun. rewrite Hbd.
  unfold str_truthy. destruct (String.eqb_spec (bot_token bd) ""); [done|].
  cbn [negb]. rewrite Hnone.
  rewrite bool_decide_eq_false_2 by (by intros [? ?]). cbv zeta.
  destruct (botTemplates !! _); mrun; run_listeners E; rewrite Hlogin;
    mrun; eexists; (split; [apply lookup_insert_eq | done]).
Qed.

(** The pass of the tick for a bot that should run, has no handle and
    whose login is accepted brings it online. *)
Lemma pingMechanismBot_reconnects bot w :
  bot_isRunning bot = true →
  bot_token bot ≠ "" →
  botProcesses w !! bot_id bot = None →
  Storage.getBot (bot_id bot) (storage w) = Some bot →
  (∀ n c t, env_login E n (bot_id bot) c t = None) →
  online_handle (bot_id bot) (snd (pingMechanismBot E bot w)).
Proof.
  intros Hrun Htok Hnone Hbd Hlogin.
  unfold pingMechanismBot, reconnectIfDisconnected, correctStoredStatus,
    checkProcessHealth, restartBot.
  mrun. rewrite Hnone, Hrun. cbn [disconnected andb]. mrun.
  rewrite stopBot_absent_run by done.
  match goal with
  | |- context [startBot E ?i ?w1] =>
      pose proof (startBot_accepted i bot w1 Hbd Htok Hnone Hlogin) as Hon;
      destruct (total_run _ w1 (total_startBot E i)) as (r & w2 & Hs)
  end.
  rewrite Hs in *. cbn [snd] in Hon. mrun. exact Hon.
Qed.

(** X21.  Stopping a bot does not last when its record says running:
    [stopBot] removes the handle and writes status OFFLINE but leaves
    [isRunning] set, so the next reconciliation tick takes the bot for
    disconnected and, the login being accepted, the bot has an ONLINE
    handle again after the tick. *)
Theorem stopped_bot_is_restarted_by_tick (id : Z) (bp : BotProcess)
    (bd : Bot) (w : World) :
  store_wf (storage w) →
  Storage.getBot id (storage w) = Some bd →
  bot_isRunning bd = true →
  bot_token bd ≠ "" →
  botProcesses w !! id = Some bp →
  destroy_error E id bp w = None →
  (∀ n c t, env_login E n id c t = None) →
  ∃ w1 w2 bd1,
    stopBot E id w = (Ret true, w1) ∧
    botProcesses w1 !! id = None ∧
    Storage.getBot id (storage w1) = Some bd1 ∧
    bot_status bd1 = Some "OFFLINE" ∧
    bot_isRunning bd1 = true ∧
    pingMechanismTick E w1 = (Ret tt, w2) ∧
    online_handle id w2.
Proof.
  intros Hwf Hbd Hrun Htok Hbp Hdestroy Hlogin.
  pose proof (store_wf_getBot_id _ _ _ Hwf Hbd) as Hid.
  set (bd1 := spread_bot bd (partial_status OFFLINE)).
  set (s1 := snd (Storage.updateBot id (partial_status OFFLINE) (storage w))).
  assert (Storage.getBot id s1 = Some bd1) as Hbd1.
  { unfold s1, Storage.getBot, Storage.updateBot in *. rewrite Hbd.
    cbn [snd bots]. apply JsMap_get_set_eq. }
  assert (store_wf s1) as Hwf1 by (by apply updateBot_keeps_wf).
  assert (∃ w1, stopBot E id w = (Ret true, w1) ∧
                botProcesses w1 !! id = None ∧ storage w1 = s1)
    as (w1 & Hstop & Hnone1 & Hs1).
  { unfold stopBot, destroy_error in *. mrun. rewrite Hbp.
    destruct (bp_discordClient bp) as [c|]; mrun;
      [rewrite Hdestroy; mrun|];
      run_broadcast E; eexists; (split; [reflexivity|]); wsimpl;
      (split; [apply lookup_delete_eq | done]). }
  exists w1. 
  assert (Hloop : online_handle id
    (snd (for_of (Storage.getAllBots (storage w1)) (pingMechanismBot E) w1))).
  { apply (for_of_one (pingMechanismBot E) id
             (fun w0 => botProcesses w0 !! id = None ∧
                        Storage.getBot id (storage w0) = Some bd1)
             (online_handle id) _ bd1).
    - apply total_pingMechanismBot.
    - apply confined_pingMechanismBot.
    - rewrite Hs1. by apply store_wf_ids.
    - rewrite Hs1. by eapply getBot_in_getAllBots.
    - done.
    - intros w0 w0' (Hp & Hb & _) [H1 H2]. split; congruence.
    - intros w0 w0' (Hp & _) (b & Hb & Hst). exists b. split; congruence.
    - intros w0 [H1 H2]. rewrite <- Hid.
      change (bot_id bd) with (bot_id bd1).
      apply pingMechanismBot_reconnects; try done;
        change (bot_id bd1) with (bot_id bd); rewrite Hid; try done.
    - by rewrite Hs1. }
  unfold pingMechanismTick. mrun.
  destruct (total_run _ w1
    (total_for_of (Storage.getAllBots (storage w1)) (pingMechanismBot E)
       (total_pingMechanismBot E))) as ([] & w2 & Hrunloop).
  rewrite Hrunloop in *. cbn [snd] in Hloop.
  pose proof (same_handles_broadcastUpdate E w2) as [Hsame _].
  destruct (total_run _ w2 (total_broadcastUpdate E)) as ([] & w3 & Hbc).
  rewrite Hbc in *. cbn [snd] in Hsame.
  exists w3, bd1. rewrite Hs1. repeat split; try done.
  destruct Hloop as (b & Hb & Hst). exists b. by rewrite Hsame.
Qed.

End StopThenTick.

(** * Subscribers *)

Lemma sends_only_to_members p cs evs :
  Forall2 (send_attempt p) cs evs →
  ∀ ws p' ok, EvSend ws p' ok ∈ evs → ws ∈ cs.
Proof.
  induction 1 as [|c e cs es [ok' ->] _ IH]; intros ws p' ok Hin.
  - by apply elem_of_nil in Hin.
  - apply elem_of_cons in Hin as [[= -> _ _]|Hin]; [left | right; eauto].
Qed.

Section Subscribers.

Variable E : Env.

(** X26.  [addClient] keeps the subscriber set a set: the member is in it
    afterwards, once, the members it had are still there, and adding a
    member twice is adding it once.  The new member is sent one snapshot
    right away, whatever the state of its socket. *)
Theorem addClient_adds_once (ws : Z) (w : World) :
  NoDup (clients w) →
  ∃ w' ok,
    addClient E ws w = (Ret tt, w') ∧
    NoDup (clients w') ∧
    ws ∈ clients w' ∧
    (∀ c, c ∈ clients w → c ∈ clients w') ∧
    (ws ∈ clients w → clients w' = clients w) ∧
    clients (snd (addClient E ws w')) = clients w' ∧
    trace w' = EvSend ws (snapshot w) ok :: trace w.
Proof.
  intros Hnd. unfold addClient. mrun.
  match goal with
  | |- context [sendStatusUpdateToClient E ws ?w1] =>
      destruct (sendStatusUpdateToClient_run E ws w1) as [ok ->]
  end.
  eexists _, ok. split; [reflexivity|]. wsimpl.
  match goal with
  | |- context [sendStatusUpdateToClient E ws ?w1] =>
      destruct (sendStatusUpdateToClient_run E ws w1) as [ok' ->]
  end.
  wsimpl. destruct (decide (ws ∈ clients w)) as [Hin|Hout].
  - rewrite !bool_decide_eq_true_2 by done. repeat split; done.
  - rewrite !bool_decide_eq_false_2 by done.
    assert (ws ∈ clients w ++ [ws]) as Hnow.
    { apply elem_of_app. right. left. }
    rewrite bool_decide_eq_true_2 by done. repeat split; try done.
    + apply NoDup_app. repeat split; [done| |apply NoDup_singleton].
      by intros c Hc ->%list_elem_of_singleton.
    + intros c Hc. apply elem_of_app. by left.
Qed.

(** X27.  After [removeClient] the subscriber is not in the set and the
    others still are; the next broadcast returns and makes no send to the
    removed one. *)
Theorem removeClient_stops_updates (ws : Z) (w : World) :
  ∃ w1 w2 evs,
    removeClient ws w = (Ret tt, w1) ∧
    (ws ∉ clients w1) ∧
    (∀ c, c ∈ clients w1 ↔ (c ∈ clients w ∧ c ≠ ws)) ∧
    broadcastUpdate E w1 = (Ret tt, w2) ∧
    trace w2 = evs ++ trace w ∧
    (∀ p ok, EvSend ws p ok ∉ evs).
Proof.
  unfold removeClient.
  set (w1 := set_clients (filter (fun c => c ≠ ws) (clients w)) w).
  destruct (broadcastUpdate_run E w1) as (evs & Hrun & Hsends).
  exists w1. eexists _, evs. split; [done|].
  assert (ws ∉ clients w1) as Hout.
  { unfold w1. cbn. intros [Hne _]%list_elem_of_filter. done. }
  split; [done|]. split.
  { intros c. unfold w1. cbn. rewrite list_elem_of_filter. tauto. }
  split; [exact Hrun|]. split; [done|].
  intros p ok Hin. apply Hout.
  eapply sends_only_to_members; [exact Hsends|].
  apply list_elem_of_In. apply -> in_rev. by apply list_elem_of_In.
Qed.

End Subscribers.

Section ErrorBroadcast.

Variable E : Env.

Lemma for_of_error_run (m : string) (cs : list Z) (w : World) :
  steady_sockets E →
  (∀ n ws p, env_send E n ws p = None) →
  ∃ w',
    for_of cs (fun client =>
      state ← ws_readyState E client;
      if Z.eqb state WebSocket_OPEN
      then ws_send E client (ErrorMessage m)
      else mret tt) w = (Ret tt, w') ∧
    trace w' =
      reverse ((fun c => EvSend c (ErrorMessage m) true) <$>
               filter (socket_open E) cs) ++ trace w.
Proof.
  intros Hsteady Hsend.
  set (body := fun client : Z =>
    state ← ws_readyState E client;
    if Z.eqb state WebSocket_OPEN
    then ws_send E client (ErrorMessage m)
    else mret tt).
  assert (Hbody : ∀ c w0,
    body c w0 =
    (Ret tt, if decide (socket_open E c)
             then advance (EvSend c (ErrorMessage m) true) (observe w0)
             else observe w0)).
  { intros c w0. unfold body, socket_open. mrun.
    rewrite (Hsteady (clock w0) 0%nat c).
    destruct (decide (env_readyState E 0 c = WebSocket_OPEN)) as [Ho|Hc].
    - rewrite Ho, Z.eqb_refl. mrun. by rewrite Hsend.
    - by destruct (Z.eqb_spec (env_readyState E 0 c) WebSocket_OPEN). }
  revert w. induction cs as [|c cs IH]; intros w; cbn [for_of].
  - by exists w.
  - unfold mbind, M_bind. rewrite Hbody, filter_cons.
    destruct (decide (socket_open E c)).
    + destruct (IH (advance (EvSend c (ErrorMessage m) true) (observe w)))
        as (w' & -> & Ht).
      exists w'. split; [done|]. rewrite Ht. wsimpl.
      rewrite fmap_cons, reverse_cons, <- app_assoc. done.
    + destruct (IH (observe w)) as (w' & -> & Ht).
      exists w'. split; [done|]. by rewrite Ht.
Qed.

(** X28.  [broadcastError] has the guard on [readyState]: when no send
    fails, it sends the error message to the subscribers whose socket is
    OPEN, once each and in the order of the set, and to no other. *)
Theorem broadcastError_reaches_open_sockets (m : string) (w : World) :
  steady_sockets E →
  (∀ n ws p, env_send E n ws p = None) →
  ∃ w',
    broadcastError E m w = (Ret tt, w') ∧
    trace w' =
      reverse ((fun c => EvSend c (ErrorMessage m) true) <$>
               filter (socket_open E) (clients w)) ++ trace w.
Proof.
  intros Hsteady Hsend. unfold broadcastError. mrun.
  by apply for_of_error_run.
Qed.

(** X29.  [broadcastError] does not isolate the subscribers from one
    another as [broadcastUpdate] does: when the send to the first OPEN
    subscriber throws, the error leaves the method and the subscribers
    after it are sent nothing. *)
Theorem broadcastError_aborts_on_failed_send (m e : string) (ws : Z)
    (pre post : list Z) (w : World) :
  steady_sockets E →
  clients w = pre ++ ws :: post →
  Forall (fun c => ¬ socket_open E c) pre →
  socket_open E ws →
  (∀ n, env_send E n ws (ErrorMessage m) = Some e) →
  ∃ w',
    broadcastError E m w = (Throw e, w') ∧
    trace w' = EvSend ws (ErrorMessage m) false :: trace w.
Proof.
  intros Hsteady Hcs Hpre Hopen Hsend. unfold broadcastError.
  set (body := fun client : Z =>
    state ← ws_readyState E client;
    if Z.eqb state WebSocket_OPEN
    then ws_send E client (ErrorMessage m)
    else mret tt).
  assert (Hclosed : ∀ c w0, ¬ socket_open E c → body c w0 = (Ret tt, observe w0)).
  { intros c w0 Hc. unfold body, socket_open in *. mrun.
    rewrite (Hsteady (clock w0) 0%nat c).
    by destruct (Z.eqb_spec (env_readyState E 0 c) WebSocket_OPEN). }
  assert (Hthrow : ∀ w0,
    body ws w0 = (Throw e, advance (EvSend ws (ErrorMessage m) false)
                             (observe w0))).
  { intros w0. unfold body, socket_open in *. mrun.
    rewrite (Hsteady (clock w0) 0%nat ws), Hopen, Z.eqb_refl. mrun.
    by rewrite Hsend. }
  unfold mbind at 1, M_bind at 1. unfold clients_get. rewrite Hcs.
  clear Hcs.
  assert (Hgen : ∀ w0, trace w0 = trace w →
    ∃ w', for_of (pre ++ ws :: post) body w0 = (Throw e, w') ∧
          trace w' = EvSend ws (ErrorMessage m) false :: trace w);
    [|by apply Hgen].
  induction Hpre as [|c pre Hc Hpre IH]; intros w0 Hw0; cbn [for_of app];
    unfold mbind, M_bind.
  - rewrite Hthrow. eexists. split; [reflexivity|]. wsimpl. by rewrite Hw0.
  - rewrite Hclosed by done. by apply IH.
Qed.

End ErrorBroadcast.

(** * The handlers *)

(** The record [id] is deleted from a store [s] whose bot map is that of
    [storage w], possibly after an update of the record. *)
Ltac deleted_in id w Hdel :=
  match goal with
  | |- context [StorageMore.deleteBot id ?s] =>
      let Hs := fresh "Hs" in
      assert (bots s = bots (storage w) ∨
              (∃ d, bots s = bots (Storage.updateBot id d (storage w)).2))
        as Hs by (first [left; reflexivity | right; eexists; reflexivity]);
      let Htrue := fresh "Htrue" in
      destruct (Hdel s Hs) as [Htrue ?]; rewrite Htrue
  end.

Section Handlers.

Variable E : Env.

(** X30.  DELETE /api/bots/:id on a record that exists answers 204 and
    removes the record in every case.  The handle goes with it when the
    connection could be destroyed; when destroying throws, the handle
    stays in the map although its record is gone. *)
Theorem route_deleteBot_removes_record (id : Z) (bd : Bot) (w : World) :
  Storage.getBot id (storage w) = Some bd →
  ∃ w',
    route_deleteBot E (Some id) w =
      (Ret {| res_status := 204; res_body := NoBody |}, w') ∧
    Storage.getBot id (storage w') = None ∧
    match botProcesses w !! id with
    | None => botProcesses w' = botProcesses w
    | Some bp =>
        match destroy_error E id bp w with
        | None => botProcesses w' = delete id (botProcesses w)
        | Some _ => botProcesses w' = botProcesses w
        end
    end.
Proof.
  intros Hbd. unfold route_deleteBot, stopBot, destroy_error. mrun2.
  assert (Hdel : ∀ s, bots s = bots (storage w) ∨
                      (∃ d, bots s = bots (Storage.updateBot id d (storage w)).2) →
            fst (StorageMore.deleteBot id s) = true ∧
            Storage.getBot id (snd (StorageMore.deleteBot id s)) = None).
  { intros s Hs. unfold StorageMore.deleteBot, Storage.getBot. cbn [fst snd bots].
    split.
    - unfold JsMapMore.delete. cbn [fst]. apply bool_decide_eq_true_2.
      destruct Hs as [->|[d ->]]; [by eexists|].
      unfold Storage.updateBot, Storage.getBot in *. rewrite Hbd.
      cbn [snd bots]. rewrite JsMap_get_set_eq. by eexists.
    - rewrite JsMap_get_delete. by destruct (decide _). }
  destruct (botProcesses w !! id) as [bp|]; mrun2;
    [destruct (bp_discordClient bp) as [c|]; mrun2;
       [destruct (env_destroy E (clock w) id c) as [e|]; mrun2|]|].
  2,3: run_broadcast E; mrun2.
  4: deleted_in id w Hdel. 3: deleted_in id w Hdel.
  2: deleted_in id w Hdel. 1: deleted_in id w Hdel.
  all: run_broadcast E; eexists; (split; [reflexivity|]); wsimpl; done.
Qed.

(** X20.  Emptying the token of a bot through PUT /api/bots/:id is
    accepted (200) and changes neither the identifier, the running flag,
    the status nor the handle map; but from then on [startBot] refuses
    the bot with false, also when it has a handle, and builds nothing. *)
Theorem emptied_token_refuses_start (id : Z) (bd : Bot) (d : UpdateData)
    (w : World) :
  Storage.getBot id (storage w) = Some bd →
  ud_token d = Some "" →
  ∃ b w1,
    route_updateBot (Some id) (Some d) w =
      (Ret {| res_status := 200; res_body := JsonBot b |}, w1) ∧
    bot_token b = "" ∧
    bot_id b = bot_id bd ∧
    bot_isRunning b = bot_isRunning bd ∧
    bot_status b = bot_status bd ∧
    botProcesses w1 = botProcesses w ∧
    fst (startBot E id w1) = Ret false ∧
    botProcesses (snd (startBot E id w1)) = botProcesses w ∧
    nextClient (snd (startBot E id w1)) = nextClient w.
Proof.
  intros Hbd Htok. unfold route_updateBot. mrun. rewrite Hbd. mrun.
  unfold Storage.updateBot, Storage.getBot in *. rewrite Hbd. cbn [fst snd].
  eexists _, _. split; [reflexivity|]. cbn [bot_token bot_id bot_isRunning
    bot_status spread_bot partial_of_update p_token p_id p_isRunning p_status
    default]. rewrite Htok. cbn [default]. repeat split.
  all: unfold startBot; mrun; unfold Storage.getBot; cbn [bots storage
    set_storage]; rewrite JsMap_get_set_eq;
    cbn [bot_token spread_bot partial_of_update p_token default];
    rewrite Htok; cbn; done.
Qed.

End Handlers.

(** ** The further theorems at sample worlds *)

Lemma sample_store_wf (b : Bot) : store_wf (sample_store b).
Proof.
  split; cbn.
  - apply NoDup_singleton.
  - by repeat constructor.
Qed.

Lemma sample_store_ids (b : Bot) : ids_below_counter (sample_store b).
Proof. unfold ids_below_counter. cbn. repeat constructor. lia. Qed.

Lemma startBot_login_outcome_witness :
  let bd := sample_bot 1 "token" false "OFFLINE" in
  let w := sample_world bd false [] in
  let c := {| client_no := nextClient w; client_intents := intentsFor bd |} in
  ∃ r w' heard evs bd',
    startBot env_ready 1 w = (Ret r, w') ∧
    nextClient w' = S (nextClient w) ∧
    trace heard = evs ++ EvNewClient 1 c :: trace w ∧
    Forall quiet evs ∧
    botProcesses heard = botProcesses w ∧
    Storage.getBot 1 (storage heard) = Some bd' ∧
    status_written bd bd' ∧
    Storage.getBot 1 (storage w') = Some bd' ∧
    match env_login env_ready (clock heard) 1 c (bot_token bd) with
    | None =>
        r = true ∧
        botProcesses w' =
          <[1 := {| bp_botId := 1; bp_discordClient := Some c;
                    bp_status := ONLINE;
                    bp_startTime := Some (env_now env_ready (S (clock heard)));
                    bp_pid := Some (env_pid env_ready);
                    bp_memory := Some 100 |}]> (botProcesses w) ∧
        storage w' = storage heard ∧
        trace w' = EvLogin 1 c (bot_token bd) true :: trace heard
    | Some e =>
        r = false ∧
        botProcesses w' = botProcesses w ∧
        ∃ l,
          trace w' = EvLog l :: EvLogin 1 c (bot_token bd) false
                       :: trace heard ∧
          l ∈ logs (storage w') ∧
          log_level l = "error" ∧
          log_message l = "Failed to start: " +:+ error_message e
    end ∧
    ((∀ n, env_emits env_ready n 1 c = []) →
       evs = [] ∧ storage heard = storage w) ∧
    ((∀ n, env_emits env_ready n 1 c = [EmReady]) →
       bd' = spread_bot bd (partial_status ONLINE) ∧
       ∃ l sends,
         evs = EvSetInterval 1 c 60000 :: EvLog l :: sends ∧
         log_level l = "info" ∧
         log_message l = "Bot " +:+ bot_name bd +:+ " is now online").
Proof.
  intros bd w.
  exact (startBot_login_outcome env_ready 1 bd w eq_refl ltac:(discriminate)
           ltac:(vm_compute; reflexivity)).
Defined.

(** A start during which the client emits ['ready']: the record says
    ONLINE when [startBot] returns. *)
Example startBot_ready_writes_online :
  let w := sample_world (sample_bot 1 "token" false "OFFLINE") false [] in
  fst (startBot env_ready 1 w) = Ret true ∧
  bot_status <$> Storage.getBot 1 (storage (snd (startBot env_ready 1 w))) =
    Some (Some "ONLINE") ∧
  bot_isRunning <$> Storage.getBot 1 (storage (snd (startBot env_ready 1 w))) =
    Some false.
Proof. vm_compute. by repeat split. Qed.

Lemma manager_never_clears_isRunning_witness :
  let w := sample_world (sample_bot 1 "token" true "ONLINE") true [] in
  ∃ b', Storage.getBot 1 (storage (snd (stopBot env_calm 1 w))) = Some b' ∧
        bot_isRunning b' = true.
Proof.
  intros w.
  apply (manager_never_clears_isRunning env_calm 1 1
           (sample_bot 1 "token" true "ONLINE") w eq_refl eq_refl).
  right; left. reflexivity.
Defined.

Lemma manager_keeps_store_wf_witness :
  let w := sample_world (sample_bot 1 "token" true "ONLINE") true [] in
  let w' := snd (createBot env_calm (fun _ => "{}") (sample_insert "t") w) in
  store_wf (storage w') ∧ ids_below_counter (storage w').
Proof.
  intros w w'.
  apply (manager_keeps_store_wf env_calm (fun _ => "{}") 1
           (sample_insert "t") w (sample_store_wf _) (sample_store_ids _)).
  left. reflexivity.
Defined.

Lemma createBot_stores_then_starts_witness :
  let w := sample_world (sample_bot 1 "token" true "ONLINE") true [] in
  let data := sample_insert "t" in
  ∃ bot stored w' evs,
    createBot env_ready (fun _ => "{}") data w = (Ret (Some bot), w') ∧
    trace w' = evs ++ trace w ∧
    bot = fst (StorageMore.createBot (fun _ => "{}") data (storage w)) ∧
    bot_isRunning bot = false ∧
    bot_status bot = Some "OFFLINE" ∧
    Storage.getBot (bot_id bot) (storage w') = Some stored ∧
    status_written bot stored ∧
    bot_isRunning stored = false ∧
    (ib_token data = "" →
       stored = bot ∧
       botProcesses w' = botProcesses w ∧ nextClient w' = nextClient w) ∧
    (ib_token data ≠ "" →
       online_handle (bot_id bot) w' ∨ error_logged evs) ∧
    ((∀ n c, env_emits env_ready n (bot_id bot) c = []) → stored = bot).
Proof.
  intros w data.
  apply (createBot_stores_then_starts env_ready (fun _ => "{}") data w).
  vm_compute. reflexivity.
Defined.

Lemma stopped_bot_is_restarted_by_tick_witness :
  let bd := sample_bot 1 "token" true "ONLINE" in
  let w := sample_world bd true [] in
  ∃ w1 w2 bd1,
    stopBot env_calm 1 w = (Ret true, w1) ∧
    botProcesses w1 !! 1 = None ∧
    Storage.getBot 1 (storage w1) = Some bd1 ∧
    bot_status bd1 = Some "OFFLINE" ∧
    bot_isRunning bd1 = true ∧
    pingMechanismTick env_calm w1 = (Ret tt, w2) ∧
    online_handle 1 w2.
Proof.
  intros bd w.
  apply (stopped_bot_is_restarted_by_tick env_calm 1 (sample_handle 1) bd w).
  - apply sample_store_wf.
  - reflexivity.
  - reflexivity.
  - discriminate.
  - vm_compute. reflexivity.
  - reflexivity.
  - reflexivity.
Defined.

Lemma recoverRunningBots_recovers_witness :
  let bot := sample_bot 1 "token" true "ONLINE" in
  let w := sample_world bot false [] in
  ∃ w' evs,
    recoverRunningBots env_calm w = (Ret tt, w') ∧
    trace w' = evs ++ trace w ∧
    ((∃ bp, botProcesses w' !! 1 = Some bp ∧ bp_status bp = ONLINE)
     ∨ (∃ l, EvLog l ∈ evs ∧ log_level l = "error")).
Proof.
  intros bot w.
  apply (recoverRunningBots_recovers env_calm bot w).
  - cbn. left.
  - reflexivity.
  - vm_compute. reflexivity.
Defined.

Lemma recoverRunningBots_leaves_others_witness :
  let bot := sample_bot 1 "token" false "OFFLINE" in
  let w := sample_world bot true [] in
  untouched 1 w (snd (recoverRunningBots env_calm w)) ∧
  (Forall (fun b => shouldRecover b = false)
          (Storage.getAllBots (storage w)) →
   recoverRunningBots env_calm w = (Ret tt, w)).
Proof.
  intros bot w.
  apply (recoverRunningBots_leaves_others env_calm bot w).
  - apply sample_store_wf.
  - cbn. left.
  - reflexivity.
Defined.

Lemma addClient_adds_once_witness :
  let w := sample_world (sample_bot 1 "token" false "OFFLINE") false [3] in
  ∃ w' ok,
    addClient env_calm 7 w = (Ret tt, w') ∧
    NoDup (clients w') ∧
    7 ∈ clients w' ∧
    (∀ c, c ∈ clients w → c ∈ clients w') ∧
    (7 ∈ clients w → clients w' = clients w) ∧
    clients (snd (addClient env_calm 7 w')) = clients w' ∧
    trace w' = EvSend 7 (snapshot w) ok :: trace w.
Proof.
  intros w.
  apply (addClient_adds_once env_calm 7 w).
  cbn. apply NoDup_singleton.
Defined.

Lemma broadcastError_reaches_open_sockets_witness :
  let w := sample_world (sample_bot 1 "token" false "OFFLINE") false [1; 2; 3] in
  ∃ w',
    broadcastError env_second_closed "boom" w = (Ret tt, w') ∧
    trace w' =
      reverse ((fun c => EvSend c (ErrorMessage "boom") true) <$>
               filter (socket_open env_second_closed) (clients w)) ++ trace w.
Proof.
  intros w.
  apply (broadcastError_reaches_open_sockets env_second_closed "boom" w).
  - intros n n' ws. reflexivity.
  - intros n ws p. reflexivity.
Defined.

Lemma broadcastError_aborts_on_failed_send_witness :
  let w := sample_world (sample_bot 1 "token" false "OFFLINE") false [1; 2; 3] in
  ∃ w',
    broadcastError env_send_throws "boom" w = (Throw "EPIPE", w') ∧
    trace w' = EvSend 2 (ErrorMessage "boom") false :: trace w.
Proof.
  intros w.
  apply (broadcastError_aborts_on_failed_send env_send_throws "boom" "EPIPE"
           2 [1] [3] w).
  - intros n n' ws. reflexivity.
  - reflexivity.
  - repeat constructor. unfold socket_open. cbn. discriminate.
  - reflexivity.
  - intros n. reflexivity.
Defined.

Lemma route_deleteBot_removes_record_witness :
  let bd := sample_bot 1 "token" true "ONLINE" in
  let w := sample_world bd true [] in
  ∃ w',
    route_deleteBot env_destroy_throws (Some 1) w =
      (Ret {| res_status := 204; res_body := NoBody |}, w') ∧
    Storage.getBot 1 (storage w') = None ∧
    match botProcesses w !! 1 with
    | None => botProcesses w' = botProcesses w
    | Some bp =>
        match destroy_error env_destroy_throws 1 bp w with
        | None => botProcesses w' = delete 1 (botProcesses w)
        | Some _ => botProcesses w' = botProcesses w
        end
    end.
Proof.
  intros bd w.
  exact (route_deleteBot_removes_record env_destroy_throws 1 bd w eq_refl).
Defined.

Lemma emptied_token_refuses_start_witness :
  let bd := sample_bot 1 "token" true "ONLINE" in
  let w := sample_world bd true [] in
  ∃ b w1,
    route_updateBot (Some 1) (Some sample_update) w =
      (Ret {| res_status := 200; res_body := JsonBot b |}, w1) ∧
    bot_token b = "" ∧
    bot_id b = bot_id bd ∧
    bot_isRunning b = bot_isRunning bd ∧
    bot_status b = bot_status bd ∧
    botProcesses w1 = botProcesses w ∧
    fst (startBot env_calm 1 w1) = Ret false ∧
    botProcesses (snd (startBot env_calm 1 w1)) = botProcesses w ∧
    nextClient (snd (startBot env_calm 1 w1)) = nextClient w.
Proof.
  intros bd w.
  exact (emptied_token_refuses_start env_calm 1 bd sample_update w
           eq_refl eq_refl).
Defined.
